(** * Agent infrastructure stack: router, sandbox pool, embedding cache,
      audit stream and protocol adapters

    A shallow embedding of the TypeScript sources of the request pipeline
    (packages/intent-router, packages/sandbox-runtime, packages/audit-interface,
    packages/protocol-adapter, packages/shared) together with the properties
    the specification states about them and further properties of the code.

    Conventions of the embedding.
    - A JavaScript [number] is an exact rational ([Q]); [NaN] and the
      infinities are outside the model and rounding is not represented,
      except where a number is printed with a fixed number of digits or
      rounded up to a whole number: the operations whose result is printed
      or rounded up take their operands as doubles and round their result
      to a double ([to_double]). Comparisons of finite doubles coincide
      with the comparisons of the rationals they denote.
    - [Date.now()] and [generateId()] are passed in by the caller of each
      operation, one argument per call site.
    - An exception is a value of [completion]: [Normal a] or [Throw e].
    - A JavaScript object used as a record of known shape is a Rocq record;
      a value of type [unknown] is a [JsValue]. *)

From Stdlib Require Import ZArith QArith Qround Qminmax Qabs Qpower String Ascii List Bool Lia Lqa.
From stdpp Require Import base option list strings gmap pretty.
Import ListNotations.

#[local] Set Warnings "-register-all".
Local Open Scope string_scope.
Local Open Scope Z_scope.

(** ** JavaScript values and the primitives the sources rely on *)

Module JS.

Inductive JsError : Type :=
| TypeError (msg : string)
| Error (msg : string).

Definition error_message (e : JsError) : string :=
  match e with
  | TypeError m => m
  | Error m => m
  end.

Inductive completion (A : Type) : Type :=
| Normal (a : A)
| Throw (e : JsError).
Arguments Normal {A} a.
Arguments Throw {A} e.

Definition bind {A B : Type} (c : completion A) (k : A -> completion B) : completion B :=
  match c with
  | Normal a => k a
  | Throw e => Throw e
  end.

(** [try { body } catch (error) { handler }] *)
Definition try_catch {A : Type} (body : completion A) (handler : JsError -> completion A)
  : completion A :=
  match body with
  | Normal a => Normal a
  | Throw e => handler e
  end.

Inductive JsValue : Type :=
| JUndefined
| JNull
| JBool (b : bool)
| JNum (q : Q)
| JStr (s : string)
| JArr (elems : list JsValue)
| JObj (props : list (string * JsValue)).

(** The host's [Number::toString] and [StringToNumber] ([None] for [NaN]):
    the printing and the parsing of numbers are not part of the repository
    and are taken as given. *)
Class Host : Type := {
  Number_toString : Q -> string;
  StringToNumber : string -> option Q
}.

(** Decimal digits of a non-negative integer. *)
Definition digits (n : Z) : string := pretty (Z.to_N n).

Fixpoint zeros (k : nat) : string :=
  match k with
  | O => ""
  | S k' => String "0" (zeros k')
  end.

Definition Qltb (x y : Q) : bool := negb (Qle_bool y x).

(** [x.toFixed(f)]: the integer [n] with [n / 10^f] nearest to [x], the
    larger one on a tie, printed with exactly [f] fraction digits. *)
Definition toFixed `{Host} (f : nat) (x : Q) : string :=
  if Qle_bool (inject_Z (10 ^ 21)) (Qabs x) then Number_toString x
  else
    let s := if Qltb x 0 then "-" else "" in
    let ax := Qabs x in
    let n := Qfloor (ax * inject_Z (10 ^ Z.of_nat f) + (1 # 2)) in
    let m := digits n in
    match f with
    | O => s ++ m
    | _ =>
      let k := String.length m in
      let m' := if (k <=? f)%nat then zeros (f + 1 - k) ++ m else m in
      let k' := String.length m' in
      s ++ substring 0 (k' - f) m' ++ "." ++ substring (k' - f) f m'
    end.

(** [2^e] for an integer exponent. *)
Definition pow2 (e : Z) : Q :=
  if e <? 0 then 1 # Z.to_pos (2 ^ (- e)) else inject_Z (2 ^ e).

(** The integer [k] with [2^k <= q < 2^(k+1)], for a positive [q]. *)
Definition floor_log2 (q : Q) : Z :=
  let k := Z.log2 (Qnum q) - Z.log2 (Zpos (Qden q)) in
  if Qle_bool (pow2 k) q then k else k - 1.

(** The nearest integer, the even one on a tie. *)
Definition round_half_even (q : Q) : Z :=
  let f := Qfloor q in
  match (q - inject_Z f ?= 1 # 2)%Q with
  | Lt => f
  | Gt => f + 1
  | Eq => if Z.even f then f else f + 1
  end.

(** The double nearest to a rational, the one with the even significand on
    a tie (IEEE 754 binary64, round to nearest): a significand of 53 bits
    above [2^-1022], multiples of [2^-1074] below. Magnitudes of [2^1024]
    and more, which round to an infinity, are outside the model. *)
Definition to_double (q : Q) : Q :=
  if Qeq_bool q 0 then 0%Q
  else
    let e := Z.max (floor_log2 (Qabs q) - 52) (-1074) in
    let m := round_half_even (Qabs q / pow2 e) in
    Qred (if Qltb q 0 then - (inject_Z m * pow2 e) else inject_Z m * pow2 e)%Q.

(** [x * y] and [x / y] on doubles: the exact result, rounded. *)
Definition Number_times (x y : Q) : Q := to_double (to_double x * to_double y).

Definition Number_divide (x y : Q) : Q := to_double (to_double x / to_double y).

(** [haystack.includes(needle)] *)
Fixpoint includes (needle haystack : string) : bool :=
  if String.prefix needle haystack then true
  else match haystack with
       | EmptyString => false
       | String _ rest => includes needle rest
       end.

(** [Array.prototype.slice(start, end)] with its relative-index rules. *)
Definition relative_index (len i : Z) : Z :=
  if i <? 0 then Z.max (len + i) 0 else Z.min i len.

Definition slice {A : Type} (start stop : Z) (l : list A) : list A :=
  let len := Z.of_nat (length l) in
  let k := relative_index len start in
  let final := relative_index len stop in
  firstn (Z.to_nat (final - k)) (skipn (Z.to_nat k) l).

(** [Array.prototype.slice(start)] *)
Definition slice_from {A : Type} (start : Z) (l : list A) : list A :=
  slice start (Z.of_nat (length l)) l.

(** [Array.prototype.sort(compare)]: the sort is stable, so for a consistent
    comparator the result is the one a stable insertion sort produces. An
    element moves behind another only when [compare] is positive. *)
Fixpoint sort_insert {A : Type} (compare : A -> A -> Q) (x : A) (l : list A) : list A :=
  match l with
  | [] => [x]
  | y :: l' =>
    if Qltb 0 (compare x y) then y :: sort_insert compare x l'
    else x :: y :: l'
  end.

Fixpoint sort {A : Type} (compare : A -> A -> Q) (l : list A) : list A :=
  match l with
  | [] => []
  | x :: l' => sort_insert compare x (sort compare l')
  end.

(** The comparator [(a, b) => key(b) - key(a)]. *)
Definition by_key_descending {A : Type} (key : A -> Q) (a b : A) : Q := (key b - key a)%Q.

(** Every element is followed only by elements of smaller or equal key. *)
Inductive descending {A : Type} (key : A -> Q) : list A -> Prop :=
| descending_nil : descending key []
| descending_cons x l :
    Forall (fun y => (key y <= key x)%Q) l -> descending key l -> descending key (x :: l).

(** [array.push(x)] *)
Definition push {A : Type} (l : list A) (x : A) : list A := app l [x].

(** [Math.min(Math.max(value, min), max)] *)
Definition clamp (value min max : Q) : Q := Qmin (Qmax value min) max.

(** The conversion of a value to a boolean in a condition. *)
Definition truthy (v : JsValue) : bool :=
  match v with
  | JUndefined | JNull => false
  | JBool b => b
  | JNum q => negb (Qeq_bool q 0)
  | JStr s => negb (String.eqb s "")
  | JArr _ | JObj _ => true
  end.

(** [v === null] *)
Definition JsValue_is_null (v : JsValue) : bool :=
  match v with
  | JNull => true
  | _ => false
  end.

(** [a || b] *)
Definition or_else (a b : JsValue) : JsValue := if truthy a then a else b.

(** [v === "s"] for a string literal [s]. *)
Definition is_string (s : string) (v : JsValue) : bool :=
  match v with
  | JStr s' => String.eqb s' s
  | _ => false
  end.

(** An object is the list of its own properties in enumeration order; a
    key occurs once. *)
Fixpoint own_property (k : string) (props : list (string * JsValue)) : JsValue :=
  match props with
  | [] => JUndefined
  | (k', v) :: rest => if String.eqb k k' then v else own_property k rest
  end.

(** [v.k] for the property names the sources use: on [undefined] and [null]
    it throws; strings and arrays have a [length]; none of the names used is
    found on a prototype. *)
Definition get (v : JsValue) (k : string) : completion JsValue :=
  match v with
  | JUndefined =>
    Throw (TypeError ("Cannot read properties of undefined (reading '" ++ k ++ "')"))
  | JNull =>
    Throw (TypeError ("Cannot read properties of null (reading '" ++ k ++ "')"))
  | JObj props => Normal (own_property k props)
  | JStr s =>
    Normal (if String.eqb k "length" then JNum (inject_Z (Z.of_nat (String.length s)))
            else JUndefined)
  | JArr elems =>
    Normal (if String.eqb k "length" then JNum (inject_Z (Z.of_nat (length elems)))
            else JUndefined)
  | JBool _ | JNum _ => Normal JUndefined
  end.

(** [v?.k] *)
Definition get_optional (v : JsValue) (k : string) : completion JsValue :=
  match v with
  | JUndefined | JNull => Normal JUndefined
  | _ => get v k
  end.

(** [ToString], as a template literal applies it. *)
Fixpoint ToString `{Host} (v : JsValue) : string :=
  match v with
  | JUndefined => "undefined"
  | JNull => "null"
  | JBool b => if b then "true" else "false"
  | JNum q => Number_toString q
  | JStr s => s
  | JArr elems =>
    String.concat ","
      (map (fun x => match x with
                     | JUndefined | JNull => ""
                     | _ => ToString x
                     end) elems)
  | JObj _ => "[object Object]"
  end.

(** [ToNumber]; [None] stands for [NaN]. *)
Definition ToNumber `{Host} (v : JsValue) : option Q :=
  match v with
  | JUndefined => None
  | JNull => Some 0%Q
  | JBool b => Some (if b then 1%Q else 0%Q)
  | JNum q => Some q
  | JStr s => StringToNumber s
  | JArr _ => StringToNumber (ToString v)
  | JObj _ => None
  end.

(** [v > 0] and [v < bound] on an arbitrary value and a number. *)
Definition greater_than_zero `{Host} (v : JsValue) : bool :=
  match ToNumber v with
  | Some q => Qltb 0 q
  | None => false
  end.

Definition less_than `{Host} (v : JsValue) (bound : Q) : bool :=
  match ToNumber v with
  | Some q => Qltb q bound
  | None => false
  end.

Definition dquote : string := String (ascii_of_nat 34) EmptyString.
Definition backslash : string := String (ascii_of_nat 92) EmptyString.

Definition hex_digit (n : nat) : string :=
  String (ascii_of_nat (if (n <? 10)%nat then 48 + n else 87 + n)) EmptyString.

(** The escapes of [QuoteJSONString]. *)
Definition escape_char (c : ascii) : string :=
  let n := nat_of_ascii c in
  if (n =? 8)%nat then backslash ++ "b"
  else if (n =? 9)%nat then backslash ++ "t"
  else if (n =? 10)%nat then backslash ++ "n"
  else if (n =? 12)%nat then backslash ++ "f"
  else if (n =? 13)%nat then backslash ++ "r"
  else if (n =? 34)%nat then backslash ++ dquote
  else if (n =? 92)%nat then backslash ++ backslash
  else if (n <? 32)%nat then backslash ++ "u00" ++ hex_digit (n / 16) ++ hex_digit (n mod 16)
  else String c EmptyString.

Fixpoint escape (s : string) : string :=
  match s with
  | EmptyString => EmptyString
  | String c rest => escape_char c ++ escape rest
  end.

Definition quote (s : string) : string := dquote ++ escape s ++ dquote.

(** [JSON.stringify(v)]; [None] stands for the result [undefined]. *)
Fixpoint JSON_stringify `{Host} (v : JsValue) : option string :=
  match v with
  | JUndefined => None
  | JNull => Some "null"
  | JBool b => Some (if b then "true" else "false")
  | JNum q => Some (Number_toString q)
  | JStr s => Some (quote s)
  | JArr elems =>
    Some ("[" ++ String.concat ","
                   (map (fun x => match JSON_stringify x with
                                  | Some s => s
                                  | None => "null"
                                  end) elems) ++ "]")
  | JObj props =>
    Some ("{" ++ String.concat ","
                   (flat_map (fun p => match JSON_stringify (snd p) with
                                       | Some s => [quote (fst p) ++ ":" ++ s]
                                       | None => []
                                       end) props) ++ "}")
  end.

(** [JSON.stringify(v).length] *)
Definition stringified_length `{Host} (v : JsValue) : completion Z :=
  match JSON_stringify v with
  | Some s => Normal (Z.of_nat (String.length s))
  | None => Throw (TypeError "Cannot read properties of undefined (reading 'length')")
  end.

Definition lower_char (c : ascii) : ascii :=
  let n := nat_of_ascii c in
  if ((65 <=? n) && (n <=? 90))%nat then ascii_of_nat (n + 32) else c.

(** [s.toLowerCase()] on the ASCII letters. *)
Fixpoint lower (s : string) : string :=
  match s with
  | EmptyString => EmptyString
  | String c rest => String (lower_char c) (lower rest)
  end.

(** [v.toLowerCase()] on an arbitrary value. *)
Definition toLowerCase (name : string) (v : JsValue) : completion string :=
  match v with
  | JStr s => Normal (lower s)
  | JUndefined => Throw (TypeError "Cannot read properties of undefined (reading 'toLowerCase')")
  | JNull => Throw (TypeError "Cannot read properties of null (reading 'toLowerCase')")
  | _ => Throw (TypeError (name ++ ".toLowerCase is not a function"))
  end.

End JS.

Import JS.

(** ** packages/shared: the value types of the pipeline *)

Module Shared.

Inductive Protocol : Type := mcp | a2a | ucp | acp | openai | anthropic.

(** The eight categories, and [inherited key]: what a lookup in an object
    literal yields for the keys [constructor] and [__proto__], a member of
    [Object.prototype] that is no category. *)
Inductive IntentCategory : Type :=
| tool_call | information_request | action_execution | data_retrieval
| code_generation | analysis | conversation | escalation
| inherited (key : string).

(** The category inside a template literal. *)
Definition category_text (c : IntentCategory) : string :=
  match c with
  | tool_call => "tool_call"
  | information_request => "information_request"
  | action_execution => "action_execution"
  | data_retrieval => "data_retrieval"
  | code_generation => "code_generation"
  | analysis => "analysis"
  | conversation => "conversation"
  | escalation => "escalation"
  | inherited key =>
    if String.eqb key "constructor" then "function Object() { [native code] }"
    else "[object Object]"
  end.

Record IntentAlternative : Type := {
  alt_action : string;
  alt_confidence : Q;
  alt_reason : string
}.

(** [action], [target] and [parameters] are copied out of an untyped payload
    and hold whatever value the payload had there. *)
Record NormalizedIntent : Type := {
  intent_id : string;
  category : IntentCategory;
  action : JsValue;
  target : JsValue;
  parameters : JsValue;
  intent_confidence : Q;
  intent_alternatives : list IntentAlternative
}.

Record CostEstimate : Type := {
  cost_min : Q;
  cost_max : Q;
  currency : string;
  cost_unit : string
}.

Record ToolDefinition : Type := {
  tool_id : string;
  tool_name : string;
  tool_description : string;
  tool_protocol : Protocol;
  tool_parameters : JsValue;
  tool_returns : JsValue;
  costEstimate : option CostEstimate;
  latencyEstimate : option Q;
  requiredCredentials : option (list string)
}.

Record RequestContext : Type := {
  sessionId : string;
  userId : string;
  conversationHistory : list JsValue;
  availableTools : list ToolDefinition;
  constraints : list JsValue;
  preferences : list JsValue
}.

Record RequestMetadata : Type := {
  priority : Q;
  maxLatencyMs : Q;
  maxBudgetCents : Q;
  requireHumanApproval : bool;
  auditLevel : string;
  traceId : string
}.

(** [normalizedIntent] is what the adapter returned as its intent;
    [convert] does not check that there is one. *)
Record AgentRequest : Type := {
  request_id : string;
  request_timestamp : Z;
  sourceProtocol : Protocol;
  rawPayload : JsValue;
  normalizedIntent : option NormalizedIntent;
  context : RequestContext;
  metadata : RequestMetadata
}.

Record RoutingDecision : Type := {
  requestId : string;
  selectedTool : ToolDefinition;
  decision_confidence : Q;
  decision_reasoning : string;
  fallbackTools : list ToolDefinition;
  estimatedLatency : Q;
  estimatedCost : Q;
  requiresApproval : bool;
  approvalReason : option string
}.

Inductive AuditEventType : Type :=
| request_received | intent_classified | tool_selected | human_approval_requested
| human_approved | human_rejected | tool_executed | tool_failed | response_sent
| error_occurred | security_alert.

Definition AuditEventType_name (t : AuditEventType) : string :=
  match t with
  | request_received => "request_received"
  | intent_classified => "intent_classified"
  | tool_selected => "tool_selected"
  | human_approval_requested => "human_approval_requested"
  | human_approved => "human_approved"
  | human_rejected => "human_rejected"
  | tool_executed => "tool_executed"
  | tool_failed => "tool_failed"
  | response_sent => "response_sent"
  | error_occurred => "error_occurred"
  | security_alert => "security_alert"
  end.

Inductive Severity : Type := info | warning | error | critical.

Definition Severity_name (s : Severity) : string :=
  match s with
  | info => "info"
  | warning => "warning"
  | error => "error"
  | critical => "critical"
  end.

Record HumanReview : Type := {
  reviewerId : string;
  review_decision : string;
  review_timestamp : Z;
  comments : option string;
  modifications : option JsValue
}.

Record AuditEntry : Type := {
  entry_id : string;
  entry_timestamp : Z;
  entry_traceId : string;
  entry_requestId : string;
  eventType : AuditEventType;
  severity : Severity;
  actor : string;
  entry_action : string;
  entry_target : string;
  details : JsValue;
  beforeState : JsValue;
  afterState : JsValue;
  humanReview : option HumanReview
}.

(** The constants of [SEMANTIC_ROUTING]. *)
Definition SEMANTIC_ROUTING_embeddingDimensions : Z := 384.
Definition SEMANTIC_ROUTING_minConfidence : Q := 7 # 10.
Definition SEMANTIC_ROUTING_similarityThreshold : Q := 85 # 100.
Definition SEMANTIC_ROUTING_maxAlternatives : Z := 3.

End Shared.

Import Shared.

(** ** packages/shared/src/utils: the helpers beside [clamp] and
       [cosineSimilarity] *)

Module Utils.

(** [PerformanceMetrics] names six metrics; [PERFORMANCE_TARGETS] gives the
    target of each. *)
Inductive Metric : Type :=
| protocolTranslationOverheadMs | semanticRoutingAccuracy | intentResolutionLatencyMs
| auditInterfaceComprehensionSec | sandboxColdStartMs | toolIntegrationTimeMin.

Definition PERFORMANCE_TARGETS (m : Metric) : Q :=
  match m with
  | protocolTranslationOverheadMs => 5
  | semanticRoutingAccuracy => 95 # 100
  | intentResolutionLatencyMs => 50
  | auditInterfaceComprehensionSec => 5
  | sandboxColdStartMs => 500
  | toolIntegrationTimeMin => 10
  end.

Record TargetCheck : Type := {
  check_met : bool;
  check_target : Q;
  check_delta : Q
}.

Definition checkPerformanceTarget (metric : Metric) (value : Q) : TargetCheck :=
  let target := PERFORMANCE_TARGETS metric in
  let delta := (value - target)%Q in
  match metric with
  | semanticRoutingAccuracy =>
    {| check_met := Qle_bool target value;
       check_target := target;
       check_delta := (target - value)%Q |}
  | _ =>
    {| check_met := Qle_bool value target;
       check_target := target;
       check_delta := delta |}
  end.

(** [calculatePercentile]; [None] is the [undefined] that an index past the
    end of the array reads. The quotient and the product under [Math.ceil]
    are those of doubles: 28 percent of 25 values is the double above 7,
    and the code reads the eighth value. *)
Definition calculatePercentile (values : list Q) (percentile : Q) : option Q :=
  if (length values =? 0)%nat then Some 0%Q
  else
    let sorted := sort (fun a b => (a - b)%Q) values in
    let index :=
      Qceiling (Number_times (Number_divide percentile 100)
                  (inject_Z (Z.of_nat (length sorted)))) - 1 in
    nth_error sorted (Z.to_nat (Z.max 0 index)).

(** The index [calculatePercentile] reads in an array of [n] values. *)
Definition percentile_index (percentile : Q) (n : nat) : nat :=
  Z.to_nat (Z.max 0 (Qceiling (Number_times (Number_divide percentile 100)
                                 (inject_Z (Z.of_nat n))) - 1)).

Record Stats : Type := {
  stats_min : option Q;
  stats_max : option Q;
  stats_avg : Q;
  stats_p50 : option Q;
  stats_p95 : option Q;
  stats_p99 : option Q
}.

Definition calculateStats (values : list Q) : Stats :=
  if (length values =? 0)%nat then
    {| stats_min := Some 0%Q; stats_max := Some 0%Q; stats_avg := 0;
       stats_p50 := Some 0%Q; stats_p95 := Some 0%Q; stats_p99 := Some 0%Q |}
  else
    let sorted := sort (fun a b => (a - b)%Q) values in
    let sum := fold_left (fun a b => (a + b)%Q) sorted 0%Q in
    {| stats_min := nth_error sorted 0;
       stats_max := nth_error sorted (length sorted - 1);
       stats_avg := (sum / inject_Z (Z.of_nat (length sorted)))%Q;
       stats_p50 := calculatePercentile sorted 50;
       stats_p95 := calculatePercentile sorted 95;
       stats_p99 := calculatePercentile sorted 99 |}.

Definition isValidProtocol (protocol : string) : bool :=
  existsb (String.eqb protocol) ["mcp"; "a2a"; "ucp"; "acp"; "openai"; "anthropic"].

(** [s.slice(start, end)] and [s.slice(start)] on the code units of a
    string, with the relative-index rules of [slice]. *)
Definition string_slice (start stop : Z) (s : string) : string :=
  string_of_list_ascii (slice start stop (list_ascii_of_string s)).

Definition string_slice_from (start : Z) (s : string) : string :=
  string_of_list_ascii (slice_from start (list_ascii_of_string s)).

Fixpoint copies (s : string) (n : nat) : string :=
  match n with
  | O => ""
  | S n' => s ++ copies s n'
  end.

Section Strings.

(** The longest string the host builds: an operation whose result would be
    longer raises a RangeError. The language allows up to [2^53 - 1] code
    units and engines set their own limit, V8 below [2^30]. *)
Variable maxLength : Z.

(** [s.repeat(count)]: a negative count and a result that is too long
    raise a RangeError, kept here as an [Error] with its message. *)
Definition repeat (s : string) (count : Z) : completion string :=
  if count <? 0 then Throw (Error ("Invalid count value: -" ++ digits (- count)))
  else if maxLength <? Z.of_nat (String.length s) * count
       then Throw (Error "Invalid string length")
       else Normal (copies s (Z.to_nat count)).

(** [a + b] on strings. *)
Definition concat (a b : string) : completion string :=
  if maxLength <? Z.of_nat (String.length a) + Z.of_nat (String.length b)
  then Throw (Error "Invalid string length")
  else Normal (a ++ b).

(** [maskSensitiveData(data, visibleChars = 4)]; [visibleChars] is a whole
    number. *)
Definition maskSensitiveData (data : string) (visibleChars : option Z) : completion string :=
  let visibleChars := default 4 visibleChars in
  let len := Z.of_nat (String.length data) in
  if len <=? visibleChars * 2 then repeat "*" len
  else
    let head := string_slice 0 visibleChars data in
    bind (repeat "*" (len - visibleChars * 2)) (fun stars =>
      bind (concat head stars) (fun masked =>
        concat masked (string_slice_from (- visibleChars) data))).

End Strings.

End Utils.

(** ** packages/intent-router/src/embeddings: the cache and the service *)

Module Embeddings.

Module InMemoryEmbeddingCache.

Record t : Type := {
  cache : gmap string (list Q);
  timestamps : gmap string Z;
  ttlMs : Z
}.

(** [new InMemoryEmbeddingCache(ttlMs)], 300000 when the argument is absent. *)
Definition create (ttl : option Z) : t :=
  {| cache := ∅; timestamps := ∅; ttlMs := default 300000 ttl |}.

(** [get(key)] when [Date.now()] reads [now]. A timestamp that is absent or
    zero ends the call at [!timestamp]. *)
Definition get (now : Z) (key : string) (c : t) : option (list Q) * t :=
  match timestamps c !! key with
  | None => (None, c)
  | Some timestamp =>
    if timestamp =? 0 then (None, c)
    else if now - timestamp >? ttlMs c then
      (None, {| cache := delete key (cache c);
                timestamps := delete key (timestamps c);
                ttlMs := ttlMs c |})
    else (cache c !! key, c)
  end.

(** [set(key, embedding)] when [Date.now()] reads [now]. *)
Definition set (now : Z) (key : string) (embedding : list Q) (c : t) : t :=
  {| cache := <[key := embedding]> (cache c);
     timestamps := <[key := now]> (timestamps c);
     ttlMs := ttlMs c |}.

Definition clear (c : t) : t :=
  {| cache := ∅; timestamps := ∅; ttlMs := ttlMs c |}.

End InMemoryEmbeddingCache.

Record IntentEmbedding : Type := {
  intent : JsValue;
  embedding : list Q;
  embedding_dimensions : Z;
  embedding_model : string
}.

Record EmbeddingService : Type := {
  service_cache : InMemoryEmbeddingCache.t;
  model : string;
  dimensions : Z
}.

(** The options of the constructor. [cache] may be any object with the
    methods of [EmbeddingCache]; the one class of the repository that
    implements it is [InMemoryEmbeddingCache], and a cache of another class
    is not covered. [dimensions] is a whole number. *)
Record ServiceOptions : Type := {
  option_model : option string;
  option_dimensions : option Z;
  option_cache : option InMemoryEmbeddingCache.t;
  option_cacheTtlMs : option Z
}.

Definition new_service (o : ServiceOptions) : EmbeddingService :=
  {| service_cache := match option_cache o with
                      | Some c => c
                      | None => InMemoryEmbeddingCache.create (option_cacheTtlMs o)
                      end;
     model := match option_model o with
              | Some m => if String.eqb m "" then "text-embedding-3-small" else m
              | None => "text-embedding-3-small"
              end;
     dimensions := match option_dimensions o with
                   | Some d => if d =? 0 then SEMANTIC_ROUTING_embeddingDimensions else d
                   | None => SEMANTIC_ROUTING_embeddingDimensions
                   end |}.

(** The 32-bit integer a bitwise operator makes of its result. *)
Definition ToInt32 (z : Z) : Z := (z + 2 ^ 31) mod 2 ^ 32 - 2 ^ 31.

(** [hashString]: the characters of the text are its code units. *)
Definition hashString (str : string) : Z :=
  Z.abs
    (fold_left
       (fun hash c =>
          let char := Z.of_nat (nat_of_ascii c) in
          let hash := ToInt32 (hash * 32) - hash + char in
          ToInt32 hash)
       (list_ascii_of_string str) 0).

(** The polynomial in 31 whose coefficients are the code units of the
    text, the first character having the highest power, on top of [acc]. *)
Definition polynomial31 (acc : Z) (str : string) : Z :=
  fold_left (fun h c => 31 * h + Z.of_nat (nat_of_ascii c)) (list_ascii_of_string str) acc.

Definition newline : string := String (ascii_of_nat 10) EmptyString.

(** [Object.keys(v).length] *)
Definition count_keys (v : JsValue) : nat :=
  match v with
  | JObj props => length props
  | JArr elems => length elems
  | JStr s => String.length s
  | _ => O
  end.

(** [v.reduce((sum, val) => sum + val * val, 0)] *)
Definition sum_squares (v : list Q) : Q :=
  fold_left (fun sum val => (sum + val * val)%Q) v 0%Q.

Section Service.

Context `{Host}.

(** [Math.sin] and [Math.sqrt] on doubles, taken as given. *)
Variable Math_sin : Q -> Q.
Variable Math_sqrt : Q -> Q.

(** One component of the pseudo-random vector. *)
Definition component (seed : Z) (i : nat) : Q :=
  let value :=
    (Math_sin (inject_Z seed + inject_Z (Z.of_nat i) * (129898 # 10000))
     * (437585453 # 10000))%Q in
  (value - inject_Z (Qfloor value))%Q.

(** The vector before it is normalised. *)
Definition raw_embedding (svc : EmbeddingService) (text : string) : list Q :=
  map (component (hashString text)) (seq 0 (Z.to_nat (dimensions svc))).

(** The norm by which [callEmbeddingAPI] divides is zero. *)
Definition zero_norm (svc : EmbeddingService) (text : string) : bool :=
  Qeq_bool (Math_sqrt (sum_squares (raw_embedding svc text))) 0.

(** [callEmbeddingAPI]. Where the norm is zero the code divides 0 by 0 and
    every component of its result is [NaN], which is outside the model:
    there the list below, of zeros since [x / 0] is 0 in [Q], is not the
    code's result. [zero_norm] tells the two cases apart. *)
Definition callEmbeddingAPI (svc : EmbeddingService) (text : string) : list Q :=
  let embedding := raw_embedding svc text in
  let norm := Math_sqrt (sum_squares embedding) in
  map (fun val => (val / norm)%Q) embedding.

Definition generateCacheKey (i : NormalizedIntent) : string :=
  "intent:" ++ category_text (category i) ++ ":" ++ ToString (action i) ++ ":"
  ++ match JSON_stringify (parameters i) with
     | Some s => s
     | None => "undefined"
     end.

Definition intentToText (i : NormalizedIntent) : string :=
  let parts := ["Action: " ++ ToString (action i);
                "Category: " ++ category_text (category i);
                "Target: " ++ ToString (target i)] in
  let parts :=
    if truthy (parameters i) && (0 <? count_keys (parameters i))%nat
    then push parts ("Parameters: " ++ match JSON_stringify (parameters i) with
                                       | Some s => s
                                       | None => "undefined"
                                       end)
    else parts in
  String.concat newline parts.

Definition generateEmbedding (svc : EmbeddingService) (i : NormalizedIntent) : list Q :=
  callEmbeddingAPI svc (intentToText i).

Definition with_cache (c : InMemoryEmbeddingCache.t) (svc : EmbeddingService)
  : EmbeddingService :=
  {| service_cache := c; model := model svc; dimensions := dimensions svc |}.

(** [embedIntent]; [t_get] and [t_set] are the clock readings of the cache. *)
Definition embedIntent (t_get t_set : Z) (i : NormalizedIntent) (svc : EmbeddingService)
  : IntentEmbedding * EmbeddingService :=
  let cacheKey := generateCacheKey i in
  match InMemoryEmbeddingCache.get t_get cacheKey (service_cache svc) with
  | (Some cached, c) =>
    ({| intent := action i; embedding := cached;
        embedding_dimensions := dimensions svc; embedding_model := model svc |},
     with_cache c svc)
  | (None, c) =>
    let emb := generateEmbedding svc i in
    ({| intent := action i; embedding := emb;
        embedding_dimensions := dimensions svc; embedding_model := model svc |},
     with_cache (InMemoryEmbeddingCache.set t_set cacheKey emb c) svc)
  end.

Definition embedToolDescription (t_get t_set : Z) (toolName description : string)
    (svc : EmbeddingService) : IntentEmbedding * EmbeddingService :=
  let cacheKey := "tool:" ++ toolName in
  match InMemoryEmbeddingCache.get t_get cacheKey (service_cache svc) with
  | (Some cached, c) =>
    ({| intent := JStr toolName; embedding := cached;
        embedding_dimensions := dimensions svc; embedding_model := model svc |},
     with_cache c svc)
  | (None, c) =>
    let text := toolName ++ ": " ++ description in
    let emb := callEmbeddingAPI svc text in
    ({| intent := JStr toolName; embedding := emb;
        embedding_dimensions := dimensions svc; embedding_model := model svc |},
     with_cache (InMemoryEmbeddingCache.set t_set cacheKey emb c) svc)
  end.

(** [cosineSimilarity] of packages/shared. Where one of the vectors has the
    norm zero the code divides by zero and returns [NaN] or an infinity,
    which is outside the model; there the quotient below is not the code's
    result. *)
Definition cosineSimilarity (a b : list Q) : completion Q :=
  if negb (length a =? length b)%nat then Throw (Error "Vectors must have same dimensions")
  else
    let dotProduct := fold_left (fun s p => (s + fst p * snd p)%Q) (combine a b) 0%Q in
    let normA := sum_squares a in
    let normB := sum_squares b in
    Normal (dotProduct / (Math_sqrt normA * Math_sqrt normB))%Q.

Definition calculateSimilarity (embedding1 embedding2 : list Q) : completion Q :=
  cosineSimilarity embedding1 embedding2.

(** A call of one of the two embedding methods, with the clock readings of
    the cache, and a sequence of such calls on one service. *)
Inductive ServiceCall : Type :=
| EmbedIntent (t_get t_set : Z) (i : NormalizedIntent)
| EmbedTool (t_get t_set : Z) (toolName description : string).

Definition serve (call : ServiceCall) (svc : EmbeddingService)
  : IntentEmbedding * EmbeddingService :=
  match call with
  | EmbedIntent t_get t_set i => embedIntent t_get t_set i svc
  | EmbedTool t_get t_set toolName description =>
    embedToolDescription t_get t_set toolName description svc
  end.

(** The answers to the calls, in order, and the service they leave. *)
Fixpoint serve_all (calls : list ServiceCall) (svc : EmbeddingService)
  : list IntentEmbedding * EmbeddingService :=
  match calls with
  | [] => ([], svc)
  | call :: rest =>
    let '(answer, svc) := serve call svc in
    let '(answers, svc) := serve_all rest svc in
    (answer :: answers, svc)
  end.

End Service.

(** Every vector in the cache has as many components as the service is
    configured for. *)
Definition cache_dimensions_ok (svc : EmbeddingService) : Prop :=
  map_Forall (fun _ v => length v = Z.to_nat (dimensions svc))
             (InMemoryEmbeddingCache.cache (service_cache svc)).

End Embeddings.

(** ** packages/intent-router: [IntentRouter] *)

Module Router.

Record RouteOptions : Type := {
  opt_maxAlternatives : option Z;
  opt_minConfidence : option Q;
  opt_timeoutMs : option Q;
  opt_useEmbeddings : option bool;
  opt_considerCost : option bool;
  opt_considerLatency : option bool
}.

Definition no_options : RouteOptions :=
  {| opt_maxAlternatives := None; opt_minConfidence := None; opt_timeoutMs := None;
     opt_useEmbeddings := None; opt_considerCost := None; opt_considerLatency := None |}.

Record RouteRequest : Type := {
  request : AgentRequest;
  route_availableTools : list ToolDefinition;
  options : RouteOptions
}.

Record RouteError : Type := {
  code : string;
  message : string;
  suggestion : option string
}.

Record ToolMatch : Type := {
  tool : ToolDefinition;
  score : Q;
  confidence : Q;
  reasoning : string;
  embedding : list Q
}.

Record Performance : Type := {
  embeddingTimeMs : Z;
  matchingTimeMs : Z;
  totalLatencyMs : Z
}.

Record RouteResult : Type := {
  success : bool;
  decision : option RoutingDecision;
  error : option RouteError;
  performance : Performance;
  alternatives : list ToolMatch
}.

Record RouterConfig : Type := {
  embeddingModel : string;
  embeddingDimensions : Z;
  similarityThreshold : Q;
  minConfidence : Q;
  maxAlternatives : Z;
  cacheEmbeddings : bool;
  cacheTtlMs : Z;
  enableCostOptimization : bool;
  enableLatencyOptimization : bool
}.

(** The configuration the constructor builds when no override is given. *)
Definition default_config : RouterConfig :=
  {| embeddingModel := "text-embedding-3-small";
     embeddingDimensions := SEMANTIC_ROUTING_embeddingDimensions;
     similarityThreshold := SEMANTIC_ROUTING_similarityThreshold;
     minConfidence := SEMANTIC_ROUTING_minConfidence;
     maxAlternatives := SEMANTIC_ROUTING_maxAlternatives;
     cacheEmbeddings := true;
     cacheTtlMs := 300000;
     enableCostOptimization := true;
     enableLatencyOptimization := true |}.

(** The readings of [now()] taken by one call of [route], in program order. *)
Record RouteClock : Type := {
  startTime : Z;
  embeddingStart : Z;
  embeddingEnd : Z;
  matchingStart : Z;
  matchingEnd : Z;
  endTime : Z
}.

(** [a || b] on numbers: [a] unless it is absent or zero. *)
Definition or_num (a : option Q) (b : Q) : Q :=
  match a with
  | Some q => if Qeq_bool q 0 then b else q
  | None => b
  end.

Definition or_int (a : option Z) (b : Z) : Z :=
  match a with
  | Some z => if z =? 0 then b else z
  | None => b
  end.

(** A number used as a condition: present and not zero. *)
Definition truthy_num (a : option Q) : bool :=
  match a with
  | Some q => negb (Qeq_bool q 0)
  | None => false
  end.

Section IntentRouter.

Context `{Host}.
Variable config : RouterConfig.

(** What the embedding service answers inside the loop of [matchTools] for
    the tool visited at position [i]: the tool's embedding and its cosine
    similarity to the intent embedding, or the exception it raises. Both are
    floating-point computations and depend on the cache, hence on the
    position. The router is first defined for arbitrary answers;
    [service_answers] below are the answers of the service of the
    repository. *)
Variable toolSimilarity : nat -> ToolDefinition -> completion (list Q * Q).

(** [calculateConfidence]. The divisors [1 + min / 100] and
    [1 + latencyEstimate / 1000] are at least 1 for estimates that are not
    negative. For an estimate that makes a divisor 0 the code computes
    [1 / 0], an infinity, and from it a confidence of 1, of 0 or [NaN]; these
    are outside the model, where [1 / 0] is 0, so for such estimates the
    function below is not the code's. *)
Definition calculateConfidence (similarity : Q) (tool : ToolDefinition) : Q :=
  let confidence := similarity in
  let confidence :=
    match costEstimate tool with
    | Some cost =>
      if enableCostOptimization config then
        let costFactor := (1 / (1 + cost_min cost / 100))%Q in
        (confidence * ((9 # 10) + (1 # 10) * costFactor))%Q
      else confidence
    | None => confidence
    end in
  let confidence :=
    match latencyEstimate tool with
    | Some latency =>
      if enableLatencyOptimization config && truthy_num (Some latency) then
        let latencyFactor := (1 / (1 + latency / 1000))%Q in
        (confidence * ((9 # 10) + (1 # 10) * latencyFactor))%Q
      else confidence
    | None => confidence
    end in
  clamp confidence 0 1.

Definition generateReasoning (tool : ToolDefinition) (similarity confidence : Q) : string :=
  let reasons := ["Semantic similarity: " ++ toFixed 1 (Number_times similarity 100) ++ "%"] in
  let reasons :=
    match costEstimate tool with
    | Some cost => push reasons ("Cost: $" ++ toFixed 2 (Number_divide (cost_min cost) 100))
    | None => reasons
    end in
  let reasons :=
    match latencyEstimate tool with
    | Some latency =>
      if truthy_num (Some latency)
      then push reasons ("Latency: ~" ++ Number_toString latency ++ "ms")
      else reasons
    | None => reasons
    end in
  let reasons :=
    if Qltb confidence similarity
    then push reasons "Adjusted for cost/latency optimization"
    else reasons in
  String.concat "; " reasons.

(** The loop of [matchTools], from position [i] on. *)
Fixpoint matchTools_from (i : nat) (tools : list ToolDefinition)
  : completion (list ToolMatch) :=
  match tools with
  | [] => Normal []
  | tool :: rest =>
    bind (toolSimilarity i tool) (fun answer =>
      let toolEmbedding := fst answer in
      let similarity := snd answer in
      let confidence := calculateConfidence similarity tool in
      bind (matchTools_from (S i) rest) (fun matches =>
        Normal
          (if Qle_bool (similarityThreshold config) similarity
           then {| tool := tool;
                   score := similarity;
                   confidence := confidence;
                   reasoning := generateReasoning tool similarity confidence;
                   embedding := toolEmbedding |} :: matches
           else matches)))
  end.

Definition matchTools (tools : list ToolDefinition) : completion (list ToolMatch) :=
  matchTools_from 0 tools.

(** The candidates of a catalog, as the specification calls them: the
    tools that the embedding service places at or above the similarity
    threshold, each with its position, in the order of the catalog. This is
    not a function of the code; [matchTools] is compared with it. *)
Definition reaches_threshold (p : nat * ToolDefinition) : bool :=
  match toolSimilarity (fst p) (snd p) with
  | Normal answer => Qle_bool (similarityThreshold config) (snd answer)
  | Throw _ => false
  end.

Definition candidates_from (i : nat) (tools : list ToolDefinition)
  : list (nat * ToolDefinition) :=
  List.filter reaches_threshold (combine (seq i (length tools)) tools).

Definition candidates (tools : list ToolDefinition) : list (nat * ToolDefinition) :=
  candidates_from 0 tools.

(** A match record is the one of the tool at a position of the catalog:
    it carries that tool and what the embedding service answered for it. *)
Definition match_of (m : ToolMatch) (p : nat * ToolDefinition) : Prop :=
  tool m = snd p /\
  toolSimilarity (fst p) (snd p) = Normal (embedding m, score m).

Definition effective_minConfidence (opts : RouteOptions) : Q :=
  or_num (opt_minConfidence opts) (minConfidence config).

Definition effective_maxAlternatives (opts : RouteOptions) : Z :=
  or_int (opt_maxAlternatives opts) (maxAlternatives config).

Definition routing_error (clock : RouteClock) (e : JsError) : RouteResult :=
  {| success := false;
     decision := None;
     error := Some {| code := "ROUTING_ERROR";
                      message := error_message e;
                      suggestion := None |};
     performance := {| embeddingTimeMs := 0;
                       matchingTimeMs := 0;
                       totalLatencyMs := endTime clock - startTime clock |};
     alternatives := [] |}.

(** [route] from the return of [matchTools] on; [Throw] is an exception
    raised in the [try] block, which the [catch] block turns into a
    ROUTING_ERROR. *)
Definition route_result (clock : RouteClock) (req : RouteRequest)
    (matched : completion (list ToolMatch)) : RouteResult :=
  let agentRequest := request req in
  let opts := options req in
  let embeddingTime := embeddingEnd clock - embeddingStart clock in
  match matched with
  | Throw e => routing_error clock e
  | Normal matches =>
    let matchingTime := matchingEnd clock - matchingStart clock in
    let validMatches :=
      List.filter (fun m => Qle_bool (effective_minConfidence opts) (confidence m)) matches in
    let perf := {| embeddingTimeMs := embeddingTime;
                   matchingTimeMs := matchingTime;
                   totalLatencyMs := endTime clock - startTime clock |} in
    if (length validMatches =? 0)%nat then
      {| success := false;
         decision := None;
         error := Some {| code := "NO_MATCH";
                          message := "No tools matched the intent with sufficient confidence";
                          suggestion := Some "Try rephrasing the request or adding more tools" |};
         performance := perf;
         alternatives := slice 0 3 matches |}
    else
      let sorted := sort (fun a b => (score b - score a)%Q) validMatches in
      match sorted with
      | [] =>
        routing_error clock (TypeError "Cannot read properties of undefined (reading 'tool')")
      | bestMatch :: _ =>
        let fallbackTools :=
          map tool (slice 1 (effective_maxAlternatives opts + 1) sorted) in
        let d :=
          {| requestId := request_id agentRequest;
             selectedTool := tool bestMatch;
             decision_confidence := confidence bestMatch;
             decision_reasoning := reasoning bestMatch;
             fallbackTools := fallbackTools;
             estimatedLatency := or_num (latencyEstimate (tool bestMatch)) 100;
             estimatedCost := or_num (option_map cost_min (costEstimate (tool bestMatch))) 0;
             requiresApproval := Qltb (confidence bestMatch) (8 # 10);
             approvalReason :=
               if Qltb (confidence bestMatch) (8 # 10)
               then Some ("Low confidence (" ++ toFixed 1 (Number_times (confidence bestMatch) 100) ++ "%)")
               else None |} in
        {| success := true;
           decision := Some d;
           error := None;
           performance := perf;
           alternatives := slice_from 1 sorted |}
      end
  end.

(** [route], for the answers [toolSimilarity] of the embedding service. *)
Definition route (clock : RouteClock) (req : RouteRequest) : RouteResult :=
  route_result clock req (matchTools (route_availableTools req)).

End IntentRouter.

(** The router on top of the embedding service of the repository: the
    cache is threaded through the loop, and what the service answers at a
    position is computed from the cache the earlier positions left. *)
Section WithEmbeddingService.

Context `{Host}.
Variable config : RouterConfig.
Variable Math_sin : Q -> Q.
Variable Math_sqrt : Q -> Q.

(** The readings of the clock in the cache for the tool at position [i]:
    one in [get] and, on a miss, one in [set]. *)
Variable cacheClock : nat -> Z * Z.

Definition embedTool (i : nat) (t : ToolDefinition) (svc : Embeddings.EmbeddingService)
  : Embeddings.IntentEmbedding * Embeddings.EmbeddingService :=
  Embeddings.embedToolDescription Math_sin Math_sqrt (fst (cacheClock i)) (snd (cacheClock i))
    (tool_name t) (tool_description t) svc.

(** [matchTools] with the service it calls; the second component is the
    service when the loop ends or is left by an exception. *)
Fixpoint matchTools_service (i : nat) (intentEmbedding : list Q)
    (tools : list ToolDefinition) (svc : Embeddings.EmbeddingService)
  : completion (list ToolMatch) * Embeddings.EmbeddingService :=
  match tools with
  | [] => (Normal [], svc)
  | t :: rest =>
    let '(toolEmbedding, svc) := embedTool i t svc in
    match Embeddings.calculateSimilarity Math_sqrt intentEmbedding (Embeddings.embedding toolEmbedding) with
    | Throw e => (Throw e, svc)
    | Normal similarity =>
      let confidence := calculateConfidence config similarity t in
      let '(later, svc) := matchTools_service (S i) intentEmbedding rest svc in
      (bind later (fun matches =>
         Normal
           (if Qle_bool (similarityThreshold config) similarity
            then {| tool := t;
                    score := similarity;
                    confidence := confidence;
                    reasoning := generateReasoning t similarity confidence;
                    embedding := Embeddings.embedding toolEmbedding |} :: matches
            else matches)),
       svc)
    end
  end.

(** The service when the loop that started at position [i] with the
    service [svc] reaches position [i + k]. *)
Fixpoint service_at (i : nat) (tools : list ToolDefinition) (svc : Embeddings.EmbeddingService)
    (k : nat) : Embeddings.EmbeddingService :=
  match k, tools with
  | S k', t :: rest => service_at (S i) rest (snd (embedTool i t svc)) k'
  | _, _ => svc
  end.

(** What the service answers at position [i] of a loop over [tools]. *)
Definition service_answers (intentEmbedding : list Q) (tools : list ToolDefinition)
    (svc : Embeddings.EmbeddingService) (i : nat) (t : ToolDefinition) : completion (list Q * Q) :=
  let toolEmbedding := fst (embedTool i t (service_at 0 tools svc i)) in
  bind (Embeddings.calculateSimilarity Math_sqrt intentEmbedding (Embeddings.embedding toolEmbedding))
       (fun similarity => Normal (Embeddings.embedding toolEmbedding, similarity)).

(** [route] with the service it calls. [intentClock] holds the readings of
    the clock in the cache for the intent. A request without an intent
    makes [embedIntent] throw. *)
Definition route_service (intentClock : Z * Z) (clock : RouteClock) (req : RouteRequest)
    (svc : Embeddings.EmbeddingService) : RouteResult * Embeddings.EmbeddingService :=
  match normalizedIntent (request req) with
  | None =>
    (routing_error clock
       (TypeError "Cannot read properties of undefined (reading 'category')"), svc)
  | Some i =>
    let '(intentEmbedding, svc) :=
      Embeddings.embedIntent Math_sin Math_sqrt (fst intentClock) (snd intentClock) i svc in
    let '(matched, svc) :=
      matchTools_service 0 (Embeddings.embedding intentEmbedding)
        (route_availableTools req) svc in
    (route_result config clock req matched, svc)
  end.

End WithEmbeddingService.

End Router.

(** ** packages/sandbox-runtime: [SandboxRuntime] *)

Module Sandbox.

Record ResourceLimits : Type := {
  cpu : string;
  memory : string;
  disk : string;
  network : bool
}.

Record NetworkPolicy : Type := {
  egress : bool;
  allowedHosts : list string;
  allowedPorts : list Z
}.

Record SandboxConfig : Type := {
  config_id : string;
  image : string;
  resources : ResourceLimits;
  networkPolicy : NetworkPolicy;
  allowedTools : list string;
  timeoutMs : Z;
  envVars : list (string * string)
}.

Inductive Status : Type := creating | ready | running | destroyed.

Definition Status_eqb (a b : Status) : bool :=
  match a, b with
  | creating, creating | ready, ready | running, running | destroyed, destroyed => true
  | _, _ => false
  end.

Record Sandbox : Type := {
  id : string;
  config : SandboxConfig;
  status : Status;
  createdAt : Z;
  lastUsedAt : Z;
  executionCount : Z
}.

Definition set_status (s : Status) (sb : Sandbox) : Sandbox :=
  {| id := id sb; config := config sb; status := s; createdAt := createdAt sb;
     lastUsedAt := lastUsedAt sb; executionCount := executionCount sb |}.

Record ExecutionError : Type := {
  error_code : string;
  error_message : string
}.

Record ExecutionMetrics : Type := {
  coldStartMs : Z;
  executionMs : Z;
  totalMs : Z;
  memoryPeakMb : Z;
  cpuPercent : Z
}.

Record ExecutionResult : Type := {
  success : bool;
  output : option JsValue;
  error : option ExecutionError;
  metrics_of : ExecutionMetrics
}.

Record SandboxMetrics : Type := {
  totalSandboxes : Z;
  activeSandboxes : Z;
  averageColdStartMs : Q;
  poolHitRate : Q;
  resourceUtilization : Q
}.

Record SandboxPoolConfig : Type := {
  minInstances : Z;
  maxInstances : Z;
  idleTimeoutMs : Z;
  warmupIntervalMs : Z
}.

Definition default_pool_config : SandboxPoolConfig :=
  {| minInstances := 2; maxInstances := 100; idleTimeoutMs := 300000;
     warmupIntervalMs := 60000 |}.

(** A call that is suspended at an [await]. [execute] waits first for
    [createSandbox] (on a pool miss) and then for [runInSandbox]; the
    maintenance loop starts [createSandbox] calls it does not wait for. *)
Inductive Task : Type :=
| CreatingForExecute (tool : ToolDefinition) (args : JsValue) (timeout : Z)
    (startTime coldStartBegin : Z) (cfg : SandboxConfig) (createStart : Z)
| RunningTool (sandbox : Sandbox) (tool : ToolDefinition) (args : JsValue)
    (startTime coldStart execStart : Z)
| CreatingForPool (cfg : SandboxConfig) (createStart : Z).

(** The fields of the runtime. The registry [sandboxes] is a map from ids to
    sandbox objects that the code only writes and deletes from: its key set
    is kept. A sandbox object is referenced by the pool or by the one call
    that holds it, never by both, so the pool and the tasks carry the
    objects themselves. [destroyedLog] lists the objects [destroySandbox] was
    called on, the latest first; the code keeps no such record. *)
Record SandboxRuntime : Type := {
  sandboxes : gset string;
  pool : list Sandbox;
  poolConfig : SandboxPoolConfig;
  metrics : SandboxMetrics;
  pending : list Task;
  destroyedLog : list Sandbox
}.

Definition new_runtime (cfg : SandboxPoolConfig) : SandboxRuntime :=
  {| sandboxes := ∅;
     pool := [];
     poolConfig := cfg;
     metrics := {| totalSandboxes := 0; activeSandboxes := 0; averageColdStartMs := 0;
                   poolHitRate := 0; resourceUtilization := 0 |};
     pending := [];
     destroyedLog := [] |}.

Definition with_pool (p : list Sandbox) (rt : SandboxRuntime) : SandboxRuntime :=
  {| sandboxes := sandboxes rt; pool := p; poolConfig := poolConfig rt;
     metrics := metrics rt; pending := pending rt; destroyedLog := destroyedLog rt |}.

Definition with_pending (ts : list Task) (rt : SandboxRuntime) : SandboxRuntime :=
  {| sandboxes := sandboxes rt; pool := pool rt; poolConfig := poolConfig rt;
     metrics := metrics rt; pending := ts; destroyedLog := destroyedLog rt |}.

Definition with_poolHitRate (r : Q) (rt : SandboxRuntime) : SandboxRuntime :=
  {| sandboxes := sandboxes rt; pool := pool rt; poolConfig := poolConfig rt;
     metrics := {| totalSandboxes := totalSandboxes (metrics rt);
                   activeSandboxes := activeSandboxes (metrics rt);
                   averageColdStartMs := averageColdStartMs (metrics rt);
                   poolHitRate := r;
                   resourceUtilization := resourceUtilization (metrics rt) |};
     pending := pending rt; destroyedLog := destroyedLog rt |}.

(** [destroySandbox]: the object is marked destroyed, leaves the registry
    and the active counter goes down. *)
Definition destroySandbox (sb : Sandbox) (rt : SandboxRuntime) : SandboxRuntime :=
  {| sandboxes := sandboxes rt ∖ {[ id sb ]};
     pool := pool rt;
     poolConfig := poolConfig rt;
     metrics := {| totalSandboxes := totalSandboxes (metrics rt);
                   activeSandboxes := activeSandboxes (metrics rt) - 1;
                   averageColdStartMs := averageColdStartMs (metrics rt);
                   poolHitRate := poolHitRate (metrics rt);
                   resourceUtilization := resourceUtilization (metrics rt) |};
     pending := pending rt;
     destroyedLog := set_status destroyed sb :: destroyedLog rt |}.

(** [getFromPool]: the least recently used ready sandbox leaves the pool. *)
Definition getFromPool (rt : SandboxRuntime) : option Sandbox * SandboxRuntime :=
  let available :=
    sort (fun a b => inject_Z (lastUsedAt a - lastUsedAt b))
      (List.filter (fun s => Status_eqb (status s) ready) (pool rt)) in
  match available with
  | sandbox :: _ =>
    (Some (set_status running sandbox),
     with_pool (List.filter (fun s => negb (String.eqb (id s) (id sandbox))) (pool rt)) rt)
  | [] => (None, rt)
  end.

(** [this.pool.shift()] *)
Definition pool_shift (rt : SandboxRuntime) : option Sandbox * SandboxRuntime :=
  match pool rt with
  | first :: rest => (Some first, with_pool rest rt)
  | [] => (None, rt)
  end.

(** [returnToPool]: [pool.shift()] when the pool is full, then [push]. *)
Definition returnToPool (sandbox : Sandbox) (rt : SandboxRuntime) : SandboxRuntime :=
  let rt :=
    if Z.of_nat (length (pool rt)) >=? maxInstances (poolConfig rt) then
      match pool_shift rt with
      | (Some oldest, rt) => destroySandbox oldest rt
      | (None, rt) => rt
      end
    else rt in
  with_pool (push (pool rt) (set_status ready sandbox)) rt.

(** [createSandbox] after its [await sleep(100)]: the object is built,
    registered and counted. *)
Definition createSandbox_resume (cfg : SandboxConfig) (startTime : Z) (rt : SandboxRuntime)
  : Sandbox * SandboxRuntime :=
  let sandbox :=
    {| id := config_id cfg; config := cfg; status := ready; createdAt := startTime;
       lastUsedAt := startTime; executionCount := 0 |} in
  (sandbox,
   {| sandboxes := sandboxes rt ∪ {[ id sandbox ]};
      pool := pool rt;
      poolConfig := poolConfig rt;
      metrics := {| totalSandboxes := totalSandboxes (metrics rt) + 1;
                    activeSandboxes := activeSandboxes (metrics rt) + 1;
                    averageColdStartMs := averageColdStartMs (metrics rt);
                    poolHitRate := poolHitRate (metrics rt);
                    resourceUtilization := resourceUtilization (metrics rt) |};
      pending := pending rt;
      destroyedLog := destroyedLog rt |}).

Definition calculatePoolHitRate (hit : bool) (rt : SandboxRuntime) : Q :=
  let current := poolHitRate (metrics rt) in
  (current * (9 # 10) + (if hit then 1 else 0) * (1 # 10))%Q.

Definition tool_config (tool : ToolDefinition) (fresh_id : string) (timeout : Z)
  : SandboxConfig :=
  {| config_id := fresh_id;
     image := "tool-" ++ tool_id tool;
     resources := {| cpu := "0.5"; memory := "256Mi"; disk := "1Gi"; network := true |};
     networkPolicy := {| egress := true; allowedHosts := ["*"]; allowedPorts := [80; 443] |};
     allowedTools := [tool_id tool];
     timeoutMs := timeout;
     envVars := [] |}.

Definition generic_config (fresh_id : string) : SandboxConfig :=
  {| config_id := fresh_id;
     image := "generic-runtime";
     resources := {| cpu := "0.1"; memory := "64Mi"; disk := "100Mi"; network := false |};
     networkPolicy := {| egress := false; allowedHosts := []; allowedPorts := [] |};
     allowedTools := [];
     timeoutMs := 30000;
     envVars := [] |}.

(** [execute] up to its first [await]. [t_start] is [startTime]; on a pool
    hit [t_next] is [execStart], on a miss it is [coldStartBegin] and
    [t_create] the [startTime] of [createSandbox]. Neither [createSandbox]
    nor [runInSandbox] has a statement that throws, so the [catch] block of
    [execute] is never entered. *)
Definition execute_begin (tool : ToolDefinition) (args : JsValue) (timeout : Z)
    (t_start t_next t_create : Z) (fresh_id : string) (rt : SandboxRuntime) : SandboxRuntime :=
  match getFromPool rt with
  | (Some sandbox, rt) =>
    let rt := with_poolHitRate (calculatePoolHitRate true rt) rt in
    with_pending (push (pending rt) (RunningTool sandbox tool args t_start 0 t_next)) rt
  | (None, rt) =>
    with_pending
      (push (pending rt)
         (CreatingForExecute tool args timeout t_start t_next
            (tool_config tool fresh_id timeout) t_create)) rt
  end.

(** [execute] from the return of [createSandbox] to [await runInSandbox]. *)
Definition execute_created (tool : ToolDefinition) (args : JsValue) (timeout : Z)
    (startTime coldStartBegin : Z) (cfg : SandboxConfig) (createStart : Z)
    (t_created t_execStart : Z) (rt : SandboxRuntime) : SandboxRuntime :=
  let '(sandbox, rt) := createSandbox_resume cfg createStart rt in
  let coldStart := t_created - coldStartBegin in
  with_pending (push (pending rt) (RunningTool sandbox tool args startTime coldStart t_execStart)) rt.

Definition with_usage (t : Z) (sb : Sandbox) : Sandbox :=
  {| id := id sb; config := config sb; status := status sb; createdAt := createdAt sb;
     lastUsedAt := t; executionCount := executionCount sb + 1 |}.

(** [execute] from the return of [runInSandbox] to its own return. *)
Definition execute_finish (sandbox : Sandbox) (tool : ToolDefinition) (args : JsValue)
    (startTime coldStart execStart : Z) (t_output t_execEnd t_used t_total : Z) (rt : SandboxRuntime)
  : ExecutionResult * SandboxRuntime :=
  let sandbox := with_usage t_used sandbox in
  let rt := returnToPool sandbox rt in
  ({| success := true;
      output := Some (JObj [("tool", JStr (tool_name tool)); ("args", args);
                            ("result", JStr "success"); ("timestamp", JNum (inject_Z t_output))]);
      error := None;
      metrics_of := {| coldStartMs := coldStart;
                       executionMs := t_execEnd - execStart;
                       totalMs := t_total - startTime;
                       memoryPeakMb := 128;
                       cpuPercent := 25 |} |},
   rt).

(** The filter of [maintainPool]: an idle sandbox is destroyed and dropped. *)
Fixpoint reap (nowTime : Z) (p : list Sandbox) (rt : SandboxRuntime) : list Sandbox * SandboxRuntime :=
  match p with
  | [] => ([], rt)
  | sandbox :: rest =>
    let idleTime := nowTime - lastUsedAt sandbox in
    if idleTime >? idleTimeoutMs (poolConfig rt) then
      reap nowTime rest (destroySandbox sandbox rt)
    else
      let '(kept, rt) := reap nowTime rest rt in
      (sandbox :: kept, rt)
  end.

(** The [createSandbox] calls the warm-up loop starts; call [i] draws the id
    [fresh i] and reads the clock at [starts i]. *)
Fixpoint warm_tasks (i : nat) (needed : nat) (fresh : nat -> string) (starts : nat -> Z)
  : list Task :=
  match needed with
  | O => []
  | S n => CreatingForPool (generic_config (fresh i)) (starts i)
             :: warm_tasks (S i) n fresh starts
  end.

Definition maintainPool (nowTime : Z) (fresh : nat -> string) (starts : nat -> Z)
    (rt : SandboxRuntime) : SandboxRuntime :=
  let '(kept, rt) := reap nowTime (pool rt) rt in
  let rt := with_pool kept rt in
  let needed := minInstances (poolConfig rt) - Z.of_nat (length (pool rt)) in
  if needed >? 0 then
    with_pending (app (pending rt) (warm_tasks 0 (Z.to_nat needed) fresh starts)) rt
  else rt.

(** The continuation [.then(sandbox => this.returnToPool(sandbox))]. *)
Definition warm_created (cfg : SandboxConfig) (createStart : Z) (rt : SandboxRuntime) : SandboxRuntime :=
  let '(sandbox, rt) := createSandbox_resume cfg createStart rt in
  returnToPool sandbox rt.

(** What can happen to a runtime: a call of [execute], a tick of the
    maintenance timer, or the resumption of a suspended call. *)
Inductive Event : Type :=
| Execute (tool : ToolDefinition) (args : JsValue) (timeout : Z)
    (t_start t_next t_create : Z) (fresh_id : string)
| Maintain (nowTime : Z) (fresh : nat -> string) (starts : nat -> Z)
| Resume (i : nat) (t1 t2 t3 t4 : Z).

Definition remove_nth {A : Type} (i : nat) (l : list A) : list A :=
  app (firstn i l) (skipn (S i) l).

(** [Resume i] continues the [i]-th suspended call; the clock readings it
    takes, in program order, are [t1] to [t4]. *)
Definition step (rt : SandboxRuntime) (ev : Event) : SandboxRuntime :=
  match ev with
  | Execute tool args timeout t_start t_next t_create fresh_id =>
    execute_begin tool args timeout t_start t_next t_create fresh_id rt
  | Maintain nowTime fresh starts => maintainPool nowTime fresh starts rt
  | Resume i t1 t2 t3 t4 =>
    match nth_error (pending rt) i with
    | None => rt
    | Some task =>
      let rt := with_pending (remove_nth i (pending rt)) rt in
      match task with
      | CreatingForExecute tool args timeout startTime coldStartBegin cfg createStart =>
        execute_created tool args timeout startTime coldStartBegin cfg createStart t1 t2 rt
      | RunningTool sandbox tool args startTime coldStart execStart =>
        snd (execute_finish sandbox tool args startTime coldStart execStart t1 t2 t3 t4 rt)
      | CreatingForPool cfg createStart => warm_created cfg createStart rt
      end
    end
  end.

Definition run (rt : SandboxRuntime) (evs : list Event) : SandboxRuntime := fold_left step evs rt.

(** The sandbox objects an event puts into the pool, as they are when they
    enter it: [returnToPool] is called where [execute] ends and where a
    warm-up creation completes, and nowhere else. *)
Definition entering (rt : SandboxRuntime) (ev : Event) : list Sandbox :=
  match ev with
  | Resume i t1 t2 t3 t4 =>
    match nth_error (pending rt) i with
    | Some (RunningTool sandbox _ _ _ _ _) => [set_status ready (with_usage t3 sandbox)]
    | Some (CreatingForPool cfg createStart) =>
      [set_status ready (fst (createSandbox_resume cfg createStart rt))]
    | _ => []
    end
  | _ => []
  end.

(** The entries into the pool during a sequence of events, the earliest
    first. The code keeps no such record. *)
Fixpoint entries (rt : SandboxRuntime) (evs : list Event) : list Sandbox :=
  match evs with
  | [] => []
  | ev :: rest => app (entering rt ev) (entries (step rt ev) rest)
  end.

(** The sandboxes held by suspended calls of [execute]. *)
Definition held (rt : SandboxRuntime) : list Sandbox :=
  flat_map (fun t => match t with
                     | RunningTool sandbox _ _ _ _ _ => [sandbox]
                     | _ => []
                     end) (pending rt).

(** The number of sandbox objects the runtime still refers to: those in
    the pool and those held by a suspended [execute]. *)
Definition live (rt : SandboxRuntime) : Z :=
  Z.of_nat (length (pool rt)) + Z.of_nat (length (held rt)).

Definition destroyedCount (rt : SandboxRuntime) : Z := Z.of_nat (length (destroyedLog rt)).

(** The counters agree with the history, and every live sandbox is counted
    as active. *)
Definition counters_ok (rt : SandboxRuntime) : Prop :=
  activeSandboxes (metrics rt) = totalSandboxes (metrics rt) - destroyedCount rt /\
  live rt <= activeSandboxes (metrics rt).

(** The pool lists its sandboxes by non-decreasing last-used time. *)
Inductive ascending_by_last_use : list Sandbox -> Prop :=
| ascending_nil : ascending_by_last_use []
| ascending_cons x l :
    Forall (fun y => lastUsedAt x <= lastUsedAt y) l ->
    ascending_by_last_use l -> ascending_by_last_use (x :: l).

(** The clock does not run backwards between the moments at which calls
    of [execute] stamp their sandbox: [t3] is [sandbox.lastUsedAt = now()]. *)
Fixpoint stamps_ascend (last : Z) (evs : list Event) : Prop :=
  match evs with
  | [] => True
  | Resume _ _ _ t3 _ :: rest => last <= t3 /\ stamps_ascend t3 rest
  | _ :: rest => stamps_ascend last rest
  end.

(** The pool is in the order of use, nothing in it was used after [last],
    and the pool is not kept warm. *)
Definition pool_in_use_order (last : Z) (rt : SandboxRuntime) : Prop :=
  ascending_by_last_use (pool rt) /\
  Forall (fun s => lastUsedAt s <= last) (pool rt) /\
  Forall (fun t => match t with
                   | CreatingForPool _ _ => False
                   | _ => True
                   end) (pending rt) /\
  minInstances (poolConfig rt) <= 0.

End Sandbox.

(** ** packages/audit-interface/src/stream: [AuditStream] *)

Module Stream.

Record AuditStreamConfig : Type := {
  bufferSize : Z;
  flushIntervalMs : Z;
  retentionDays : Z;
  compressionEnabled : bool
}.

Definition default_stream_config : AuditStreamConfig :=
  {| bufferSize := 100; flushIntervalMs := 5000; retentionDays := 30;
     compressionEnabled := true |}.

Record AuditFilter : Type := {
  filter_startTime : option Z;
  filter_endTime : option Z;
  filter_eventTypes : option (list string);
  filter_severity : option (list string);
  filter_actor : option string;
  filter_traceId : option string
}.

(** A subscribed function: its identity, and the batches on which a call
    of it throws. A handler observes the batch; it does not call back into
    the stream. *)
Record Handler : Type := {
  handler_id : nat;
  handler_throws : list AuditEntry -> bool
}.

(** [handlers] is the [Set] of subscribed functions in insertion order. *)
Record AuditStream : Type := {
  buffer : list AuditEntry;
  stream_config : AuditStreamConfig;
  handlers : list Handler
}.

Definition new_stream (cfg : AuditStreamConfig) : AuditStream :=
  {| buffer := []; stream_config := cfg; handlers := [] |}.

(** What a flush does to the world outside the stream. *)
Inductive Effect : Type :=
| Called (h : nat) (batch : list AuditEntry)
| LoggedHandlerError (h : nat)
| Persisted (batch : list AuditEntry).

Definition with_buffer (b : list AuditEntry) (s : AuditStream) : AuditStream :=
  {| buffer := b; stream_config := stream_config s; handlers := handlers s |}.

(** The loop over the handlers: each call sits in its own [try]. *)
Definition notify (entries : list AuditEntry) (hs : list Handler) : list Effect :=
  flat_map (fun h => Called (handler_id h) entries
                       :: (if handler_throws h entries
                           then [LoggedHandlerError (handler_id h)] else []))
           hs.

Definition flush (s : AuditStream) : AuditStream * list Effect :=
  if (length (buffer s) =? 0)%nat then (s, [])
  else
    let entries := buffer s in
    let s := with_buffer [] s in
    (s, app (notify entries (handlers s)) [Persisted entries]).

Definition write (entry : AuditEntry) (s : AuditStream) : AuditStream * list Effect :=
  let s := with_buffer (push (buffer s) entry) s in
  if Z.of_nat (length (buffer s)) >=? bufferSize (stream_config s) then flush s
  else (s, []).

Definition writeBatch (entries : list AuditEntry) (s : AuditStream)
  : AuditStream * list Effect :=
  let s := with_buffer (app (buffer s) entries) s in
  if Z.of_nat (length (buffer s)) >=? bufferSize (stream_config s) then flush s
  else (s, []).

(** [subscribe]: adding a function the set already holds changes nothing. *)
Definition subscribe (h : Handler) (s : AuditStream) : AuditStream :=
  if existsb (fun h' => Nat.eqb (handler_id h') (handler_id h)) (handlers s) then s
  else {| buffer := buffer s; stream_config := stream_config s;
          handlers := push (handlers s) h |}.

(** The function [subscribe] returns. *)
Definition unsubscribe (h : Handler) (s : AuditStream) : AuditStream :=
  {| buffer := buffer s; stream_config := stream_config s;
     handlers := List.filter (fun h' => negb (Nat.eqb (handler_id h') (handler_id h)))
                   (handlers s) |}.

Definition matchesFilter (entry : AuditEntry) (f : AuditFilter) : bool :=
  if match filter_startTime f with
     | Some t => negb (t =? 0) && (entry_timestamp entry <? t)
     | None => false
     end then false
  else if match filter_endTime f with
          | Some t => negb (t =? 0) && (entry_timestamp entry >? t)
          | None => false
          end then false
  else if match filter_eventTypes f with
          | Some ts => negb (existsb (String.eqb (AuditEventType_name (eventType entry))) ts)
          | None => false
          end then false
  else if match filter_severity f with
          | Some ss => negb (existsb (String.eqb (Severity_name (severity entry))) ss)
          | None => false
          end then false
  else if match filter_actor f with
          | Some a => negb (String.eqb a "") && negb (String.eqb (actor entry) a)
          | None => false
          end then false
  else if match filter_traceId f with
          | Some t => negb (String.eqb t "") && negb (String.eqb (entry_traceId entry) t)
          | None => false
          end then false
  else true.

Definition query (f : AuditFilter) (s : AuditStream) : list AuditEntry :=
  List.filter (fun entry => matchesFilter entry f) (buffer s).

(** [stop]: the timer is cleared and the buffer flushed. *)
Definition stop (s : AuditStream) : AuditStream * list Effect := flush s.

(** The batches a log shows handler [h] was called with, and the batches it
    shows were handed to the sink. *)
Definition calls_of (h : nat) (log : list Effect) : list (list AuditEntry) :=
  flat_map (fun ef => match ef with
                      | Called h' batch => if Nat.eqb h' h then [batch] else []
                      | _ => []
                      end) log.

Definition persisted (log : list Effect) : list (list AuditEntry) :=
  flat_map (fun ef => match ef with
                      | Persisted batch => [batch]
                      | _ => []
                      end) log.

(** What can happen to a stream: a call of one of its methods, of the
    function [subscribe] returned, or the flush timer firing. [stop] clears
    the timer; sequences with a [Tick] after a [Stop] are more than the
    code can do. *)
Inductive Op : Type :=
| Write (entry : AuditEntry)
| WriteBatch (entries : list AuditEntry)
| Subscribe (h : Handler)
| Unsubscribe (h : Handler)
| Tick
| Stop.

Definition apply_op (op : Op) (s : AuditStream) : AuditStream * list Effect :=
  match op with
  | Write entry => write entry s
  | WriteBatch entries => writeBatch entries s
  | Subscribe h => (subscribe h s, [])
  | Unsubscribe h => (unsubscribe h s, [])
  | Tick => flush s
  | Stop => stop s
  end.

(** The stream after the operations and everything they did to the world
    outside, in order. *)
Fixpoint run_ops (ops : list Op) (s : AuditStream) : AuditStream * list Effect :=
  match ops with
  | [] => (s, [])
  | op :: rest =>
    let '(s, log) := apply_op op s in
    let '(s, later) := run_ops rest s in
    (s, app log later)
  end.

(** The entries the operations wrote, in order. *)
Definition written (ops : list Op) : list AuditEntry :=
  flat_map (fun op => match op with
                      | Write entry => [entry]
                      | WriteBatch entries => entries
                      | _ => []
                      end) ops.

End Stream.

(** ** packages/protocol-adapter: the adapters and their dispatcher *)

Module Adapter.

Record ParseError : Type := {
  parse_code : string;
  parse_message : string;
  parse_path : option (list string);
  parse_suggestion : option string
}.

Record ParseMetadata : Type := {
  metadata_protocol : Protocol;
  metadata_timestamp : Z;
  rawSize : Z
}.

(** [data] is [JUndefined] when the field is absent. *)
Record ParseResult : Type := {
  parse_success : bool;
  data : JsValue;
  parse_error : option ParseError;
  parse_metadata : ParseMetadata
}.

Record NormalizeError : Type := {
  normalize_code : string;
  normalize_message : string
}.

Record NormalizePerformance : Type := {
  parsingTimeMs : Z;
  normalizationTimeMs : Z;
  totalOverheadMs : Z
}.

Record NormalizeResult : Type := {
  normalize_success : bool;
  intent : option NormalizedIntent;
  normalize_error : option NormalizeError;
  normalize_performance : NormalizePerformance
}.

Record AdapterConfig : Type := {
  strictValidation : bool;
  maxPayloadSize : Z;
  adapter_timeoutMs : Z;
  preserveUnknownFields : bool
}.

Definition default_adapter_config : AdapterConfig :=
  {| strictValidation := true; maxPayloadSize := 10 * 1024 * 1024;
     adapter_timeoutMs := 5000; preserveUnknownFields := false |}.

(** The three readings of [now()] in a call of [normalize]. *)
Record NormalizeClock : Type := {
  normalize_startTime : Z;
  normalizeStart : Z;
  normalizeEnd : Z
}.

Section Adapters.

Context `{Host}.

(** The interface [Adapter]. [parse] takes its reading of [now()];
    [normalize] takes its readings and the id [generateId()] draws. *)
Record Adapter : Type := {
  protocol : Protocol;
  parse : Z -> JsValue -> completion ParseResult;
  normalize : NormalizeClock -> string -> ParseResult -> completion NormalizeResult
}.

(** The result objects every [parse] builds; [rawSize] is computed last. *)
Definition parse_failed (p : Protocol) (startTime : Z) (rawPayload : JsValue)
    (code message : string) (suggestion : option string) : completion ParseResult :=
  bind (stringified_length rawPayload) (fun size =>
    Normal {| parse_success := false;
              data := JUndefined;
              parse_error := Some {| parse_code := code; parse_message := message;
                                     parse_path := None; parse_suggestion := suggestion |};
              parse_metadata := {| metadata_protocol := p; metadata_timestamp := startTime;
                                   rawSize := size |} |}).

Definition parse_succeeded (p : Protocol) (startTime : Z) (rawPayload : JsValue)
  : completion ParseResult :=
  bind (stringified_length rawPayload) (fun size =>
    Normal {| parse_success := true;
              data := rawPayload;
              parse_error := None;
              parse_metadata := {| metadata_protocol := p; metadata_timestamp := startTime;
                                   rawSize := size |} |}).

(** The [catch] block every [parse] ends with. *)
Definition parse_caught (p : Protocol) (startTime : Z) (rawPayload : JsValue) (e : JsError)
  : completion ParseResult :=
  parse_failed p startTime rawPayload "PARSE_ERROR" (error_message e) None.

(** The result objects every [normalize] builds. *)
Definition cannot_normalize (clock : NormalizeClock) (parsed : ParseResult) : NormalizeResult :=
  let parsingTime := normalize_startTime clock - metadata_timestamp (parse_metadata parsed) in
  {| normalize_success := false;
     intent := None;
     normalize_error := Some {| normalize_code := "NORMALIZE_ERROR";
                                normalize_message := "Cannot normalize failed parse" |};
     normalize_performance := {| parsingTimeMs := parsingTime;
                                 normalizationTimeMs := 0;
                                 totalOverheadMs := parsingTime |} |}.

Definition normalized (clock : NormalizeClock) (parsed : ParseResult) (i : NormalizedIntent)
  : NormalizeResult :=
  let parsingTime := normalize_startTime clock - metadata_timestamp (parse_metadata parsed) in
  let normalizationTime := normalizeEnd clock - normalizeStart clock in
  {| normalize_success := true;
     intent := Some i;
     normalize_error := None;
     normalize_performance := {| parsingTimeMs := parsingTime;
                                 normalizationTimeMs := normalizationTime;
                                 totalOverheadMs := parsingTime + normalizationTime |} |}.

(** What a [parse] returns when it returns: one of the two result objects. *)
Definition parse_outcome (p : Protocol) (t : Z) (raw : JsValue) (r : ParseResult) : Prop :=
  (exists c m s, parse_failed p t raw c m s = Normal r) \/ parse_succeeded p t raw = Normal r.

(** [!parsed.success || !parsed.data] *)
Definition unusable (parsed : ParseResult) : bool :=
  negb (parse_success parsed) || negb (truthy (data parsed)).

(** *** adapters/mcp.ts *)

Definition MCP_parse (startTime : Z) (rawPayload : JsValue) : completion ParseResult :=
  try_catch
    (bind (get rawPayload "jsonrpc") (fun jsonrpc =>
       if negb (is_string "2.0" jsonrpc) then
         parse_failed mcp startTime rawPayload "INVALID_JSONRPC"
           "Missing or invalid jsonrpc version"
           (Some "Ensure payload follows JSON-RPC 2.0 spec")
       else
         bind (get rawPayload "method") (fun method =>
           if negb (truthy method) then
             parse_failed mcp startTime rawPayload "MISSING_METHOD" "Missing method field" None
           else parse_succeeded mcp startTime rawPayload)))
    (parse_caught mcp startTime rawPayload).

Definition MCP_normalizeToolCall (id : string) (payload : JsValue)
  : completion NormalizedIntent :=
  bind (get payload "params") (fun p =>
    let params := or_else p (JObj []) in
    bind (get params "name") (fun name =>
      bind (get params "arguments") (fun arguments =>
        Normal {| intent_id := id;
                  category := tool_call;
                  action := or_else name (JStr "unknown_tool");
                  target := JStr "tool";
                  parameters := or_else arguments (JObj []);
                  intent_confidence := 1;
                  intent_alternatives := [] |}))).

Definition MCP_normalizeResourceRead (id : string) (payload : JsValue)
  : completion NormalizedIntent :=
  bind (get payload "params") (fun p =>
    let params := or_else p (JObj []) in
    bind (get params "uri") (fun uri =>
      Normal {| intent_id := id;
                category := data_retrieval;
                action := JStr "read_resource";
                target := or_else uri (JStr "unknown");
                parameters := params;
                intent_confidence := 1;
                intent_alternatives := [] |})).

Definition MCP_normalizePromptGet (id : string) (payload : JsValue)
  : completion NormalizedIntent :=
  bind (get payload "params") (fun p =>
    let params := or_else p (JObj []) in
    bind (get params "name") (fun name =>
      bind (get params "arguments") (fun arguments =>
        Normal {| intent_id := id;
                  category := information_request;
                  action := JStr "get_prompt";
                  target := or_else name (JStr "unknown");
                  parameters := or_else arguments (JObj []);
                  intent_confidence := 1;
                  intent_alternatives := [] |}))).

Definition MCP_normalizeGeneric (id : string) (payload : JsValue)
  : completion NormalizedIntent :=
  bind (get payload "method") (fun method =>
    bind (get payload "params") (fun params =>
      Normal {| intent_id := id;
                category := conversation;
                action := method;
                target := JStr "system";
                parameters := or_else params (JObj []);
                intent_confidence := 8 # 10;
                intent_alternatives :=
                  [ {| alt_action := "help"; alt_confidence := 2 # 10;
                       alt_reason := "Unknown method, may need assistance" |} ] |})).

Definition MCP_normalize (clock : NormalizeClock) (id : string) (parsed : ParseResult)
  : completion NormalizeResult :=
  if unusable parsed then Normal (cannot_normalize clock parsed)
  else
    let payload := data parsed in
    bind (get payload "method") (fun method =>
      bind (if is_string "tools/call" method then MCP_normalizeToolCall id payload
            else if is_string "resources/read" method then MCP_normalizeResourceRead id payload
            else if is_string "prompts/get" method then MCP_normalizePromptGet id payload
            else MCP_normalizeGeneric id payload)
           (fun i => Normal (normalized clock parsed i))).

Definition MCPAdapter : Adapter :=
  {| protocol := mcp; parse := MCP_parse; normalize := MCP_normalize |}.

(** *** adapters/a2a.ts *)

Definition A2A_parse (startTime : Z) (rawPayload : JsValue) : completion ParseResult :=
  try_catch
    (bind (get rawPayload "id") (fun id =>
       if negb (truthy id) then
         parse_failed a2a startTime rawPayload "MISSING_ID" "Missing request ID" None
       else
         bind (get rawPayload "sender") (fun sender =>
           bind (if truthy sender then get rawPayload "recipient" else Normal JUndefined)
                (fun recipient =>
                   if negb (truthy sender) || negb (truthy recipient) then
                     parse_failed a2a startTime rawPayload "MISSING_AGENTS"
                       "Missing sender or recipient" None
                   else parse_succeeded a2a startTime rawPayload))))
    (parse_caught a2a startTime rawPayload).

(** [payload.recipient.id] *)
Definition recipient_id (payload : JsValue) : completion JsValue :=
  bind (get payload "recipient") (fun recipient => get recipient "id").

Definition A2A_normalizeTask (id : string) (payload task : JsValue)
  : completion NormalizedIntent :=
  bind (get task "type") (fun type =>
  bind (recipient_id payload) (fun receiver =>
  bind (get task "id") (fun taskId =>
  bind (get task "parameters") (fun taskParameters =>
  bind (get task "priority") (fun taskPriority =>
  bind (get task "deadline") (fun deadline =>
  bind (get payload "sender") (fun sender =>
    Normal {| intent_id := id;
              category := action_execution;
              action := type;
              target := receiver;
              parameters := JObj [("taskId", taskId); ("parameters", taskParameters);
                                  ("priority", taskPriority); ("deadline", deadline);
                                  ("sender", sender)];
              intent_confidence := 95 # 100;
              intent_alternatives := [] |}))))))).

Definition A2A_normalizeMessage (id : string) (payload message : JsValue)
  : completion NormalizedIntent :=
  bind (get message "type") (fun type =>
  bind (recipient_id payload) (fun receiver =>
  bind (get message "content") (fun content =>
  bind (get message "context") (fun messageContext =>
  bind (get payload "sender") (fun sender =>
    Normal {| intent_id := id;
              category := if is_string "request" type then information_request
                          else conversation;
              action := JStr ("a2a_" ++ ToString type);
              target := receiver;
              parameters := JObj [("content", content); ("context", messageContext);
                                  ("sender", sender)];
              intent_confidence := 9 # 10;
              intent_alternatives := [] |}))))).

Definition A2A_normalizeGeneric (id : string) (payload : JsValue)
  : completion NormalizedIntent :=
  bind (recipient_id payload) (fun receiver =>
  bind (get payload "sender") (fun sender =>
  bind (get payload "id") (fun originalId =>
    Normal {| intent_id := id;
              category := conversation;
              action := JStr "a2a_handshake";
              target := receiver;
              parameters := JObj [("sender", sender); ("originalId", originalId)];
              intent_confidence := 7 # 10;
              intent_alternatives :=
                [ {| alt_action := "a2a_discovery"; alt_confidence := 3 # 10;
                     alt_reason := "May be agent capability discovery" |} ] |}))).

Definition A2A_normalize (clock : NormalizeClock) (id : string) (parsed : ParseResult)
  : completion NormalizeResult :=
  if unusable parsed then Normal (cannot_normalize clock parsed)
  else
    let payload := data parsed in
    bind (get payload "task") (fun task =>
      bind (if truthy task then A2A_normalizeTask id payload task
            else bind (get payload "message") (fun message =>
                   if truthy message then A2A_normalizeMessage id payload message
                   else A2A_normalizeGeneric id payload))
           (fun i => Normal (normalized clock parsed i))).

Definition A2AAdapter : Adapter :=
  {| protocol := a2a; parse := A2A_parse; normalize := A2A_normalize |}.

(** *** adapters/ucp.ts *)

Definition UCP_parse (startTime : Z) (rawPayload : JsValue) : completion ParseResult :=
  try_catch
    (bind (get rawPayload "context_id") (fun context_id =>
       if negb (truthy context_id) then
         parse_failed ucp startTime rawPayload "MISSING_CONTEXT_ID"
           "Missing context_id field" None
       else
         bind (get rawPayload "operation") (fun operation =>
           if negb (truthy operation) then
             parse_failed ucp startTime rawPayload "MISSING_OPERATION"
               "Missing operation field" None
           else parse_succeeded ucp startTime rawPayload)))
    (parse_caught ucp startTime rawPayload).

(** A lookup in an object literal that has the given own keys; the keys
    [constructor] and [__proto__] are found on [Object.prototype]. *)
Fixpoint table_lookup (table : list (string * IntentCategory)) (key : string)
  : option IntentCategory :=
  match table with
  | [] => if String.eqb key "constructor" || String.eqb key "__proto__"
          then Some (inherited key) else None
  | (k, c) :: rest => if String.eqb key k then Some c else table_lookup rest key
  end.

Definition operationMap : list (string * IntentCategory) :=
  [("read", data_retrieval); ("write", action_execution); ("update", action_execution);
   ("delete", action_execution); ("query", information_request);
   ("search", information_request); ("analyze", analysis); ("generate", code_generation)].

Definition mapOperationToCategory (operation : JsValue) : completion IntentCategory :=
  bind (toLowerCase "operation" operation) (fun key =>
    Normal (default conversation (table_lookup operationMap key))).

Definition UCP_normalize (clock : NormalizeClock) (id : string) (parsed : ParseResult)
  : completion NormalizeResult :=
  if unusable parsed then Normal (cannot_normalize clock parsed)
  else
    let payload := data parsed in
    bind (get payload "operation") (fun operation =>
    bind (mapOperationToCategory operation) (fun cat =>
    bind (get payload "context_id") (fun context_id =>
    bind (get payload "data") (fun payloadData =>
    bind (get payload "metadata") (fun payloadMetadata =>
      Normal (normalized clock parsed
                {| intent_id := id;
                   category := cat;
                   action := operation;
                   target := context_id;
                   parameters := JObj [("data", payloadData); ("metadata", payloadMetadata)];
                   intent_confidence := 9 # 10;
                   intent_alternatives := [] |})))))).

Definition UCPAdapter : Adapter :=
  {| protocol := ucp; parse := UCP_parse; normalize := UCP_normalize |}.

(** *** adapters/acp.ts *)

Definition ACP_parse (startTime : Z) (rawPayload : JsValue) : completion ParseResult :=
  try_catch
    (bind (get rawPayload "header") (fun header =>
       if negb (truthy header) then
         parse_failed acp startTime rawPayload "MISSING_HEADER" "Missing header field" None
       else
         bind (get rawPayload "body") (fun body =>
           if negb (truthy body) then
             parse_failed acp startTime rawPayload "MISSING_BODY" "Missing body field" None
           else parse_succeeded acp startTime rawPayload)))
    (parse_caught acp startTime rawPayload).

Definition typeMap : list (string * IntentCategory) :=
  [("command", action_execution); ("query", information_request);
   ("event", conversation); ("response", conversation)].

Definition mapMessageTypeToCategory (messageType : JsValue) : completion IntentCategory :=
  bind (toLowerCase "messageType" messageType) (fun key =>
    Normal (default conversation (table_lookup typeMap key))).

Definition ACP_normalize (clock : NormalizeClock) (id : string) (parsed : ParseResult)
  : completion NormalizeResult :=
  if unusable parsed then Normal (cannot_normalize clock parsed)
  else
    let payload := data parsed in
    bind (get payload "header") (fun header =>
    bind (get header "message_type") (fun message_type =>
    bind (mapMessageTypeToCategory message_type) (fun cat =>
    bind (get payload "body") (fun body =>
    bind (get body "action") (fun bodyAction =>
    bind (get header "receiver_id") (fun receiver_id =>
    bind (get body "payload") (fun bodyPayload =>
    bind (get body "options") (fun bodyOptions =>
    bind (get header "sender_id") (fun sender_id =>
    bind (get header "message_id") (fun message_id =>
    bind (get header "correlation_id") (fun correlation_id =>
      Normal (normalized clock parsed
                {| intent_id := id;
                   category := cat;
                   action := bodyAction;
                   target := receiver_id;
                   parameters := JObj [("payload", bodyPayload); ("options", bodyOptions);
                                       ("sender", sender_id); ("messageId", message_id);
                                       ("correlationId", correlation_id)];
                   intent_confidence := 95 # 100;
                   intent_alternatives := [] |})))))))))))).

Definition ACPAdapter : Adapter :=
  {| protocol := acp; parse := ACP_parse; normalize := ACP_normalize |}.

(** *** adapters/openai.ts and adapters/anthropic.ts *)

(** [v.length === 0] on an array. *)
Definition is_empty_array (v : JsValue) : bool :=
  match v with
  | JArr [] => true
  | _ => false
  end.

(** [Array.isArray(v)] *)
Definition isArray (v : JsValue) : bool :=
  match v with
  | JArr _ => true
  | _ => false
  end.

(** The elements of [v] where the code calls the array method [method] on
    it; [object] is the text of the expression whose value is [v]. Reading
    the method from [undefined] or [null] throws, and so does calling what
    another value has under that name. *)
Definition elements (object method : string) (v : JsValue) : completion (list JsValue) :=
  match v with
  | JArr elems => Normal elems
  | JUndefined =>
    Throw (TypeError ("Cannot read properties of undefined (reading '" ++ method ++ "')"))
  | JNull => Throw (TypeError ("Cannot read properties of null (reading '" ++ method ++ "')"))
  | _ => Throw (TypeError (object ++ "." ++ method ++ " is not a function"))
  end.

(** [[...v]] *)
Definition spread (v : JsValue) : completion (list JsValue) :=
  match v with
  | JArr elems => Normal elems
  | JStr s => Normal (map (fun c => JStr (String c EmptyString)) (list_ascii_of_string s))
  | _ => Throw (TypeError "payload.messages is not iterable")
  end.

(** [array.find(test)] and [array.some(test)] for a test that may throw. *)
Fixpoint find_first (test : JsValue -> completion bool) (l : list JsValue)
  : completion JsValue :=
  match l with
  | [] => Normal JUndefined
  | x :: rest =>
    bind (test x) (fun b => if b then Normal x else find_first test rest)
  end.

Fixpoint some (test : JsValue -> completion bool) (l : list JsValue) : completion bool :=
  match l with
  | [] => Normal false
  | x :: rest => bind (test x) (fun b => if b then Normal true else some test rest)
  end.

(** [m => m.role === 'user'] *)
Definition is_user (m : JsValue) : completion bool :=
  bind (get m "role") (fun role => Normal (is_string "user" role)).

(** [[...payload.messages].reverse().find(m => m.role === 'user')] *)
Definition lastUserMessage (messages : JsValue) : completion JsValue :=
  bind (spread messages) (fun copy => find_first is_user (rev copy)).

(** [payload.tools && payload.tools.length > 0] *)
Definition has_tools (payload : JsValue) : completion bool :=
  bind (get payload "tools") (fun tools =>
    if truthy tools then bind (get tools "length") (fun n => Normal (greater_than_zero n))
    else Normal false).

Definition OpenAI_parse (startTime : Z) (rawPayload : JsValue) : completion ParseResult :=
  try_catch
    (bind (get rawPayload "model") (fun model =>
       if negb (truthy model) then
         parse_failed openai startTime rawPayload "MISSING_MODEL" "Missing model field" None
       else
         bind (get rawPayload "messages") (fun messages =>
           if negb (isArray messages) || is_empty_array messages then
             parse_failed openai startTime rawPayload "MISSING_MESSAGES"
               "Missing or invalid messages array" None
           else parse_succeeded openai startTime rawPayload)))
    (parse_caught openai startTime rawPayload).

(** [m => m.role === 'assistant' && m.tool_calls && m.tool_calls.length > 0] *)
Definition has_tool_calls (m : JsValue) : completion bool :=
  bind (get m "role") (fun role =>
    if is_string "assistant" role then
      bind (get m "tool_calls") (fun tool_calls =>
        if truthy tool_calls then
          bind (get tool_calls "length") (fun n => Normal (greater_than_zero n))
        else Normal false)
    else Normal false).

Definition OpenAI_generateAlternatives (payload : JsValue)
  : completion (list IntentAlternative) :=
  bind (has_tools payload) (fun tools =>
    let alts :=
      if tools
      then [ {| alt_action := "tool_selection"; alt_confidence := 7 # 10;
                alt_reason := "Multiple tools available, selection may be needed" |} ]
      else [] in
    bind (get payload "temperature") (fun temperature =>
      Normal (if truthy temperature && less_than temperature (1 # 2)
              then push alts
                     {| alt_action := "deterministic_response"; alt_confidence := 6 # 10;
                        alt_reason :=
                          "Low temperature suggests deterministic output preferred" |}
              else alts))).

Definition OpenAI_normalize (clock : NormalizeClock) (id : string) (parsed : ParseResult)
  : completion NormalizeResult :=
  if unusable parsed then Normal (cannot_normalize clock parsed)
  else
    let payload := data parsed in
    bind (get payload "messages") (fun messages =>
    bind (lastUserMessage messages) (fun lastUser =>
    bind (elements "payload.messages" "some" messages) (fun msgs =>
    bind (some has_tool_calls msgs) (fun hasToolCalls =>
    bind (get payload "model") (fun model =>
    bind (get payload "tools") (fun tools =>
    bind (get payload "tool_choice") (fun tool_choice =>
    bind (get payload "temperature") (fun temperature =>
    bind (get payload "max_tokens") (fun max_tokens =>
    bind (get_optional lastUser "content") (fun lastContent =>
    bind (OpenAI_generateAlternatives payload) (fun alts =>
      Normal (normalized clock parsed
                {| intent_id := id;
                   category := if hasToolCalls then tool_call else conversation;
                   action := JStr (if hasToolCalls then "execute_tools" else "chat_completion");
                   target := model;
                   parameters := JObj [("messages", messages); ("tools", tools);
                                       ("tool_choice", tool_choice);
                                       ("temperature", temperature);
                                       ("max_tokens", max_tokens);
                                       ("lastUserMessage", lastContent)];
                   intent_confidence := 95 # 100;
                   intent_alternatives := alts |})))))))))))).

Definition OpenAIAdapter : Adapter :=
  {| protocol := openai; parse := OpenAI_parse; normalize := OpenAI_normalize |}.

Definition Anthropic_parse (startTime : Z) (rawPayload : JsValue) : completion ParseResult :=
  try_catch
    (bind (get rawPayload "model") (fun model =>
       if negb (truthy model) then
         parse_failed anthropic startTime rawPayload "MISSING_MODEL" "Missing model field" None
       else
         bind (get rawPayload "messages") (fun messages =>
           if negb (isArray messages) || is_empty_array messages then
             parse_failed anthropic startTime rawPayload "MISSING_MESSAGES"
               "Missing or invalid messages array" None
           else
             bind (get rawPayload "max_tokens") (fun max_tokens =>
               if negb (truthy max_tokens) then
                 parse_failed anthropic startTime rawPayload "MISSING_MAX_TOKENS"
                   "Missing max_tokens field" None
               else parse_succeeded anthropic startTime rawPayload))))
    (parse_caught anthropic startTime rawPayload).

(** [c => c.type === t] *)
Definition has_type (t : string) (c : JsValue) : completion bool :=
  bind (get c "type") (fun type => Normal (is_string t type)).

(** The test of [hasToolUse]: a string content has no tool use. *)
Definition has_tool_use (m : JsValue) : completion bool :=
  bind (get m "content") (fun content =>
    match content with
    | JStr _ => Normal false
    | _ => bind (elements "m.content" "some" content) (some (has_type "tool_use"))
    end).

(** The text of the last user message. *)
Definition userContent (lastUser : JsValue) : completion JsValue :=
  bind (get_optional lastUser "content") (fun content =>
    match content with
    | JStr _ => Normal content
    | _ =>
      match lastUser with
      | JUndefined | JNull => Normal (JStr "")
      | _ =>
        bind (elements "lastUserMessage?.content" "find" content) (fun blocks =>
        bind (find_first (has_type "text") blocks) (fun block =>
        bind (get_optional block "text") (fun text =>
          Normal (or_else text (JStr "")))))
      end
    end).

Definition Anthropic_generateAlternatives (payload : JsValue)
  : completion (list IntentAlternative) :=
  bind (has_tools payload) (fun tools =>
    let alts :=
      if tools
      then [ {| alt_action := "tool_selection"; alt_confidence := 7 # 10;
                alt_reason := "Multiple tools available for task execution" |} ]
      else [] in
    bind (get payload "system") (fun system =>
      Normal (if truthy system
              then push alts
                     {| alt_action := "system_instruction"; alt_confidence := 5 # 10;
                        alt_reason := "System prompt may guide behavior" |}
              else alts))).

Definition Anthropic_normalize (clock : NormalizeClock) (id : string) (parsed : ParseResult)
  : completion NormalizeResult :=
  if unusable parsed then Normal (cannot_normalize clock parsed)
  else
    let payload := data parsed in
    bind (get payload "messages") (fun messages =>
    bind (elements "payload.messages" "some" messages) (fun msgs =>
    bind (some has_tool_use msgs) (fun hasToolUse =>
    bind (lastUserMessage messages) (fun lastUser =>
    bind (userContent lastUser) (fun content =>
    bind (get payload "model") (fun model =>
    bind (get payload "tools") (fun tools =>
    bind (get payload "tool_choice") (fun tool_choice =>
    bind (get payload "temperature") (fun temperature =>
    bind (get payload "max_tokens") (fun max_tokens =>
    bind (get payload "system") (fun system =>
    bind (Anthropic_generateAlternatives payload) (fun alts =>
      Normal (normalized clock parsed
                {| intent_id := id;
                   category := if hasToolUse then tool_call else conversation;
                   action := JStr (if hasToolUse then "execute_tools" else "chat_completion");
                   target := model;
                   parameters := JObj [("messages", messages); ("tools", tools);
                                       ("tool_choice", tool_choice);
                                       ("temperature", temperature);
                                       ("max_tokens", max_tokens);
                                       ("system", system);
                                       ("lastUserMessage", content)];
                   intent_confidence := 95 # 100;
                   intent_alternatives := alts |}))))))))))))).

Definition AnthropicAdapter : Adapter :=
  {| protocol := anthropic; parse := Anthropic_parse; normalize := Anthropic_normalize |}.

(** *** adapter.ts: [ProtocolAdapter] *)

Definition Protocol_name (p : Protocol) : string :=
  match p with
  | mcp => "mcp"
  | a2a => "a2a"
  | ucp => "ucp"
  | acp => "acp"
  | openai => "openai"
  | anthropic => "anthropic"
  end.

(** The map [adapters] after [registerAdapters], in insertion order. *)
Definition registerAdapters : list (string * Adapter) :=
  map (fun a => (Protocol_name (protocol a), a))
      [MCPAdapter; A2AAdapter; UCPAdapter; ACPAdapter; OpenAIAdapter; AnthropicAdapter].

(** [this.adapters.get(sourceProtocol)] *)
Fixpoint adapters_get (adapters : list (string * Adapter)) (key : string) : option Adapter :=
  match adapters with
  | [] => None
  | (k, a) :: rest => if String.eqb key k then Some a else adapters_get rest key
  end.

(** What a call of [convert] reads from the clock and draws as ids, in
    program order. *)
Record ConvertEnv : Type := {
  convert_startTime : Z;
  parse_time : Z;
  normalize_clock : NormalizeClock;
  intent_fresh_id : string;
  overhead_time : Z;
  request_fresh_id : string;
  timestamp_time : Z;
  session_fresh_id : string;
  trace_fresh_id : string
}.

(** [e?.message || 'Unknown error'] *)
Definition message_or_unknown (m : option string) : string :=
  match m with
  | Some s => if String.eqb s "" then "Unknown error" else s
  | None => "Unknown error"
  end.

(** [convert]. The tag is any string; the request records the protocol of
    the adapter found under it, which is the tag. The warning about the
    overhead is written to the console and changes nothing. *)
Definition convert (env : ConvertEnv) (rawPayload : JsValue) (sourceProtocol : string)
    (traceId : option string) : completion AgentRequest :=
  match adapters_get registerAdapters sourceProtocol with
  | None => Throw (Error ("Unsupported protocol: " ++ sourceProtocol))
  | Some adapter =>
    bind (parse adapter (parse_time env) rawPayload) (fun parseResult =>
      if negb (parse_success parseResult) then
        Throw (Error ("Parse error: "
                      ++ message_or_unknown (option_map parse_message (parse_error parseResult))))
      else
        bind (normalize adapter (normalize_clock env) (intent_fresh_id env) parseResult)
          (fun normalizeResult =>
             if negb (normalize_success normalizeResult) then
               Throw (Error ("Normalize error: "
                             ++ message_or_unknown
                                  (option_map normalize_message
                                     (normalize_error normalizeResult))))
             else
               Normal {| request_id := request_fresh_id env;
                         request_timestamp := timestamp_time env;
                         sourceProtocol := protocol adapter;
                         rawPayload := rawPayload;
                         normalizedIntent := intent normalizeResult;
                         context := {| sessionId := session_fresh_id env;
                                       userId := "anonymous";
                                       conversationHistory := [];
                                       availableTools := [];
                                       constraints := [];
                                       preferences := [] |};
                         metadata := {| priority := 1;
                                        maxLatencyMs := 30000;
                                        maxBudgetCents := 1000;
                                        requireHumanApproval := false;
                                        auditLevel := "standard";
                                        traceId := match traceId with
                                                   | Some t => if String.eqb t ""
                                                               then trace_fresh_id env else t
                                                   | None => trace_fresh_id env
                                                   end |} |}))
  end.

(** [detectProtocol]; [clock i] is the reading of [now()] in the [i]-th
    call of [parse]. *)
Fixpoint detect_from (adapters : list (string * Adapter)) (i : nat) (clock : nat -> Z)
    (rawPayload : JsValue) : completion (option Protocol) :=
  match adapters with
  | [] => Normal None
  | (_, adapter) :: rest =>
    bind (parse adapter (clock i) rawPayload) (fun result =>
      if parse_success result then Normal (Some (protocol adapter))
      else detect_from rest (S i) clock rawPayload)
  end.

Definition detectProtocol (clock : nat -> Z) (rawPayload : JsValue)
  : completion (option Protocol) :=
  detect_from registerAdapters 0 clock rawPayload.

(** [Array.from(this.adapters.keys())] and [this.adapters.get(protocol)] *)
Definition getSupportedProtocols : list string := map fst registerAdapters.

Definition getAdapter (protocol : string) : option Adapter :=
  adapters_get registerAdapters protocol.

End Adapters.

End Adapter.

(** ** Concrete inputs used by the examples *)

Module Examples.

(** A host whose [Number::toString] prints integers in decimal and whose
    [StringToNumber] reads the empty string as 0, as every host does; the
    examples print integers only and convert no other string. *)
Definition integer_host : Host :=
  {| Number_toString := fun q =>
       if Qltb q 0 then "-" ++ digits (Z.abs (Qfloor q)) else digits (Qfloor q);
     StringToNumber := fun s => if String.eqb s "" then Some 0%Q else None |}.

Definition plain_tool (name : string) : ToolDefinition :=
  {| tool_id := name;
     tool_name := name;
     tool_description := "";
     tool_protocol := mcp;
     tool_parameters := JObj [];
     tool_returns := JObj [];
     costEstimate := None;
     latencyEstimate := None;
     requiredCredentials := None |}.

(** A tool with a cost estimate of 100 dollars and a latency of 100 s. *)
Definition costly_tool (name : string) : ToolDefinition :=
  {| tool_id := name;
     tool_name := name;
     tool_description := "";
     tool_protocol := mcp;
     tool_parameters := JObj [];
     tool_returns := JObj [];
     costEstimate := Some {| cost_min := 10000; cost_max := 10000;
                             currency := "USD"; cost_unit := "request" |};
     latencyEstimate := Some 100000%Q;
     requiredCredentials := None |}.

Definition some_intent : NormalizedIntent :=
  {| intent_id := "i1";
     category := conversation;
     action := JStr "find documentation";
     target := JStr "system";
     parameters := JObj [];
     intent_confidence := 1;
     intent_alternatives := [] |}.

Definition some_request : AgentRequest :=
  {| request_id := "r1";
     request_timestamp := 0;
     sourceProtocol := mcp;
     rawPayload := JNull;
     normalizedIntent := Some some_intent;
     context := {| sessionId := "s1"; userId := "anonymous"; conversationHistory := [];
                   availableTools := []; constraints := []; preferences := [] |};
     metadata := {| priority := 1; maxLatencyMs := 30000; maxBudgetCents := 1000;
                    requireHumanApproval := false; auditLevel := "standard";
                    traceId := "t1" |} |}.

Definition route_request (tools : list ToolDefinition) (opts : Router.RouteOptions)
  : Router.RouteRequest :=
  {| Router.request := some_request;
     Router.route_availableTools := tools;
     Router.options := opts |}.

Definition clock0 : Router.RouteClock :=
  {| Router.startTime := 0; Router.embeddingStart := 0; Router.embeddingEnd := 1;
     Router.matchingStart := 1; Router.matchingEnd := 2; Router.endTime := 2 |}.

(** An embedding service that finds every tool at similarity [s]. *)
Definition constant_similarity (s : Q) (i : nat) (t : ToolDefinition)
  : completion (list Q * Q) :=
  Normal ([], s).

(** Two tools registered under one name share the cached embedding
    [tool:<name>] and so reach the same similarity. *)
Definition twin_tools : list ToolDefinition := [plain_tool "search"; plain_tool "search"].

(** A pool of at most two sandboxes that is kept warm with one. *)
Definition small_pool_config : Sandbox.SandboxPoolConfig :=
  {| Sandbox.minInstances := 1; Sandbox.maxInstances := 2;
     Sandbox.idleTimeoutMs := 300000; Sandbox.warmupIntervalMs := 60000 |}.

(** One call of [execute] from start to end: a pool miss at time 0, the
    sandbox is there at 100 and the tool is done at 150. *)
Definition one_execution : list Sandbox.Event :=
  [ Sandbox.Execute (plain_tool "search") (JObj []) 30000 0 0 0 "a1";
    Sandbox.Resume 0 100 100 0 0;
    Sandbox.Resume 0 150 150 150 150 ].

(** A warm-up that overlaps two calls of [execute]. The sandbox [a1] is
    reused at 160 and back in the pool at 210; a second call misses the pool
    at 165 and gets [d1] at 265; the maintenance tick of 170 starts the
    warm-up sandbox [w0], which enters the pool at 270 with the last-used
    time 170 of its creation. The second call is still running. *)
Definition warmup_race : list Sandbox.Event :=
  (one_execution ++
   [ Sandbox.Execute (plain_tool "search") (JObj []) 30000 160 160 160 "unused";
     Sandbox.Execute (plain_tool "search") (JObj []) 30000 165 165 165 "d1";
     Sandbox.Maintain 170 (fun _ => "w0") (fun _ => 170);
     Sandbox.Resume 0 210 210 210 210;
     Sandbox.Resume 0 265 265 0 0;
     Sandbox.Resume 0 270 0 0 0 ])%list.

Definition audit_entry (name : string) (t : Z) : AuditEntry :=
  {| entry_id := name;
     entry_timestamp := t;
     entry_traceId := "trace-1";
     entry_requestId := "r1";
     eventType := tool_executed;
     severity := info;
     actor := "router";
     entry_action := "execute";
     entry_target := "search";
     details := JObj [];
     beforeState := JUndefined;
     afterState := JUndefined;
     humanReview := None |}.

(** A stream that buffers one entry and has two subscribers, the first of
    which throws on every batch. *)
Definition busy_stream : Stream.AuditStream :=
  {| Stream.buffer := [audit_entry "e0" 10];
     Stream.stream_config := Stream.default_stream_config;
     Stream.handlers := [ {| Stream.handler_id := 1; Stream.handler_throws := fun _ => true |};
                          {| Stream.handler_id := 2; Stream.handler_throws := fun _ => false |} ] |}.

(** [{"jsonrpc":"2.0","id":1,"method":"tools/call",
      "params":{"name":"search","arguments":{"q":"hi"}}}] *)
Definition mcp_tool_call : JsValue :=
  JObj [("jsonrpc", JStr "2.0"); ("id", JNum 1); ("method", JStr "tools/call");
        ("params", JObj [("name", JStr "search");
                         ("arguments", JObj [("q", JStr "hi")])])].

(** [{"header":{},"body":{}}] *)
Definition acp_bare : JsValue := JObj [("header", JObj []); ("body", JObj [])].

Definition convert_env : Adapter.ConvertEnv :=
  {| Adapter.convert_startTime := 0;
     Adapter.parse_time := 0;
     Adapter.normalize_clock := {| Adapter.normalize_startTime := 1;
                                   Adapter.normalizeStart := 1;
                                   Adapter.normalizeEnd := 2 |};
     Adapter.intent_fresh_id := "id-intent";
     Adapter.overhead_time := 2;
     Adapter.request_fresh_id := "id-request";
     Adapter.timestamp_time := 2;
     Adapter.session_fresh_id := "id-session";
     Adapter.trace_fresh_id := "id-trace" |}.

Definition twin_call : Router.RouteResult :=
  @Router.route integer_host Router.default_config (constant_similarity (9 # 10)) clock0
    (route_request twin_tools Router.no_options).

(** Scenario 4 of the specification: a similarity of about 0.887 that the
    cost and latency adjustments bring down to a confidence of 0.72. *)
Definition low_confidence_call : Router.RouteResult :=
  @Router.route integer_host Router.default_config (constant_similarity (734472 # 828100))
    clock0 (route_request [costly_tool "report"] Router.no_options).

(** A tool without estimates found at a similarity of 0.7005 by a router
    whose similarity threshold is 0.5: the confidence is the similarity. *)
Definition lenient_config : Router.RouterConfig :=
  {| Router.embeddingModel := "text-embedding-3-small";
     Router.embeddingDimensions := SEMANTIC_ROUTING_embeddingDimensions;
     Router.similarityThreshold := 5 # 10;
     Router.minConfidence := SEMANTIC_ROUTING_minConfidence;
     Router.maxAlternatives := SEMANTIC_ROUTING_maxAlternatives;
     Router.cacheEmbeddings := true;
     Router.cacheTtlMs := 300000;
     Router.enableCostOptimization := true;
     Router.enableLatencyOptimization := true |}.

Definition rounding_call : Router.RouteResult :=
  @Router.route integer_host lenient_config (constant_similarity (7005 # 10000)) clock0
    (route_request [plain_tool "search"] Router.no_options).

(** A similarity of 0.86 that the adjustments bring below the minimum
    confidence of 0.7. *)
Definition slow_call : Router.RouteResult :=
  @Router.route integer_host Router.default_config (constant_similarity (86 # 100)) clock0
    (route_request [costly_tool "report"] Router.no_options).

(** An embedding service that finds the tool at position [i] of the
    catalog at the similarity listed at position [i]. *)
Definition similarity_by_position (similarities : list Q) (i : nat) (t : ToolDefinition)
  : completion (list Q * Q) :=
  Normal ([], nth i similarities 0%Q).

(** Five costly tools. The second stays below the similarity threshold of
    0.85, the others reach it, and the adjustments bring every one of them
    below the minimum confidence of 0.7. *)
Definition crowded_catalog : list ToolDefinition :=
  [costly_tool "report"; costly_tool "export"; costly_tool "archive"; costly_tool "print";
   costly_tool "mail"].

Definition crowded_similarities : list Q :=
  [86 # 100; 5 # 10; 855 # 1000; 861 # 1000; 85 # 100].

Definition crowded_call : Router.RouteResult :=
  @Router.route integer_host Router.default_config
    (similarity_by_position crowded_similarities) clock0
    (route_request crowded_catalog Router.no_options).

(** A pool of at most two sandboxes that is not kept warm. *)
Definition lean_pool_config : Sandbox.SandboxPoolConfig :=
  {| Sandbox.minInstances := 0; Sandbox.maxInstances := 2;
     Sandbox.idleTimeoutMs := 300000; Sandbox.warmupIntervalMs := 60000 |}.

(** Three overlapping calls of [execute]. All three miss the pool and get
    the sandboxes [a1], [b1] and [c1]; the first is done at 150 and the
    second at 160, which fills the pool; the third is still running. *)
Definition three_executions : list Sandbox.Event :=
  [ Sandbox.Execute (plain_tool "search") (JObj []) 30000 0 0 0 "a1";
    Sandbox.Execute (plain_tool "search") (JObj []) 30000 1 1 1 "b1";
    Sandbox.Execute (plain_tool "search") (JObj []) 30000 2 2 2 "c1";
    Sandbox.Resume 0 100 100 100 100;
    Sandbox.Resume 0 101 101 101 101;
    Sandbox.Resume 0 102 102 102 102;
    Sandbox.Resume 0 150 150 150 150;
    Sandbox.Resume 0 160 160 160 160 ].

Definition overlapping : Sandbox.SandboxRuntime :=
  Sandbox.run (Sandbox.new_runtime lean_pool_config) three_executions.

(** The runtime after the events of [warmup_race]. *)
Definition racing : Sandbox.SandboxRuntime :=
  Sandbox.run (Sandbox.new_runtime small_pool_config) warmup_race.

End Examples.

(** * Properties *)

(** ** Facts about the JavaScript primitives *)

Section Primitives.

Lemma Qltb_lt (x y : Q) : Qltb x y = true <-> (x < y)%Q.
Proof.
  unfold Qltb. rewrite negb_true_iff. split.
  - intros Hb. apply Qnot_le_lt. intros Hle.
    apply Qle_bool_iff in Hle. congruence.
  - intros Hlt. destruct (Qle_bool y x) eqn:E; [|reflexivity].
    apply Qle_bool_iff in E. exfalso. exact (Qlt_not_le _ _ Hlt E).
Qed.

Lemma Qltb_false_le (x y : Q) : Qltb x y = false <-> (y <= x)%Q.
Proof.
  unfold Qltb. rewrite negb_false_iff. apply Qle_bool_iff.
Qed.

Lemma append_assoc (a b c : string) : (a ++ b) ++ c = a ++ b ++ c.
Proof.
  induction a as [|x a IH]; [reflexivity|].
  change (String x ((a ++ b) ++ c) = String x (a ++ b ++ c)).
  f_equal. exact IH.
Qed.

Lemma prefix_app (s t : string) : String.prefix s (s ++ t) = true.
Proof.
  induction s as [|c s IH]; simpl.
  - destruct t; reflexivity.
  - destruct (Ascii.ascii_dec c c) as [_|Hne]; [exact IH | congruence].
Qed.

Lemma includes_prefix (s h : string) : String.prefix s h = true -> includes s h = true.
Proof.
  intros Hp. destruct h; cbn [includes]; rewrite Hp; reflexivity.
Qed.

Lemma includes_middle (a s b : string) : includes s (a ++ s ++ b) = true.
Proof.
  induction a as [|c a IH].
  - change ("" ++ s ++ b) with (s ++ b). apply includes_prefix, prefix_app.
  - change (String c a ++ s ++ b) with (String c (a ++ s ++ b)).
    cbn [includes].
    destruct (String.prefix s (String c (a ++ s ++ b))); [reflexivity | exact IH].
Qed.

Context {A : Type}.

Lemma In_slice (x : A) (start stop : Z) (l : list A) :
  In x (slice start stop l) -> In x l.
Proof.
  unfold slice. intros Hin.
  apply list_elem_of_In in Hin. apply list_elem_of_In.
  apply elem_of_take in Hin as (i & Hi & _).
  rewrite lookup_drop in Hi.
  eapply list_elem_of_lookup_2; eauto.
Qed.

Lemma slice_0_firstn (n : Z) (l : list A) :
  0 <= n -> slice 0 n l = firstn (Z.to_nat n) l.
Proof.
  intros Hn. unfold slice, relative_index.
  apply Z.ltb_ge in Hn. rewrite Hn. apply Z.ltb_ge in Hn.
  change (0 <? 0) with false. cbv iota.
  rewrite (Z.min_l 0) by lia. rewrite Z.sub_0_r. change (skipn (Z.to_nat 0) l) with l.
  destruct (Z.min_spec n (Z.of_nat (length l))) as [[_ ->]|[Hle ->]].
  - reflexivity.
  - rewrite Nat2Z.id, firstn_all. symmetry. apply firstn_all2. lia.
Qed.

Lemma sort_insert_In (c : A -> A -> Q) (x y : A) (l : list A) :
  In y (sort_insert c x l) <-> y = x \/ In y l.
Proof.
  induction l as [|z l IH]; simpl.
  - intuition.
  - destruct (Qltb 0 (c x z)); simpl; [rewrite IH|]; intuition.
Qed.

Lemma sort_In (c : A -> A -> Q) (y : A) (l : list A) :
  In y (sort c l) <-> In y l.
Proof.
  induction l as [|x l IH]; simpl; [tauto|].
  rewrite sort_insert_In, IH. intuition.
Qed.

Lemma length_sort_insert (c : A -> A -> Q) (x : A) (l : list A) :
  length (sort_insert c x l) = S (length l).
Proof.
  induction l as [|z l IH]; simpl; [reflexivity|].
  destruct (Qltb 0 (c x z)); simpl; [rewrite IH|]; reflexivity.
Qed.

Lemma length_sort (c : A -> A -> Q) (l : list A) : length (sort c l) = length l.
Proof.
  induction l as [|x l IH]; simpl; [reflexivity|].
  rewrite length_sort_insert, IH. reflexivity.
Qed.

Variable key : A -> Q.

Lemma sort_insert_descending (x : A) (l : list A) :
  descending key l -> descending key (sort_insert (by_key_descending key) x l).
Proof.
  induction 1 as [|z l Hz Hl IH]; simpl.
  - constructor; constructor.
  - unfold by_key_descending at 1.
    destruct (Qltb 0 (key z - key x)) eqn:E.
    + apply Qltb_lt in E.
      assert (Hxz : (key x <= key z)%Q).
      { apply Qlt_le_weak. apply Qlt_minus_iff. exact E. }
      constructor; [|exact IH].
      apply List.Forall_forall. intros y Hy.
      apply sort_insert_In in Hy as [->|Hy]; [exact Hxz|].
      rewrite List.Forall_forall in Hz. auto.
    + apply Qltb_false_le in E.
      assert (Hzx : (key z <= key x)%Q).
      { apply Qle_minus_iff. apply (Qplus_le_l _ _ (key z - key x)).
        ring_simplify. exact E. }
      constructor; [|constructor; assumption].
      constructor; [exact Hzx|].
      eapply List.Forall_impl; [|exact Hz].
      intros y Hy. simpl in Hy. eapply Qle_trans; eauto.
Qed.

Lemma sort_descending (l : list A) : descending key (sort (by_key_descending key) l).
Proof.
  induction l as [|x l IH]; simpl.
  - constructor.
  - apply sort_insert_descending, IH.
Qed.

Lemma sort_head_max (l : list A) (best : A) (rest : list A) :
  sort (by_key_descending key) l = best :: rest ->
  Forall (fun y => (key y <= key best)%Q) rest.
Proof.
  intros E. pose proof (sort_descending l) as Hd.
  rewrite E in Hd. inversion Hd; assumption.
Qed.

Lemma clamp_unit (x : Q) : (0 <= clamp x 0 1 <= 1)%Q.
Proof.
  unfold clamp. split.
  - apply Q.min_glb; [apply Q.le_max_r|discriminate].
  - apply Q.le_min_r.
Qed.

End Primitives.

(** ** Doubles and the printing of a number with a fixed number of digits *)

Section Doubles.

Lemma pow2_pos (e : Z) : (0 < pow2 e)%Q.
Proof.
  unfold pow2. destruct (e <? 0) eqn:E.
  - reflexivity.
  - apply Z.ltb_ge in E. unfold Qlt. simpl.
    pose proof (Z.pow_pos_nonneg 2 e). lia.
Qed.

Lemma pow2_le_1 (e : Z) : e <= 0 -> (pow2 e <= 1)%Q.
Proof.
  intros He. unfold pow2. destruct (e <? 0) eqn:E.
  - unfold Qle. simpl. lia.
  - apply Z.ltb_ge in E. replace e with 0 by lia. discriminate.
Qed.

Lemma round_half_even_bounds (x : Q) :
  (0 <= x)%Q -> 0 <= round_half_even x /\ (inject_Z (round_half_even x) <= x + 1)%Q.
Proof.
  intros Hx.
  assert (Hf : 0 <= Qfloor x).
  { change 0 with (Qfloor 0). apply Qfloor_resp_le. exact Hx. }
  pose proof (Qfloor_le x) as Hle.
  assert (Hup : (inject_Z (Qfloor x + 1) <= x + 1)%Q).
  { rewrite inject_Z_plus. apply Qplus_le_compat; [exact Hle|apply Qle_refl]. }
  assert (Hlow : (inject_Z (Qfloor x) <= x + 1)%Q).
  { eapply Qle_trans; [exact Hle|]. rewrite <- (Qplus_0_r x) at 1.
    apply Qplus_le_compat; [apply Qle_refl|discriminate]. }
  unfold round_half_even.
  destruct (x - inject_Z (Qfloor x) ?= 1 # 2)%Q; [destruct (Z.even (Qfloor x))|..];
    split; solve [lia | assumption].
Qed.

Lemma floor_log2_le (q : Q) :
  (0 < q)%Q -> (q <= inject_Z (2 ^ 52))%Q -> floor_log2 q <= 52.
Proof.
  intros Hpos Hq. destruct q as [n d]. unfold Qlt, Qle in *.
  cbn [Qnum Qden inject_Z] in *.
  assert (Hl : Z.log2 n <= Z.log2 (Z.pos d * 2 ^ 52)).
  { apply Z.log2_le_mono. rewrite (Z.mul_comm (Z.pos d)), <- (Z.mul_1_r n). exact Hq. }
  rewrite Z.log2_mul_pow2 in Hl by lia.
  unfold floor_log2. cbn [Qnum Qden]. destruct (Qle_bool _ _); lia.
Qed.

Lemma to_double_bounds (q : Q) :
  (0 <= q)%Q -> (q <= inject_Z (2 ^ 52))%Q ->
  (0 <= to_double q)%Q /\ (to_double q <= q + 1)%Q.
Proof.
  intros H0 Hq. unfold to_double.
  destruct (Qeq_bool q 0) eqn:Ez.
  - split; [apply Qle_refl|]. lra.
  - assert (Hpos : (0 < q)%Q).
    { apply Qle_lteq in H0. destruct H0 as [Hlt|Heq]; [exact Hlt|].
      symmetry in Heq. apply Qeq_bool_iff in Heq. congruence. }
    replace (Qltb q 0) with false by (symmetry; apply Qltb_false_le; exact H0).
    rewrite Qred_correct.
    replace (Qabs q) with q.
    2:{ destruct q as [n d]. unfold Qabs. f_equal. symmetry. apply Z.abs_eq.
        unfold Qle in H0. simpl in H0. lia. }
    set (e := Z.max (floor_log2 q - 52) (-1074)).
    assert (He : e <= 0).
    { pose proof (floor_log2_le q Hpos Hq). unfold e. lia. }
    pose proof (pow2_pos e) as Hp. pose proof (pow2_le_1 e He) as Hp1.
    assert (Hx : (0 <= q / pow2 e)%Q).
    { apply Qle_shift_div_l; [exact Hp|]. lra. }
    destruct (round_half_even_bounds _ Hx) as [Hm0 Hm1].
    set (m := round_half_even (q / pow2 e)) in *.
    assert (Hmq : (0 <= inject_Z m)%Q).
    { unfold Qle. simpl. lia. }
    split.
    + apply Qmult_le_0_compat; [exact Hmq|lra].
    + assert (Hmul : (inject_Z m * pow2 e <= (q / pow2 e + 1) * pow2 e)%Q).
      { apply Qmult_le_compat_r; [exact Hm1|lra]. }
      assert (Heq : ((q / pow2 e + 1) * pow2 e == q + pow2 e)%Q).
      { field. lra. }
      rewrite Heq in Hmul. lra.
Qed.

Lemma Number_times_100_bounds (c : Q) :
  (0 <= c)%Q -> (c <= 1)%Q ->
  (0 <= Number_times c 100)%Q /\ (Number_times c 100 <= 201)%Q.
Proof.
  intros H0 H1. unfold Number_times.
  assert (Hc : (c <= inject_Z (2 ^ 52))%Q).
  { eapply Qle_trans; [exact H1|]. discriminate. }
  destruct (to_double_bounds c H0 Hc) as [Ha Hb].
  change (to_double 100) with 100%Q.
  assert (Hp0 : (0 <= to_double c * 100)%Q) by lra.
  assert (Hp1 : (to_double c * 100 <= inject_Z (2 ^ 52))%Q).
  { apply Qle_trans with 200%Q; [lra|discriminate]. }
  destruct (to_double_bounds _ Hp0 Hp1) as [Hr0 Hr1].
  split; [exact Hr0|lra].
Qed.

End Doubles.

Section DoubleError.

Lemma pow2_Qpower (e : Z) : (pow2 e == 2 ^ e)%Q.
Proof.
  unfold pow2. destruct (e <? 0) eqn:E.
  - apply Z.ltb_lt in E. destruct e as [|p|p]; try lia.
    change (- Z.neg p) with (Z.pos p).
    change ((2 : Q) ^ Z.neg p)%Q with (/ ((2 : Q) ^ Z.pos p))%Q.
    rewrite <- (Zpower_Qpower 2 (Z.pos p)) by lia.
    pose proof (Z.pow_pos_nonneg 2 (Z.pos p) ltac:(lia) ltac:(lia)) as Hp.
    destruct (2 ^ Z.pos p) as [|z|z] eqn:Ez; try lia. reflexivity.
  - apply Z.ltb_ge in E. apply Zpower_Qpower. exact E.
Qed.

Lemma pow2_add (a b : Z) : (pow2 (a + b) == pow2 a * pow2 b)%Q.
Proof. rewrite !pow2_Qpower. apply Qpower_plus. discriminate. Qed.

Lemma pow2_nonneg (e : Z) : 0 <= e -> pow2 e = inject_Z (2 ^ e).
Proof.
  intros He. unfold pow2. replace (e <? 0) with false by (symmetry; apply Z.ltb_ge; exact He).
  reflexivity.
Qed.

(** [floor_log2] from below. *)
Lemma floor_log2_lower (q : Q) : (0 < q)%Q -> (pow2 (floor_log2 q) <= q)%Q.
Proof.
  intros Hq. unfold floor_log2.
  set (k := Z.log2 (Qnum q) - Z.log2 (Z.pos (Qden q))).
  destruct (Qle_bool (pow2 k) q) eqn:E; [apply Qle_bool_iff; exact E|].
  destruct q as [n d]. cbn [Qnum Qden] in *.
  assert (Hn : 0 < n) by (unfold Qlt in Hq; simpl in Hq; lia).
  pose proof (Z.log2_spec n Hn) as [Hn1 _].
  pose proof (Z.log2_spec (Z.pos d) ltac:(lia)) as [_ Hd2].
  pose proof (Z.log2_nonneg n) as Ha. pose proof (Z.log2_nonneg (Z.pos d)) as Hb.
  set (a := Z.log2 n) in *. set (b := Z.log2 (Z.pos d)) in *.
  assert (Hsplit : (pow2 (k - 1) * inject_Z (2 ^ Z.succ b) == inject_Z (2 ^ a))%Q).
  { rewrite <- (pow2_nonneg (Z.succ b)), <- (pow2_nonneg a) by lia.
    rewrite <- pow2_add. replace (k - 1 + Z.succ b) with a by (unfold k; lia). reflexivity. }
  pose proof (pow2_pos (k - 1)) as Hp.
  assert (Hd : (inject_Z (Z.pos d) <= inject_Z (2 ^ Z.succ b))%Q).
  { rewrite <- Zle_Qle. lia. }
  assert (Hna : (inject_Z (2 ^ a) <= inject_Z n)%Q).
  { rewrite <- Zle_Qle. exact Hn1. }
  assert (Hmul : (pow2 (k - 1) * inject_Z (Z.pos d) <= inject_Z n)%Q).
  { eapply Qle_trans; [|exact Hna]. rewrite <- Hsplit.
    apply Qmult_le_l; [exact Hp|exact Hd]. }
  assert (Hq' : (n # d == inject_Z n / inject_Z (Z.pos d))%Q).
  { rewrite (Qmake_Qdiv n d). reflexivity. }
  rewrite Hq'. apply Qle_shift_div_l; [reflexivity|exact Hmul].
Qed.

Lemma round_half_even_error (x : Q) :
  (x - (1 # 2) <= inject_Z (round_half_even x) <= x + (1 # 2))%Q.
Proof.
  pose proof (Qfloor_le x) as Hlo. pose proof (Qlt_floor x) as Hhi.
  rewrite inject_Z_plus in Hhi. change (inject_Z 1) with 1%Q in Hhi.
  unfold round_half_even.
  destruct (x - inject_Z (Qfloor x) ?= 1 # 2)%Q eqn:E.
  - apply Qeq_alt in E.
    destruct (Z.even (Qfloor x)); [|rewrite inject_Z_plus; change (inject_Z 1) with 1%Q];
      split; lra.
  - apply Qlt_alt in E. split; lra.
  - apply Qgt_alt in E. rewrite inject_Z_plus. change (inject_Z 1) with 1%Q. split; lra.
Qed.

(** The distance of a positive number from its double: at most the
    fraction [2^-53] of the number, or [2^-1075] for a number so small that
    its double is a multiple of [2^-1074]. *)
Lemma to_double_error (q : Q) :
  (0 < q)%Q ->
  (q - (q * pow2 (-53) + pow2 (-1075)) <= to_double q
   <= q + (q * pow2 (-53) + pow2 (-1075)))%Q.
Proof.
  intros Hq. unfold to_double.
  replace (Qeq_bool q 0) with false.
  2:{ symmetry. apply not_true_is_false. intros Hb. apply Qeq_bool_iff in Hb.
      rewrite Hb in Hq. discriminate Hq. }
  replace (Qltb q 0) with false by (symmetry; apply Qltb_false_le; lra).
  rewrite Qred_correct.
  replace (Qabs q) with q.
  2:{ destruct q as [n d]. unfold Qabs. f_equal. symmetry. apply Z.abs_eq.
      unfold Qlt in Hq. simpl in Hq. lia. }
  set (k := floor_log2 q).
  pose proof (floor_log2_lower q Hq) as Hk. fold k in Hk.
  set (e := Z.max (k - 52) (-1074)).
  pose proof (pow2_pos e) as He.
  pose proof (round_half_even_error (q / pow2 e)) as [Hlo Hhi].
  set (m := inject_Z (round_half_even (q / pow2 e))) in *.
  assert (Hs : (q / pow2 e * pow2 e == q)%Q) by (field; lra).
  assert (Hlo' : ((q / pow2 e - (1 # 2)) * pow2 e <= m * pow2 e)%Q)
    by (apply Qmult_le_compat_r; [exact Hlo|lra]).
  assert (Hhi' : (m * pow2 e <= (q / pow2 e + (1 # 2)) * pow2 e)%Q)
    by (apply Qmult_le_compat_r; [exact Hhi|lra]).
  assert (Hhalf : (pow2 e * (1 # 2) <= q * pow2 (-53) + pow2 (-1075))%Q).
  { assert (H1 : (pow2 (-1) == 1 # 2)%Q) by reflexivity.
    rewrite <- H1, <- pow2_add.
    pose proof (pow2_pos (-1075)) as Ht. pose proof (pow2_pos (-53)) as Hu.
    destruct (Z.max_spec (k - 52) (-1074)) as [[_ Hm]|[_ Hm]]; fold e in Hm; rewrite Hm.
    - change (-1074 + -1) with (-1075).
      assert (0 <= q * pow2 (-53))%Q by (apply Qmult_le_0_compat; lra). lra.
    - replace (k - 52 + -1) with (k + -53) by lia. rewrite pow2_add.
      assert (pow2 k * pow2 (-53) <= q * pow2 (-53))%Q
        by (apply Qmult_le_compat_r; [exact Hk|lra]).
      lra. }
  assert (Ea : ((q / pow2 e - (1 # 2)) * pow2 e == q - pow2 e * (1 # 2))%Q)
    by (field; lra).
  assert (Eb : ((q / pow2 e + (1 # 2)) * pow2 e == q + pow2 e * (1 # 2))%Q)
    by (field; lra).
  rewrite Ea in Hlo'. rewrite Eb in Hhi'. split; lra.
Qed.

End DoubleError.

Section FixedDigits.

Context `{Host}.

Lemma length_append (a b : string) :
  String.length (a ++ b) = (String.length a + String.length b)%nat.
Proof. induction a as [|c a IH]; simpl; [reflexivity|]. rewrite IH. reflexivity. Qed.

Lemma substring_all (b : string) : substring 0 (String.length b) b = b.
Proof. induction b as [|c b IH]; simpl; [reflexivity|]. rewrite IH. reflexivity. Qed.

Lemma substring_prefix (a b : string) : substring 0 (String.length a) (a ++ b) = a.
Proof.
  induction a as [|c a IH]; simpl.
  - destruct b; reflexivity.
  - rewrite IH. reflexivity.
Qed.

Lemma substring_suffix (a b : string) :
  substring (String.length a) (String.length b) (a ++ b) = b.
Proof. induction a as [|c a IH]; simpl; [apply substring_all|exact IH]. Qed.

Lemma pretty_N_go_app (x : N) : forall s, pretty_N_go x s = pretty_N_go x "" ++ s.
Proof.
  induction (N.lt_wf_0 x) as [x _ IH]. intros s.
  destruct (N.eq_dec x 0%N) as [->|Hx].
  - rewrite !pretty_N_go_0. reflexivity.
  - rewrite (pretty_N_go_step x s), (pretty_N_go_step x "") by lia.
    assert (Hlt : (x / 10 < x)%N) by (apply N.div_lt; lia).
    rewrite (IH _ Hlt (String _ s)), (IH _ Hlt (String _ "")).
    rewrite append_assoc. reflexivity.
Qed.

Lemma pretty_digit (r : N) : (r < 10)%N -> pretty r = String (pretty_N_char r) "".
Proof.
  intros Hr.
  assert (Hc : (r = 0 \/ r = 1 \/ r = 2 \/ r = 3 \/ r = 4 \/ r = 5 \/ r = 6 \/ r = 7
                \/ r = 8 \/ r = 9)%N) by lia.
  repeat (destruct Hc as [->|Hc]; [reflexivity|]). subst r. reflexivity.
Qed.

Lemma pretty_N_split (x : N) :
  (10 <= x)%N -> pretty x = pretty (x / 10)%N ++ pretty (x mod 10)%N.
Proof.
  intros Hx. unfold pretty at 1 2, pretty_N.
  destruct (decide (x = 0%N)) as [->|_]; [lia|].
  destruct (decide ((x / 10)%N = 0%N)) as [E|_].
  { apply N.div_small_iff in E; lia. }
  rewrite pretty_N_go_step by lia. rewrite pretty_N_go_app.
  rewrite pretty_digit by (apply N.mod_lt; lia). reflexivity.
Qed.

Lemma digits_split (n : Z) : 10 <= n -> digits n = digits (n / 10) ++ digits (n mod 10).
Proof.
  intros Hn. unfold digits.
  rewrite Z2N.inj_div, Z2N.inj_mod by lia.
  apply pretty_N_split. change 10%N with (Z.to_N 10). apply Z2N.inj_le; lia.
Qed.

Lemma digits_digit (n : Z) : 0 <= n < 10 -> String.length (digits n) = 1%nat.
Proof.
  intros Hn. unfold digits. rewrite pretty_digit; [reflexivity|].
  change 10%N with (Z.to_N 10). apply Z2N.inj_lt; lia.
Qed.

Lemma digits_not_empty (n : Z) : (1 <= String.length (digits n))%nat.
Proof.
  unfold digits. generalize (Z.to_N n). intros x.
  destruct (N.lt_ge_cases x 10) as [Hx|Hx].
  - rewrite pretty_digit by exact Hx. simpl. lia.
  - rewrite pretty_N_split by exact Hx. rewrite length_append.
    rewrite (pretty_digit (x mod 10)%N) by (apply N.mod_lt; lia). simpl. lia.
Qed.

(** [x.toFixed(1)] for a number that is not negative and below [10^21]:
    the digits of the nearest number of tenths, the larger one on a tie,
    with the point before the last digit. *)
Lemma toFixed_1_digits (x : Q) :
  (0 <= x)%Q -> (x < inject_Z (10 ^ 21))%Q ->
  let tenths := Qfloor (x * 10 + (1 # 2)) in
  toFixed 1 x = digits (tenths / 10) ++ "." ++ digits (tenths mod 10).
Proof.
  intros H0 Hx tenths. unfold toFixed.
  replace (Qabs x) with x.
  2:{ destruct x as [n d]. unfold Qabs. f_equal. symmetry. apply Z.abs_eq.
      unfold Qle in H0. simpl in H0. lia. }
  replace (Qle_bool (inject_Z (10 ^ 21)) x) with false.
  2:{ symmetry. apply not_true_is_false. intros Hb. apply Qle_bool_iff in Hb.
      exact (Qlt_not_le _ _ Hx Hb). }
  replace (Qltb x 0) with false by (symmetry; apply Qltb_false_le; exact H0).
  change (Qfloor (x * inject_Z (10 ^ Z.of_nat 1) + (1 # 2))) with tenths.
  assert (Ht : 0 <= tenths).
  { change 0 with (Qfloor 0). apply Qfloor_resp_le. lra. }
  cbv zeta. destruct (Z.lt_ge_cases tenths 10) as [Hs|Hl].
  - rewrite (Z.div_small tenths 10), (Z.mod_small tenths 10) by lia.
    pose proof (digits_digit tenths (conj Ht Hs)) as Hlen.
    destruct (digits tenths) as [|c [|c' m]]; try discriminate Hlen. reflexivity.
  - rewrite (digits_split tenths Hl).
    pose proof (digits_not_empty (tenths / 10)) as Ha.
    assert (Hb : String.length (digits (tenths mod 10)) = 1%nat).
    { apply digits_digit. apply Z.mod_pos_bound. lia. }
    rewrite length_append, Hb.
    replace (String.length (digits (tenths / 10)) + 1 <=? 1)%nat with false
      by (symmetry; apply Nat.leb_gt; lia).
    rewrite length_append, Hb.
    replace (String.length (digits (tenths / 10)) + 1 - 1)%nat
      with (String.length (digits (tenths / 10))) by lia.
    rewrite substring_prefix.
    pose proof (substring_suffix (digits (tenths / 10)) (digits (tenths mod 10))) as Hs.
    rewrite Hb in Hs. rewrite Hs. reflexivity.
Qed.

End FixedDigits.

(** ** The intent router *)

Section RouterFacts.

Import Router.
Context `{Host}.
Variable config : RouterConfig.
Variable toolSimilarity : nat -> ToolDefinition -> completion (list Q * Q).

Abbreviation matchTools := (Router.matchTools config toolSimilarity).
Abbreviation route := (Router.route config toolSimilarity).

Lemma matchTools_from_above_threshold (tools : list ToolDefinition) :
  forall i matches,
    matchTools_from config toolSimilarity i tools = Normal matches ->
    Forall (fun m => (similarityThreshold config <= score m)%Q) matches.
Proof.
  induction tools as [|t tools IH]; intros i matches Hm; simpl in Hm.
  - injection Hm as <-. constructor.
  - destruct (toolSimilarity i t) as [[emb s]|]; simpl in Hm; [|discriminate].
    destruct (matchTools_from config toolSimilarity (S i) tools) as [ms|] eqn:E;
      simpl in Hm; [|discriminate].
    injection Hm as <-. specialize (IH _ _ E).
    destruct (Qle_bool (similarityThreshold config) s) eqn:Ht; [|exact IH].
    constructor; [|exact IH].
    simpl. apply Qle_bool_iff. exact Ht.
Qed.

(** [matchTools] returns the candidates of the catalog, in the order of
    the catalog, each as the match record of its tool. *)
Lemma matchTools_from_candidates (tools : list ToolDefinition) :
  forall i matches,
    matchTools_from config toolSimilarity i tools = Normal matches ->
    Forall2 (match_of toolSimilarity) matches
            (candidates_from config toolSimilarity i tools).
Proof.
  induction tools as [|t tools IH]; intros i matches Hm; simpl in Hm.
  - injection Hm as <-. constructor.
  - unfold candidates_from. cbn [length seq combine List.filter].
    unfold reaches_threshold at 1. cbn [fst snd].
    destruct (toolSimilarity i t) as [[emb s]|] eqn:Ea; simpl in Hm; [|discriminate].
    destruct (matchTools_from config toolSimilarity (S i) tools) as [ms|] eqn:E;
      simpl in Hm; [|discriminate].
    injection Hm as <-. specialize (IH _ _ E). cbn [snd].
    destruct (Qle_bool (similarityThreshold config) s); [|exact IH].
    constructor; [|exact IH].
    unfold match_of. cbn [tool score embedding fst snd]. auto.
Qed.

(** The confidence of a match is a value of the final [clamp] of
    [calculateConfidence]. *)
Lemma matchTools_from_confidence_unit (tools : list ToolDefinition) :
  forall i matches,
    matchTools_from config toolSimilarity i tools = Normal matches ->
    Forall (fun m => (0 <= confidence m <= 1)%Q) matches.
Proof.
  induction tools as [|t tools IH]; intros i matches Hm; simpl in Hm.
  - injection Hm as <-. constructor.
  - destruct (toolSimilarity i t) as [[emb s]|]; simpl in Hm; [|discriminate].
    destruct (matchTools_from config toolSimilarity (S i) tools) as [ms|] eqn:E;
      simpl in Hm; [|discriminate].
    injection Hm as <-. specialize (IH _ _ E).
    destruct (Qle_bool (similarityThreshold config) s); [|exact IH].
    constructor; [|exact IH].
    cbn [confidence]. unfold calculateConfidence. apply clamp_unit.
Qed.

Lemma matchTools_confidence_unit (tools : list ToolDefinition) (matches : list ToolMatch) :
  matchTools tools = Normal matches ->
  Forall (fun m => (0 <= confidence m <= 1)%Q) matches.
Proof. apply matchTools_from_confidence_unit. Qed.

(** What a successful call of [route] is made of. *)
Lemma route_success_inv (clock : RouteClock) (req : RouteRequest) (d : RoutingDecision) :
  decision (route clock req) = Some d ->
  exists matches best rest,
    matchTools (route_availableTools req) = Normal matches /\
    sort (by_key_descending score)
      (List.filter (fun m => Qle_bool (effective_minConfidence config (options req)) (confidence m))
         matches) = best :: rest /\
    selectedTool d = tool best /\
    decision_confidence d = confidence best /\
    fallbackTools d =
      map tool (slice 1 (effective_maxAlternatives config (options req) + 1) (best :: rest)) /\
    requiresApproval d = Qltb (confidence best) (8 # 10) /\
    approvalReason d =
      (if Qltb (confidence best) (8 # 10)
       then Some ("Low confidence (" ++ toFixed 1 (Number_times (confidence best) 100) ++ "%)")
       else None).
Proof.
  unfold Router.route, Router.route_result. intros Hd.
  destruct (Router.matchTools config toolSimilarity (route_availableTools req))
    as [matches|e] eqn:Em; [|discriminate].
  destruct (length _ =? 0)%nat; [discriminate|].
  destruct (sort _ _) as [|best rest] eqn:Es; [discriminate|].
  simpl in Hd. injection Hd as <-.
  exists matches, best, rest. simpl. repeat split; try reflexivity. exact Es.
Qed.

(** What a NO_MATCH answer of [route] is made of. *)
Lemma route_no_match_inv (clock : RouteClock) (req : RouteRequest) (e : RouteError) :
  error (route clock req) = Some e -> code e = "NO_MATCH" ->
  exists matches,
    matchTools (route_availableTools req) = Normal matches /\
    List.filter (fun m => Qle_bool (effective_minConfidence config (options req)) (confidence m))
      matches = [] /\
    alternatives (route clock req) = slice 0 3 matches.
Proof.
  unfold Router.route, Router.route_result.
  destruct (Router.matchTools config toolSimilarity (route_availableTools req))
    as [matches|err] eqn:Em.
  - destruct (List.filter _ matches) as [|v vs] eqn:Ef.
    + intros _ _. exists matches. simpl. auto.
    + cbn [length Nat.eqb].
      destruct (sort _ (v :: vs)); simpl; intros He Hc;
        first [discriminate He | injection He as <-; discriminate Hc].
  - simpl. intros He Hc. injection He as <-. discriminate Hc.
Qed.

End RouterFacts.

Section RouterServiceFacts.

Import Router.
Context `{Host}.
Variable config : RouterConfig.
Variable Math_sin : Q -> Q.
Variable Math_sqrt : Q -> Q.
Variable cacheClock : nat -> Z * Z.
Variable intentEmbedding : list Q.

Abbreviation embedTool := (Router.embedTool Math_sin Math_sqrt cacheClock).
Abbreviation service_at := (Router.service_at Math_sin Math_sqrt cacheClock).

(** The loop with the service is the loop over the answers of an oracle
    that agrees with the service at every position the loop visits. *)
Lemma matchTools_service_oracle
    (oracle : nat -> ToolDefinition -> completion (list Q * Q))
    (tools : list ToolDefinition) :
  forall i svc,
    (forall k t, nth_error tools k = Some t ->
       oracle (i + k)%nat t
       = let e := Embeddings.embedding
                    (fst (embedTool (i + k)%nat t (service_at i tools svc k))) in
         bind (Embeddings.calculateSimilarity Math_sqrt intentEmbedding e)
              (fun similarity => Normal (e, similarity))) ->
    fst (matchTools_service config Math_sin Math_sqrt cacheClock i intentEmbedding tools svc)
    = matchTools_from config oracle i tools.
Proof.
  induction tools as [|t rest IH]; intros i svc Hor; [reflexivity|].
  cbn [matchTools_service matchTools_from].
  pose proof (Hor 0%nat t eq_refl) as H0.
  rewrite Nat.add_0_r in H0. cbn [Router.service_at] in H0. cbv zeta in H0.
  rewrite H0. clear H0.
  destruct (embedTool i t svc) as [toolEmbedding svc'] eqn:Ee. cbn [fst].
  destruct (Embeddings.calculateSimilarity Math_sqrt intentEmbedding
              (Embeddings.embedding toolEmbedding)) as [similarity|e]; [|reflexivity].
  cbn [bind fst snd].
  specialize (IH (S i) svc').
  destruct (matchTools_service config Math_sin Math_sqrt cacheClock (S i) intentEmbedding
              rest svc') as [later svc''].
  cbn [fst] in *. rewrite <- IH; [reflexivity|].
  intros k t' Hk. specialize (Hor (S k) t' Hk).
  cbn [Router.service_at] in Hor. rewrite Ee in Hor. cbn [snd] in Hor.
  rewrite <- Nat.add_succ_comm in Hor. exact Hor.
Qed.

Lemma matchTools_service_answers (tools : list ToolDefinition)
    (svc : Embeddings.EmbeddingService) :
  fst (matchTools_service config Math_sin Math_sqrt cacheClock 0 intentEmbedding tools svc)
  = Router.matchTools config
      (service_answers Math_sin Math_sqrt cacheClock intentEmbedding tools svc) tools.
Proof.
  apply matchTools_service_oracle. intros k t _. reflexivity.
Qed.

End RouterServiceFacts.

(** [route] with the embedding service of the repository is [route] for the
    answers that service gives, so what is proved of [route] for every
    answer holds of it. *)
Lemma route_service_route `{Host} (config : Router.RouterConfig) (Math_sin Math_sqrt : Q -> Q)
    (cacheClock : nat -> Z * Z) (intentClock : Z * Z) (clock : Router.RouteClock)
    (req : Router.RouteRequest) (svc : Embeddings.EmbeddingService) (i : NormalizedIntent) :
  normalizedIntent (Router.request req) = Some i ->
  let embedded :=
    Embeddings.embedIntent Math_sin Math_sqrt (fst intentClock) (snd intentClock) i svc in
  fst (Router.route_service config Math_sin Math_sqrt cacheClock intentClock clock req svc)
  = Router.route config
      (Router.service_answers Math_sin Math_sqrt cacheClock
         (Embeddings.embedding (fst embedded)) (Router.route_availableTools req)
         (snd embedded))
      clock req.
Proof.
  intros Hi embedded. unfold Router.route_service, Router.route. rewrite Hi.
  fold embedded. destruct embedded as [ie svc1]. cbn [fst snd].
  rewrite <- matchTools_service_answers.
  destruct (Router.matchTools_service _ _ _ _ _ _ _ _) as [matched svc2]. reflexivity.
Qed.

Section RouterClaims.

Import Router.
Context `{Host}.
Variable config : RouterConfig.
Variable toolSimilarity : nat -> ToolDefinition -> completion (list Q * Q).

Abbreviation matchTools := (Router.matchTools config toolSimilarity).
Abbreviation route := (Router.route config toolSimilarity).

(** C1, as amended. When [route] returns a decision, the selected tool and
    the fallback tools are tools of matches computed by [matchTools]; the
    score of the selected match is at least the similarity threshold and at
    least the score of every fallback match. A fallback may score exactly as
    much as the selected tool. *)
Theorem route_selected_score_bounds
  (clock : RouteClock) (req : RouteRequest) (d : RoutingDecision) :
  decision (route clock req) = Some d ->
  exists matches best fallbacks,
    matchTools (route_availableTools req) = Normal matches /\
    In best matches /\ incl fallbacks matches /\
    selectedTool d = tool best /\
    fallbackTools d = map tool fallbacks /\
    (similarityThreshold config <= score best)%Q /\
    Forall (fun m => (score m <= score best)%Q) fallbacks.
Proof.
  intros Hd.
  destruct (route_success_inv _ _ _ _ _ Hd)
    as (matches & best & rest & Hm & Hs & Hsel & _ & Hfb & _).
  set (valid := List.filter _ matches) in Hs.
  assert (Hsorted : forall m, In m (best :: rest) -> In m matches).
  { intros m Hin. rewrite <- Hs in Hin. apply sort_In in Hin.
    apply List.filter_In in Hin. tauto. }
  exists matches, best,
    (slice 1 (effective_maxAlternatives config (options req) + 1) (best :: rest)).
  split; [exact Hm|]. split; [|split; [|split; [exact Hsel|split; [exact Hfb|split]]]].
  - apply Hsorted. left. reflexivity.
  - intros m Hin. apply Hsorted. eapply In_slice. exact Hin.
  - pose proof (matchTools_from_above_threshold _ _ _ _ _ Hm) as Hall.
    rewrite List.Forall_forall in Hall. apply Hall, Hsorted. left. reflexivity.
  - apply List.Forall_forall. intros m Hin. apply In_slice in Hin.
    destruct Hin as [<-|Hin]; [apply Qle_refl|].
    pose proof (sort_head_max _ _ _ _ Hs) as Hmax.
    rewrite List.Forall_forall in Hmax. auto.
Qed.

(** C2. In every decision returned by [route], [requiresApproval] holds
    exactly when the confidence is below 0.8. When it holds, the approval
    reason is the text "Low confidence (P%)", where P is the confidence
    times 100, the product of doubles, printed with one fraction digit: the
    digits of the nearest number of tenths with the point before the last
    one. For the confidence 0.72 the reason contains "72.0%". When
    [requiresApproval] does not hold there is no approval reason. *)
Theorem route_requires_approval_iff
  (clock : RouteClock) (req : RouteRequest) (d : RoutingDecision) :
  decision (route clock req) = Some d ->
  let percent := Number_times (decision_confidence d) 100 in
  let tenths := Qfloor (percent * 10 + (1 # 2)) in
  (requiresApproval d = true <-> (decision_confidence d < 8 # 10)%Q) /\
  (requiresApproval d = true ->
   approvalReason d
   = Some ("Low confidence (" ++ digits (tenths / 10) ++ "." ++ digits (tenths mod 10) ++ "%)") /\
   (to_double (decision_confidence d) = to_double (72 # 100) ->
    exists reason, approvalReason d = Some reason /\ includes "72.0%" reason = true)) /\
  (requiresApproval d = false -> approvalReason d = None).
Proof.
  intros Hd percent tenths.
  destruct (route_success_inv _ _ _ _ _ Hd)
    as (matches & best & rest & Hm & Hs & _ & Hconf & _ & Hreq & Hreason).
  assert (Hunit : (0 <= confidence best <= 1)%Q).
  { pose proof (matchTools_confidence_unit _ _ _ _ Hm) as Hall.
    rewrite List.Forall_forall in Hall. apply Hall.
    assert (Hin : In best (best :: rest)) by (left; reflexivity).
    rewrite <- Hs in Hin. apply sort_In in Hin. apply List.filter_In in Hin. tauto. }
  assert (Hfixed : toFixed 1 (Number_times (confidence best) 100)
                   = digits (tenths / 10) ++ "." ++ digits (tenths mod 10)).
  { destruct Hunit as [H0 H1].
    destruct (Number_times_100_bounds _ H0 H1) as [Hp0 Hp1].
    subst tenths percent. rewrite Hconf. apply toFixed_1_digits; [exact Hp0|].
    eapply Qle_lt_trans; [exact Hp1|reflexivity]. }
  rewrite Hreq, Hreason, Hfixed. split; [rewrite Hconf; apply Qltb_lt|]. split.
  - intros ->. split.
    + rewrite !append_assoc. reflexivity.
    + intros Heq. eexists. split; [reflexivity|].
      subst tenths percent. unfold Number_times. rewrite Heq. vm_compute. reflexivity.
  - intros ->. reflexivity.
Qed.

(** C3, as amended. When [route] answers NO_MATCH, [matchTools] has
    returned the candidates of the catalog, in the order of the catalog:
    one match for each tool whose similarity reached the similarity
    threshold. Every one of them has a confidence below the minimum
    confidence, and the alternatives of the answer are the first three of
    them (all when there are fewer). *)
Theorem route_no_match_alternatives
  (clock : RouteClock) (req : RouteRequest) (e : RouteError) :
  error (route clock req) = Some e -> code e = "NO_MATCH" ->
  let found := candidates config toolSimilarity (route_availableTools req) in
  exists matches,
    matchTools (route_availableTools req) = Normal matches /\
    Forall2 (match_of toolSimilarity) matches found /\
    Forall (fun m => (confidence m < effective_minConfidence config (options req))%Q)
           matches /\
    alternatives (route clock req) = firstn 3 matches /\
    Forall2 (match_of toolSimilarity) (alternatives (route clock req)) (firstn 3 found) /\
    length (alternatives (route clock req)) = Nat.min 3 (length found) /\
    Forall (fun m =>
              (similarityThreshold config <= score m)%Q /\
              (confidence m < effective_minConfidence config (options req))%Q)
           (alternatives (route clock req)).
Proof.
  intros He Hc found.
  destruct (route_no_match_inv _ _ _ _ _ He Hc) as (matches & Hm & Hf & Halt).
  assert (Hslice : slice 0 3 matches = firstn 3 matches)
    by (apply (slice_0_firstn 3); lia).
  rewrite Halt, Hslice.
  pose proof (matchTools_from_candidates _ _ _ _ _ Hm) as Hcand.
  fold (candidates config toolSimilarity (route_availableTools req)) in Hcand.
  fold found in Hcand.
  assert (Hlow : Forall (fun m => (confidence m
                                   < effective_minConfidence config (options req))%Q) matches).
  { apply List.Forall_forall. intros m Hin.
    apply Qltb_lt. unfold Qltb.
    destruct (Qle_bool (effective_minConfidence config (options req)) (confidence m)) eqn:E;
      [|reflexivity].
    assert (Hv : In m (List.filter
                         (fun m => Qle_bool (effective_minConfidence config (options req))
                                     (confidence m)) matches)).
    { apply List.filter_In. split; assumption. }
    rewrite Hf in Hv. destruct Hv. }
  exists matches.
  split; [exact Hm|]. split; [exact Hcand|]. split; [exact Hlow|].
  split; [reflexivity|]. split; [|split].
  - apply Forall2_take. exact Hcand.
  - rewrite length_firstn. rewrite (Forall2_length _ _ _ Hcand). reflexivity.
  - pose proof (matchTools_from_above_threshold _ _ _ _ _ Hm) as Habove.
    rewrite List.Forall_forall in *. intros m Hin.
    assert (Hin' : In m matches).
    { rewrite <- (firstn_skipn 3 matches). apply in_or_app. left. exact Hin. }
    auto.
Qed.

End RouterClaims.

Section RouterExamples.

Import Router Examples.

Lemma route_selected_score_bounds_witness :
  exists d,
    decision twin_call = Some d /\
    exists matches best fallbacks,
      @Router.matchTools integer_host default_config (constant_similarity (9 # 10)) twin_tools
        = Normal matches /\
      In best matches /\ incl fallbacks matches /\
      selectedTool d = tool best /\
      fallbackTools d = map tool fallbacks /\
      (similarityThreshold default_config <= score best)%Q /\
      Forall (fun m => (score m <= score best)%Q) fallbacks.
Proof.
  eexists. split.
  - vm_compute. reflexivity.
  - apply (@route_selected_score_bounds integer_host default_config
             (constant_similarity (9 # 10)) clock0 (route_request twin_tools no_options)).
    vm_compute. reflexivity.
Defined.

(** C1 as stated fails: two tools of one name reach the same similarity,
    one is selected and the other is a fallback whose score is not lower. *)
Lemma route_fallback_score_tie :
  exists d best other,
    decision twin_call = Some d /\
    @Router.matchTools integer_host default_config (constant_similarity (9 # 10)) twin_tools
      = Normal [best; other] /\
    selectedTool d = tool best /\
    fallbackTools d = [tool other] /\
    ~ (score other < score best)%Q.
Proof.
  eexists. eexists. eexists.
  split; [vm_compute; reflexivity|].
  split; [vm_compute; reflexivity|].
  split; [reflexivity|]. split; [reflexivity|].
  simpl. apply Qle_not_lt. apply Qle_refl.
Qed.

Lemma route_requires_approval_iff_witness :
  exists d,
    decision low_confidence_call = Some d /\
    (decision_confidence d == 72 # 100)%Q /\
    to_double (decision_confidence d) = to_double (72 # 100) /\
    Number_times (decision_confidence d) 100 = 72%Q /\
    requiresApproval d = true /\
    approvalReason d = Some "Low confidence (72.0%)" /\
    exists reason, approvalReason d = Some reason /\ includes "72.0%" reason = true.
Proof.
  eexists. split; [vm_compute; reflexivity|].
  match goal with
  | |- context [decision_confidence ?d] =>
    assert (Hd : decision low_confidence_call = Some d) by (vm_compute; reflexivity);
    destruct (@route_requires_approval_iff integer_host default_config
                (constant_similarity (734472 # 828100)) clock0
                (route_request [costly_tool "report"] no_options) d Hd)
      as (Hiff & Hreason & _)
  end.
  split; [vm_compute; reflexivity|].
  split; [vm_compute; reflexivity|].
  split; [vm_compute; reflexivity|].
  split; [apply Hiff; vm_compute; reflexivity|].
  split; [vm_compute; reflexivity|].
  apply Hreason; vm_compute; reflexivity.
Defined.

(** The percentage is the product of doubles, not of rationals: at the
    confidence 0.7005 the product is the double just below 70.05 and the
    reason reads 70.0, where the rational 70.05 would print as 70.1. *)
Lemma route_low_confidence_prints_the_double :
  exists d,
    decision rounding_call = Some d /\
    (decision_confidence d == 7005 # 10000)%Q /\
    (Number_times (decision_confidence d) 100 < 7005 # 100)%Q /\
    approvalReason d = Some "Low confidence (70.0%)".
Proof.
  eexists. split; [vm_compute; reflexivity|].
  split; [vm_compute; reflexivity|].
  split; vm_compute; reflexivity.
Qed.

Lemma route_no_match_alternatives_witness :
  exists e,
    error crowded_call = Some e /\ code e = "NO_MATCH" /\
    map fst (candidates default_config (similarity_by_position crowded_similarities)
               crowded_catalog) = [0; 2; 3; 4]%nat /\
    map (fun m => tool_name (tool m)) (alternatives crowded_call)
    = ["report"; "archive"; "print"] /\
    let found := candidates default_config (similarity_by_position crowded_similarities)
                   crowded_catalog in
    exists matches,
      @Router.matchTools integer_host default_config
        (similarity_by_position crowded_similarities) crowded_catalog = Normal matches /\
      Forall2 (match_of (similarity_by_position crowded_similarities)) matches found /\
      Forall (fun m => (confidence m < effective_minConfidence default_config no_options)%Q)
             matches /\
      alternatives crowded_call = firstn 3 matches /\
      Forall2 (match_of (similarity_by_position crowded_similarities))
              (alternatives crowded_call) (firstn 3 found) /\
      length (alternatives crowded_call) = Nat.min 3 (length found) /\
      Forall (fun m =>
                (similarityThreshold default_config <= score m)%Q /\
                (confidence m < effective_minConfidence default_config no_options)%Q)
             (alternatives crowded_call).
Proof.
  eexists. split; [vm_compute; reflexivity|]. split; [reflexivity|].
  split; [vm_compute; reflexivity|]. split; [vm_compute; reflexivity|].
  eapply (@route_no_match_alternatives integer_host default_config
            (similarity_by_position crowded_similarities) clock0
            (route_request crowded_catalog no_options)).
  - vm_compute. reflexivity.
  - reflexivity.
Defined.

(** C3 as stated fails: the alternative carried by this NO_MATCH answer has
    a similarity of 0.86, which is not below the threshold of 0.85. *)
Lemma route_no_match_alternative_above_threshold :
  exists e m,
    error slow_call = Some e /\ code e = "NO_MATCH" /\
    In m (alternatives slow_call) /\
    ~ (score m < similarityThreshold default_config)%Q.
Proof.
  eexists. eexists.
  split; [vm_compute; reflexivity|]. split; [reflexivity|].
  split; [vm_compute; left; reflexivity|].
  simpl. apply Qle_not_lt. discriminate.
Qed.

End RouterExamples.

(** ** The sandbox runtime *)

Section SandboxFacts.

Import Sandbox.

Lemma remove_nth_split {A : Type} (i : nat) (l : list A) (a : A) :
  nth_error l i = Some a ->
  exists l1 l2, l = (l1 ++ a :: l2)%list /\ remove_nth i l = (l1 ++ l2)%list.
Proof.
  revert l. induction i as [|i IH]; intros [|x l] Hn; simpl in Hn; try discriminate.
  - injection Hn as ->. exists [], l. split; reflexivity.
  - destruct (IH _ Hn) as (l1 & l2 & -> & Hr).
    exists (x :: l1), l2. split; [reflexivity|].
    unfold remove_nth in *. simpl. simpl in Hr. rewrite Hr. reflexivity.
Qed.

Lemma held_app (rt : SandboxRuntime) (ts1 ts2 : list Task) :
  held (with_pending (ts1 ++ ts2)%list rt)
  = (held (with_pending ts1 rt) ++ held (with_pending ts2 rt))%list.
Proof. unfold held. simpl. apply flat_map_app. Qed.

Lemma counters_ok_new (cfg : SandboxPoolConfig) : counters_ok (new_runtime cfg).
Proof. unfold counters_ok, live, destroyedCount. simpl. lia. Qed.

(** Removing every pool entry that carries the id of a pooled sandbox
    shortens the pool. *)
Lemma filter_other_ids_shorter (x : Sandbox) (l : list Sandbox) :
  In x l ->
  (length (List.filter (fun s => negb (String.eqb (id s) (id x))) l) < length l)%nat.
Proof.
  induction l as [|y l IH]; intros Hin; [destruct Hin|].
  simpl. destruct Hin as [->|Hin].
  - rewrite String.eqb_refl. simpl.
    pose proof (List.filter_length_le (fun s => negb (String.eqb (id s) (id x))) l). lia.
  - specialize (IH Hin). destruct (negb _); simpl; lia.
Qed.

Lemma getFromPool_miss (rt : SandboxRuntime) : forall rt',
  getFromPool rt = (None, rt') -> rt' = rt.
Proof.
  unfold getFromPool. intros rt'. destruct (sort _ _); intros E; inversion E. reflexivity.
Qed.

Lemma getFromPool_hit (rt : SandboxRuntime) : forall sandbox rt',
  getFromPool rt = (Some sandbox, rt') ->
  (length (pool rt') < length (pool rt))%nat /\
  metrics rt' = metrics rt /\ pending rt' = pending rt /\
  destroyedLog rt' = destroyedLog rt /\ poolConfig rt' = poolConfig rt.
Proof.
  unfold getFromPool. intros sandbox rt'.
  destruct (sort _ _) as [|first rest] eqn:Es; intros E; inversion E; subst; clear E.
  simpl. repeat split.
  apply filter_other_ids_shorter.
  assert (Hin : In first (first :: rest)) by (left; reflexivity).
  rewrite <- Es in Hin. apply sort_In in Hin. apply List.filter_In in Hin. tauto.
Qed.

Lemma counters_ok_returnToPool (sandbox : Sandbox) (rt : SandboxRuntime) :
  activeSandboxes (metrics rt) = totalSandboxes (metrics rt) - destroyedCount rt ->
  live rt + 1 <= activeSandboxes (metrics rt) ->
  counters_ok (returnToPool sandbox rt).
Proof.
  unfold counters_ok, returnToPool, live, destroyedCount, held, push, pool_shift.
  intros Ha Hl.
  destruct (Z.of_nat (length (pool rt)) >=? maxInstances (poolConfig rt)).
  - destruct (pool rt) as [|oldest rest] eqn:Ep; simpl in *;
      rewrite ?Ep, ?length_app; simpl; lia.
  - simpl. rewrite length_app. simpl. lia.
Qed.

Lemma createSandbox_resume_counters (cfg : SandboxConfig) (t : Z) (rt : SandboxRuntime) :
  let rt' := snd (createSandbox_resume cfg t rt) in
  activeSandboxes (metrics rt') = activeSandboxes (metrics rt) + 1 /\
  totalSandboxes (metrics rt') = totalSandboxes (metrics rt) + 1 /\
  pool rt' = pool rt /\ pending rt' = pending rt /\ destroyedLog rt' = destroyedLog rt.
Proof. simpl. repeat split. Qed.

Lemma reap_counters (nowTime : Z) (p : list Sandbox) :
  forall rt kept rt',
    reap nowTime p rt = (kept, rt') ->
    totalSandboxes (metrics rt') = totalSandboxes (metrics rt) /\
    activeSandboxes (metrics rt') + Z.of_nat (length p)
      = activeSandboxes (metrics rt) + Z.of_nat (length kept) /\
    destroyedCount rt' + Z.of_nat (length kept) = destroyedCount rt + Z.of_nat (length p) /\
    pool rt' = pool rt /\ pending rt' = pending rt /\ poolConfig rt' = poolConfig rt.
Proof.
  unfold destroyedCount.
  induction p as [|sandbox rest IH]; intros rt kept rt' E; simpl in E.
  - inversion E; subst. simpl. repeat split; lia.
  - destruct (nowTime - lastUsedAt sandbox >? idleTimeoutMs (poolConfig rt)).
    + apply IH in E. simpl in E. simpl length.
      destruct E as (Ht & Ha & Hd & Hp & Hq & Hc). repeat split; try assumption; lia.
    + destruct (reap nowTime rest rt) as [kept0 rt0] eqn:E0.
      inversion E; subst. apply IH in E0. simpl length.
      destruct E0 as (Ht & Ha & Hd & Hp & Hq & Hc). repeat split; try assumption; lia.
Qed.

Lemma held_warm_tasks (rt : SandboxRuntime) (n : nat) (fresh : nat -> string) (starts : nat -> Z) :
  forall i, held (with_pending (warm_tasks i n fresh starts) rt) = [].
Proof.
  unfold held. simpl. induction n as [|n IH]; intros i; simpl; [reflexivity|]. apply IH.
Qed.

Lemma counters_ok_step (rt : SandboxRuntime) (ev : Event) :
  counters_ok rt -> counters_ok (step rt ev).
Proof.
  intros [Ha Hl]. destruct ev as [tool args timeout t0 t1 t2 fresh_id|nowTime fresh starts|i t1 t2 t3 t4].
  - (* a call of execute *)
    simpl. unfold execute_begin.
    destruct (getFromPool rt) as [[sandbox|] rt'] eqn:Eg.
    + apply getFromPool_hit in Eg as (Hlen & Hm & Hp & Hd & _).
      unfold counters_ok, live, destroyedCount, held in *. simpl.
      rewrite Hm, Hp, Hd. unfold push. rewrite flat_map_app, length_app. simpl. lia.
    + apply getFromPool_miss in Eg as ->.
      unfold counters_ok, live, destroyedCount, held in *. simpl.
      unfold push. rewrite flat_map_app, length_app. simpl. lia.
  - (* a tick of the maintenance timer *)
    simpl. unfold maintainPool.
    destruct (reap nowTime (pool rt) rt) as [kept rt'] eqn:Er.
    apply reap_counters in Er as (Ht & Hact & Hd & Hp & Hq & Hc).
    assert (Hbase : counters_ok (with_pool kept rt')).
    { unfold counters_ok, live, destroyedCount, held in *. simpl. rewrite Hq. lia. }
    destruct (_ >? 0); [|exact Hbase].
    destruct Hbase as [Hb1 Hb2]. split; [exact Hb1|].
    unfold live in *. rewrite held_app, length_app, held_warm_tasks. simpl in *.
    unfold held in *. simpl in *. lia.
  - (* the resumption of a suspended call *)
    simpl. destruct (nth_error (pending rt) i) as [task|] eqn:En; [|split; assumption].
    destruct (remove_nth_split _ _ _ En) as (l1 & l2 & Hpend & ->).
    assert (Hheld : Z.of_nat (length (held rt))
                    = Z.of_nat (length (held (with_pending (l1 ++ l2)%list rt)))
                      + match task with RunningTool _ _ _ _ _ _ => 1 | _ => 0 end).
    { unfold held at 1. rewrite Hpend. rewrite held_app. unfold held. simpl.
      rewrite flat_map_app, !length_app. simpl. destruct task; simpl; lia. }
    destruct task as [tool args timeout st cb cfg cs|sandbox tool args st cold es|cfg cs].
    + unfold execute_created. simpl.
      unfold counters_ok, live, destroyedCount, held in *. simpl in *.
      unfold push. rewrite flat_map_app, length_app. simpl. lia.
    + unfold execute_finish. simpl. apply counters_ok_returnToPool.
      * exact Ha.
      * unfold live in *. simpl in *. lia.
    + unfold warm_created. simpl. apply counters_ok_returnToPool.
      * unfold destroyedCount in *. simpl. lia.
      * unfold live in *. simpl in *.
        change (held {| sandboxes := sandboxes rt ∪ {[config_id cfg]}; pool := pool rt;
                        poolConfig := poolConfig rt;
                        metrics := _; pending := (l1 ++ l2)%list;
                        destroyedLog := destroyedLog rt |})
          with (held (with_pending (l1 ++ l2)%list rt)).
        lia.
Qed.

Lemma counters_ok_run (evs : list Event) : forall rt,
  counters_ok rt -> counters_ok (run rt evs).
Proof.
  unfold run. induction evs as [|ev evs IH]; intros rt Hrt; simpl; [exact Hrt|].
  apply IH, counters_ok_step, Hrt.
Qed.

(** *** Without warm-up the pool is in the order of use *)

Lemma ascending_filter (f : Sandbox -> bool) (p : list Sandbox) :
  ascending_by_last_use p -> ascending_by_last_use (List.filter f p).
Proof.
  induction 1 as [|x l Hall Hasc IH]; simpl; [constructor|].
  destruct (f x); [|exact IH].
  constructor; [|exact IH].
  apply List.Forall_forall. intros y Hy. apply List.filter_In in Hy as [Hy _].
  rewrite List.Forall_forall in Hall. auto.
Qed.

Lemma Forall_filter_keep {A : Type} (P : A -> Prop) (f : A -> bool) (l : list A) :
  Forall P l -> Forall P (List.filter f l).
Proof.
  intros Hall. apply List.Forall_forall. intros y Hy.
  apply List.filter_In in Hy as [Hy _]. rewrite List.Forall_forall in Hall. auto.
Qed.

Lemma ascending_push (p : list Sandbox) (x : Sandbox) :
  ascending_by_last_use p ->
  Forall (fun s => lastUsedAt s <= lastUsedAt x) p ->
  ascending_by_last_use (push p x).
Proof.
  unfold push. induction 1 as [|y l Hall Hasc IH]; intros Hle; simpl.
  - constructor; constructor.
  - inversion Hle; subst. constructor; [|apply IH; assumption].
    apply Forall_app. split; [exact Hall|]. constructor; [assumption|constructor].
Qed.

Lemma reap_kept (nowTime : Z) (p : list Sandbox) : forall rt,
  fst (reap nowTime p rt)
  = List.filter (fun s => negb (nowTime - lastUsedAt s >? idleTimeoutMs (poolConfig rt))) p.
Proof.
  induction p as [|sandbox rest IH]; intros rt; simpl; [reflexivity|].
  destruct (nowTime - lastUsedAt sandbox >? idleTimeoutMs (poolConfig rt)); simpl.
  - rewrite IH. reflexivity.
  - specialize (IH rt). destruct (reap nowTime rest rt) as [kept rt']. simpl in *.
    rewrite IH. reflexivity.
Qed.

Lemma Forall_remove_nth {A : Type} (P : A -> Prop) (i : nat) (l : list A) :
  Forall P l -> Forall P (remove_nth i l).
Proof.
  intros Hall. unfold remove_nth. apply Forall_app. split.
  - apply List.Forall_forall. intros x Hx. rewrite List.Forall_forall in Hall.
    apply Hall. rewrite <- (firstn_skipn i l). apply in_or_app. left. exact Hx.
  - apply List.Forall_forall. intros x Hx. rewrite List.Forall_forall in Hall.
    apply Hall. rewrite <- (firstn_skipn (S i) l). apply in_or_app. right. exact Hx.
Qed.

Lemma pool_in_use_order_returnToPool (last t : Z) (sandbox : Sandbox) (rt : SandboxRuntime) :
  pool_in_use_order last rt -> last <= t -> lastUsedAt sandbox = t ->
  pool_in_use_order t (returnToPool sandbox rt).
Proof.
  intros (Hasc & Hle & Hwarm & Hmin) Hlast Ht. unfold returnToPool, pool_shift.
  assert (Hshift :
    forall p, ascending_by_last_use p -> Forall (fun s => lastUsedAt s <= last) p ->
      ascending_by_last_use (push p (set_status ready sandbox)) /\
      Forall (fun s => lastUsedAt s <= t) (push p (set_status ready sandbox))).
  { intros p Hp Hb. split.
    - apply ascending_push; [exact Hp|]. simpl. rewrite Ht.
      eapply List.Forall_impl; [|exact Hb]. simpl. intros; lia.
    - unfold push. apply Forall_app. split.
      + eapply List.Forall_impl; [|exact Hb]. simpl. intros; lia.
      + constructor; [simpl; lia|constructor]. }
  destruct (Z.of_nat (length (pool rt)) >=? maxInstances (poolConfig rt)).
  - destruct (pool rt) as [|oldest rest] eqn:Ep.
    + simpl. rewrite Ep. destruct (Hshift [] Hasc Hle) as [Ha Hb].
      repeat split; assumption.
    + simpl. inversion Hasc as [|x l Hx Hl]; subst.
      inversion Hle as [|x l Hx' Hl']; subst.
      destruct (Hshift rest Hl Hl') as [Ha Hb].
      repeat split; assumption.
  - simpl. destruct (Hshift (pool rt) Hasc Hle) as [Ha Hb]. repeat split; assumption.
Qed.

Lemma pool_in_use_order_step (last : Z) (rt : SandboxRuntime) (ev : Event) :
  pool_in_use_order last rt ->
  match ev with
  | Resume _ _ _ t3 _ => last <= t3
  | _ => True
  end ->
  pool_in_use_order (match ev with
                     | Resume _ _ _ t3 _ => t3
                     | _ => last
                     end) (step rt ev).
Proof.
  intros Hinv Hclock. pose proof Hinv as (Hasc & Hle & Hwarm & Hmin).
  destruct ev as [tool args timeout t0 t1 t2 fresh_id|nowTime fresh starts|i t1 t2 t3 t4].
  - (* a call of execute *)
    simpl. unfold execute_begin, getFromPool.
    destruct (sort _ _) as [|first rest]; simpl.
    + repeat split; try assumption.
      unfold push. apply Forall_app. split; [assumption|]. repeat constructor.
    + repeat split; try assumption.
      * apply ascending_filter, Hasc.
      * apply Forall_filter_keep, Hle.
      * unfold push. apply Forall_app. split; [assumption|]. repeat constructor.
  - (* a tick of the maintenance timer *)
    simpl. unfold maintainPool.
    pose proof (reap_kept nowTime (pool rt) rt) as Hkept.
    destruct (reap nowTime (pool rt) rt) as [kept rt'] eqn:Er.
    apply reap_counters in Er as (_ & _ & _ & _ & Hq & Hc).
    simpl in Hkept. subst kept. simpl. rewrite Hc.
    replace (minInstances (poolConfig rt) - _ >? 0) with false
      by (symmetry; rewrite Z.gtb_ltb; apply Z.ltb_ge; lia).
    unfold pool_in_use_order. simpl. rewrite Hq, Hc.
    repeat split; try assumption.
    + apply ascending_filter, Hasc.
    + apply Forall_filter_keep, Hle.
  - (* the resumption of a suspended call *)
    simpl. destruct (nth_error (pending rt) i) as [task|] eqn:En.
    + assert (Htask : match task with CreatingForPool _ _ => False | _ => True end).
      { rewrite List.Forall_forall in Hwarm. apply Hwarm. eapply nth_error_In. exact En. }
      assert (Hrest : pool_in_use_order last (with_pending (remove_nth i (pending rt)) rt)).
      { repeat split; try assumption. simpl. apply Forall_remove_nth, Hwarm. }
      destruct task as [tool args timeout st cb cfg cs|sandbox tool args st cold es|cfg cs];
        [| |destruct Htask].
      * unfold execute_created. simpl. destruct Hrest as (H1 & H2 & H3 & H4).
        simpl in *. repeat split; try assumption.
        -- eapply List.Forall_impl; [|exact H2]. simpl. intros; lia.
        -- unfold push. apply Forall_app. split; [assumption|]. repeat constructor.
      * unfold execute_finish. simpl.
        apply (pool_in_use_order_returnToPool last t3); [exact Hrest|exact Hclock|reflexivity].
    + destruct Hinv as (H1 & H2 & H3 & H4). repeat split; try assumption.
      eapply List.Forall_impl; [|exact H2]. simpl. intros; lia.
Qed.

Lemma pool_in_use_order_run (evs : list Event) : forall last rt,
  pool_in_use_order last rt -> stamps_ascend last evs ->
  exists last', pool_in_use_order last' (run rt evs).
Proof.
  unfold run. induction evs as [|ev evs IH]; intros last rt Hinv Hst; simpl.
  - exists last. exact Hinv.
  - destruct ev as [tool args timeout t0 t1 t2 fresh_id|nowTime fresh starts|i t1 t2 t3 t4].
    + eapply IH; [|exact Hst].
      apply (pool_in_use_order_step last rt (Execute tool args timeout t0 t1 t2 fresh_id));
        [exact Hinv|exact I].
    + eapply IH; [|exact Hst].
      apply (pool_in_use_order_step last rt (Maintain nowTime fresh starts));
        [exact Hinv|exact I].
    + destruct Hst as [Hle Hst]. eapply IH; [|exact Hst].
      apply (pool_in_use_order_step last rt (Resume i t1 t2 t3 t4)); assumption.
Qed.

(** With a pool that is not kept warm and a clock that does not run
    backwards, the pool is always in the order of use: the sandbox at its
    front, the one [returnToPool] evicts, is the least recently used. *)
Lemma pool_ordered_without_warmup (cfg : SandboxPoolConfig) (start : Z) (evs : list Event) :
  minInstances cfg <= 0 -> stamps_ascend start evs ->
  ascending_by_last_use (pool (run (new_runtime cfg) evs)).
Proof.
  intros Hmin Hst.
  destruct (pool_in_use_order_run evs start (new_runtime cfg)) as (last & Hasc & _).
  - repeat split; simpl; try constructor. exact Hmin.
  - exact Hst.
  - exact Hasc.
Qed.

(** *** The pool is in the order of entry *)

Lemma List_filter_sublist {A : Type} (f : A -> bool) (l : list A) :
  sublist (List.filter f l) l.
Proof.
  induction l as [|x l IH]; simpl; [constructor|].
  destruct (f x); [apply sublist_skip|apply sublist_cons]; exact IH.
Qed.

Lemma reap_kept_sublist (nowTime : Z) (p : list Sandbox) :
  forall rt kept rt', reap nowTime p rt = (kept, rt') -> sublist kept p.
Proof.
  induction p as [|sandbox rest IH]; intros rt kept rt' E; simpl in E.
  - inversion E. constructor.
  - destruct (nowTime - lastUsedAt sandbox >? idleTimeoutMs (poolConfig rt)).
    + apply sublist_cons. eapply IH. exact E.
    + destruct (reap nowTime rest rt) as [kept' rt''] eqn:Er.
      inversion E; subst. apply sublist_skip. eapply IH. exact Er.
Qed.

(** [returnToPool] keeps the pool, or the pool without its first sandbox,
    and puts the returning sandbox behind it. *)
Lemma returnToPool_appends (sandbox : Sandbox) (rt : SandboxRuntime) :
  exists kept,
    sublist kept (pool rt) /\
    pool (returnToPool sandbox rt) = (kept ++ [set_status ready sandbox])%list.
Proof.
  unfold returnToPool, pool_shift, push.
  destruct (Z.of_nat (length (pool rt)) >=? maxInstances (poolConfig rt)).
  - destruct (pool rt) as [|oldest rest] eqn:Ep.
    + exists []. simpl. rewrite Ep. split; [constructor|reflexivity].
    + exists rest. simpl. split; [apply sublist_cons; reflexivity|reflexivity].
  - exists (pool rt). simpl. split; reflexivity.
Qed.

Lemma step_entry_order (rt : SandboxRuntime) (ev : Event) (log : list Sandbox) :
  sublist (pool rt) log ->
  sublist (pool (step rt ev)) (log ++ entering rt ev)%list.
Proof.
  intros Hlog. destruct ev as [tool args timeout t_start t_next t_create fresh_id
                              |nowTime fresh starts|i t1 t2 t3 t4].
  - cbn [step entering]. rewrite app_nil_r. unfold execute_begin.
    destruct (getFromPool rt) as [[sandbox|] rt'] eqn:Eg.
    + assert (Hp : sublist (pool rt') (pool rt)).
      { unfold getFromPool in Eg. destruct (sort _ _) as [|first others]; inversion Eg.
        simpl. apply List_filter_sublist. }
      simpl. etransitivity; eassumption.
    + apply getFromPool_miss in Eg. subst rt'. simpl. exact Hlog.
  - cbn [step entering]. rewrite app_nil_r. unfold maintainPool.
    destruct (reap nowTime (pool rt) rt) as [kept rt'] eqn:Er.
    apply reap_kept_sublist in Er.
    assert (Hp : sublist kept log) by (etransitivity; eassumption).
    cbn [pool with_pool poolConfig]. destruct (_ >? 0); simpl; exact Hp.
  - cbn [step entering]. destruct (nth_error (pending rt) i) as [task|];
      [|rewrite app_nil_r; exact Hlog].
    destruct task as [tool args timeout startTime coldStartBegin cfg createStart
                     |sandbox tool args startTime coldStart execStart
                     |cfg createStart].
    + rewrite app_nil_r. simpl. exact Hlog.
    + unfold execute_finish. cbn [snd].
      destruct (returnToPool_appends (with_usage t3 sandbox)
                  (with_pending (remove_nth i (pending rt)) rt)) as (kept & Hk & ->).
      apply sublist_app; [|reflexivity].
      etransitivity; [exact Hk|exact Hlog].
    + unfold warm_created.
      destruct (createSandbox_resume cfg createStart
                  (with_pending (remove_nth i (pending rt)) rt)) as [sandbox rt'] eqn:Ec.
      assert (Hs : sandbox = fst (createSandbox_resume cfg createStart rt)).
      { unfold createSandbox_resume in *. inversion Ec. reflexivity. }
      assert (Hp : pool rt' = pool rt).
      { unfold createSandbox_resume in Ec. inversion Ec. reflexivity. }
      destruct (returnToPool_appends sandbox rt') as (kept & Hk & ->).
      rewrite <- Hs. apply sublist_app; [|reflexivity].
      rewrite Hp in Hk. etransitivity; [exact Hk|exact Hlog].
Qed.

Lemma run_entry_order (evs : list Event) :
  forall rt log,
    sublist (pool rt) log ->
    sublist (pool (run rt evs)) (log ++ entries rt evs)%list.
Proof.
  induction evs as [|ev evs IH]; intros rt log Hlog.
  - simpl. rewrite app_nil_r. exact Hlog.
  - cbn [entries]. rewrite app_assoc.
    change (run rt (ev :: evs)) with (run (step rt ev) evs).
    apply IH. apply step_entry_order. exact Hlog.
Qed.

(** Whatever happened to a runtime since it was constructed, its pool
    lists sandboxes in the order in which they entered it. *)
Lemma pool_in_entry_order (cfg : SandboxPoolConfig) (evs : list Event) :
  sublist (pool (run (new_runtime cfg) evs)) (entries (new_runtime cfg) evs).
Proof.
  apply (run_entry_order evs (new_runtime cfg) []). constructor.
Qed.

(** What [returnToPool] does to a full pool. *)
Lemma returnToPool_full (sandbox : Sandbox) (rt : SandboxRuntime)
    (oldest : Sandbox) (rest : list Sandbox) :
  pool rt = oldest :: rest ->
  maxInstances (poolConfig rt) <= Z.of_nat (length (pool rt)) ->
  destroyedLog (returnToPool sandbox rt) = set_status destroyed oldest :: destroyedLog rt /\
  pool (returnToPool sandbox rt) = (rest ++ [set_status ready sandbox])%list.
Proof.
  intros Hp Hfull. unfold returnToPool, pool_shift.
  replace (Z.of_nat (length (pool rt)) >=? maxInstances (poolConfig rt)) with true
    by (symmetry; apply Z.geb_le; exact Hfull).
  rewrite Hp. simpl. split; reflexivity.
Qed.

End SandboxFacts.

Section SandboxClaims.

Import Sandbox Examples.

(** C4, as amended. The pool of a runtime lists its sandboxes in the order
    in which they entered it. So when the pool holds [maxInstances]
    sandboxes or more, the sandbox that [returnToPool] destroys, the one at
    the front, is the pooled sandbox that entered the pool earliest: in the
    sequence of all entries, its entry comes before the entries of the other
    pooled sandboxes. The returning sandbox is put behind them; in
    particular this is what the end of a call of [execute] does. The last-used
    times play no part in it. *)
Theorem returnToPool_evicts_front
  (cfg : SandboxPoolConfig) (evs : list Event) (sandbox oldest : Sandbox)
  (rest : list Sandbox) :
  let rt := run (new_runtime cfg) evs in
  pool rt = oldest :: rest ->
  maxInstances (poolConfig rt) <= Z.of_nat (length (pool rt)) ->
  (exists before after,
     entries (new_runtime cfg) evs = (before ++ oldest :: after)%list /\
     sublist rest after) /\
  destroyedLog (returnToPool sandbox rt) = set_status destroyed oldest :: destroyedLog rt /\
  pool (returnToPool sandbox rt) = (rest ++ [set_status ready sandbox])%list /\
  (forall i t1 t2 t3 t4 held tool args startTime coldStart execStart,
     nth_error (pending rt) i = Some (RunningTool held tool args startTime coldStart execStart) ->
     destroyedLog (step rt (Resume i t1 t2 t3 t4))
     = set_status destroyed oldest :: destroyedLog rt /\
     pool (step rt (Resume i t1 t2 t3 t4))
     = (rest ++ [set_status ready (with_usage t3 held)])%list).
Proof.
  intros rt Hp Hfull. split; [|split; [|split]].
  - pose proof (pool_in_entry_order cfg evs) as Hsub. fold rt in Hsub.
    rewrite Hp in Hsub. apply sublist_cons_l in Hsub. exact Hsub.
  - apply (returnToPool_full sandbox rt oldest rest Hp Hfull).
  - apply (returnToPool_full sandbox rt oldest rest Hp Hfull).
  - intros i t1 t2 t3 t4 held tool args startTime coldStart execStart Hn.
    cbn [step]. rewrite Hn. unfold execute_finish. cbn [snd].
    apply (returnToPool_full (with_usage t3 held)
             (with_pending (remove_nth i (pending rt)) rt) oldest rest); simpl; assumption.
Qed.

(** C5, as amended. After any sequence of runtime operations the active
    count is the number of sandboxes created minus the number destroyed;
    sandboxes waiting in the pool are counted as active. The count is never
    negative and never below the size of the pool. *)
Theorem active_count_invariant (cfg : SandboxPoolConfig) (evs : list Event) :
  let rt := run (new_runtime cfg) evs in
  activeSandboxes (metrics rt)
    = totalSandboxes (metrics rt) - Z.of_nat (length (destroyedLog rt)) /\
  0 <= activeSandboxes (metrics rt) /\
  Z.of_nat (length (pool rt)) <= activeSandboxes (metrics rt).
Proof.
  intros rt.
  destruct (counters_ok_run evs _ (counters_ok_new cfg)) as [Ha Hl].
  fold rt in Ha, Hl. unfold live, destroyedCount in *. lia.
Qed.

Lemma returnToPool_evicts_front_witness :
  exists held_sandbox a1 w0,
    pending racing = [RunningTool held_sandbox (plain_tool "search") (JObj []) 165 100 265] /\
    pool racing = [a1; w0] /\
    maxInstances (poolConfig racing) <= Z.of_nat (length (pool racing)) /\
    map (fun s => (id s, lastUsedAt s)) (entries (new_runtime small_pool_config) warmup_race)
    = [("a1", 150); ("a1", 210); ("w0", 170)] /\
    lastUsedAt w0 < lastUsedAt a1 /\
    (exists before after,
       entries (new_runtime small_pool_config) warmup_race = (before ++ a1 :: after)%list /\
       sublist [w0] after) /\
    destroyedLog (returnToPool held_sandbox racing)
    = set_status destroyed a1 :: destroyedLog racing /\
    pool (returnToPool held_sandbox racing) = ([w0] ++ [set_status ready held_sandbox])%list /\
    (forall i t1 t2 t3 t4 held tool args startTime coldStart execStart,
       nth_error (pending racing) i
       = Some (RunningTool held tool args startTime coldStart execStart) ->
       destroyedLog (step racing (Resume i t1 t2 t3 t4))
       = set_status destroyed a1 :: destroyedLog racing /\
       pool (step racing (Resume i t1 t2 t3 t4))
       = ([w0] ++ [set_status ready (with_usage t3 held)])%list).
Proof.
  eexists. eexists. eexists.
  split; [vm_compute; reflexivity|].
  split; [vm_compute; reflexivity|].
  split; [vm_compute; discriminate|].
  split; [vm_compute; reflexivity|].
  split; [vm_compute; reflexivity|].
  apply (returnToPool_evicts_front small_pool_config warmup_race).
  - vm_compute. reflexivity.
  - vm_compute. discriminate.
Defined.

(** C4 as stated fails. The pool is full with [a1], last used at 210, in
    front of the warm-up sandbox [w0], last used at 170; the call of
    [execute] that now returns its sandbox evicts [a1]. *)
Lemma execute_evicts_recently_used :
  exists held_sandbox a1 w0,
    pending racing = [RunningTool held_sandbox (plain_tool "search") (JObj []) 165 100 265] /\
    pool racing = [a1; w0] /\
    Z.of_nat (length (pool racing)) = maxInstances (poolConfig racing) /\
    destroyedLog racing = [] /\
    destroyedLog (step racing (Resume 0 315 315 315 315)) = [set_status destroyed a1] /\
    lastUsedAt w0 < lastUsedAt a1.
Proof.
  eexists. eexists. eexists.
  split; [vm_compute; reflexivity|].
  split; [vm_compute; reflexivity|].
  split; [vm_compute; reflexivity|].
  split; [vm_compute; reflexivity|].
  split; [vm_compute; reflexivity|].
  vm_compute. reflexivity.
Qed.

(** C5 as stated fails. After one complete call of [execute] one sandbox
    was created, none was destroyed, one waits in the pool, and the active
    count is 1, not 1 - 0 - 1. *)
Lemma active_count_includes_pool :
  let rt := run (new_runtime default_pool_config) one_execution in
  totalSandboxes (metrics rt) = 1 /\
  length (destroyedLog rt) = 0%nat /\
  length (pool rt) = 1%nat /\
  pending rt = [] /\
  activeSandboxes (metrics rt) = 1 /\
  activeSandboxes (metrics rt)
    <> totalSandboxes (metrics rt) - Z.of_nat (length (destroyedLog rt))
       - Z.of_nat (length (pool rt)).
Proof.
  vm_compute. repeat split; discriminate.
Qed.

End SandboxClaims.

(** ** The embedding cache and the embedding service *)

Section EmbeddingFacts.

Import Embeddings.

(** An embedding has as many components as the loop of [callEmbeddingAPI]
    makes, whatever [Math.sin] and [Math.sqrt] compute: the configured
    number of dimensions when that is not negative. A service built without
    options has 384. *)
Lemma callEmbeddingAPI_length (Math_sin Math_sqrt : Q -> Q)
    (svc : EmbeddingService) (text : string) :
  length (callEmbeddingAPI Math_sin Math_sqrt svc text) = Z.to_nat (dimensions svc).
Proof.
  unfold callEmbeddingAPI, raw_embedding. rewrite !length_map, length_seq. reflexivity.
Qed.

(** The algebra of the normalisation, in exact arithmetic: where the
    square root of the sum of squares is exact and not zero, the squares of
    the result add up to 1. What rounding makes of this in doubles is not
    represented. *)
Lemma fold_squares_shift (l : list Q) : forall acc,
  (fold_left (fun sum val => sum + val * val) l acc == acc + sum_squares l)%Q.
Proof.
  unfold sum_squares. induction l as [|x l IH]; intros acc; simpl.
  - ring.
  - rewrite IH, (IH (0 + x * x)%Q). ring.
Qed.

Lemma sum_squares_scaled (l : list Q) (n : Q) :
  ~ (n == 0)%Q ->
  (sum_squares (map (fun val => val / n) l) == sum_squares l / (n * n))%Q.
Proof.
  intros Hn. induction l as [|x l IH].
  - unfold sum_squares. simpl. field. exact Hn.
  - unfold sum_squares in *. simpl.
    rewrite fold_squares_shift, (fold_squares_shift l (0 + x * x)%Q).
    unfold sum_squares. rewrite IH. field. exact Hn.
Qed.

Lemma callEmbeddingAPI_unit_norm_exact (Math_sin Math_sqrt : Q -> Q)
    (svc : EmbeddingService) (text : string) :
  let total := sum_squares (raw_embedding Math_sin svc text) in
  ~ (total == 0)%Q -> (Math_sqrt total * Math_sqrt total == total)%Q ->
  (sum_squares (callEmbeddingAPI Math_sin Math_sqrt svc text) == 1)%Q.
Proof.
  intros total Hnz Hsqrt. unfold callEmbeddingAPI. fold total.
  assert (Hn : ~ (Math_sqrt total == 0)%Q).
  { intros E. apply Hnz. rewrite <- Hsqrt, E. ring. }
  rewrite sum_squares_scaled by exact Hn.
  fold total. rewrite Hsqrt. field. exact Hnz.
Qed.

(** C8. The claim is what the normalisation is meant to achieve, and the
    code misses it where the vector before normalisation is zero. A
    service of one dimension asked for the tool "t" with the description
    "arkedzdi" embeds the text "t: arkedzdi", whose hash is 0: the only
    component is the fraction of [sin 0 * 43758.5453], which is 0, the norm
    is [sqrt 0], and [callEmbeddingAPI] divides 0 by 0. The code returns a
    vector whose only component is [NaN]; in the model, where [0 / 0] is 0,
    the squares add up to 0. Either way the norm is not 1. *)
Theorem callEmbeddingAPI_zero_norm (Math_sin Math_sqrt : Q -> Q)
    (o : ServiceOptions) (t_get t_set : Z) :
  (forall x, (x == 0)%Q -> (Math_sin x == 0)%Q) ->
  (forall x, (x == 0)%Q -> (Math_sqrt x == 0)%Q) ->
  option_dimensions o = Some 1 -> option_cache o = None ->
  let svc := new_service o in
  let text := "t: arkedzdi" in
  embedding (fst (embedToolDescription Math_sin Math_sqrt t_get t_set "t" "arkedzdi" svc))
  = callEmbeddingAPI Math_sin Math_sqrt svc text /\
  hashString text = 0 /\
  length (raw_embedding Math_sin svc text) = 1%nat /\
  Forall (fun val => (val == 0)%Q) (raw_embedding Math_sin svc text) /\
  zero_norm Math_sin Math_sqrt svc text = true /\
  ~ (sum_squares (callEmbeddingAPI Math_sin Math_sqrt svc text) == 1)%Q.
Proof.
  intros Hsin Hsqrt Hd Hc svc text.
  assert (Hdim : dimensions svc = 1).
  { unfold svc, new_service. rewrite Hd. reflexivity. }
  assert (Hraw : raw_embedding Math_sin svc text = [component Math_sin 0 0]).
  { unfold raw_embedding. rewrite Hdim. reflexivity. }
  assert (Hzero : (component Math_sin 0 0 == 0)%Q).
  { unfold component.
    assert (Hs : (Math_sin (inject_Z 0 + inject_Z (Z.of_nat 0) * (129898 # 10000)) == 0)%Q)
      by (apply Hsin; reflexivity).
    set (s0 := Math_sin _) in *.
    assert (Hv : (s0 * (437585453 # 10000) == 0)%Q) by (rewrite Hs; reflexivity).
    rewrite (Qfloor_comp _ _ Hv), Hv. reflexivity. }
  assert (Hsum : (sum_squares (raw_embedding Math_sin svc text) == 0)%Q).
  { rewrite Hraw. unfold sum_squares. cbn [fold_left]. rewrite Hzero. reflexivity. }
  split; [|split; [reflexivity|split; [|split; [|split]]]].
  - unfold embedToolDescription, InMemoryEmbeddingCache.get.
    replace (service_cache svc) with (InMemoryEmbeddingCache.create (option_cacheTtlMs o))
      by (unfold svc, new_service; rewrite Hc; reflexivity).
    cbn [InMemoryEmbeddingCache.create InMemoryEmbeddingCache.timestamps].
    rewrite lookup_empty. reflexivity.
  - rewrite Hraw. reflexivity.
  - rewrite Hraw. constructor; [exact Hzero|constructor].
  - unfold zero_norm. apply Qeq_bool_iff. apply Hsqrt. exact Hsum.
  - unfold callEmbeddingAPI. rewrite Hraw. unfold sum_squares. cbn [map fold_left].
    set (n := Math_sqrt _). intros Hone.
    assert (Hq : (0 + component Math_sin 0 0 / n * (component Math_sin 0 0 / n) == 0)%Q).
    { rewrite Hzero. unfold Qdiv. ring. }
    rewrite Hq in Hone. discriminate Hone.
Qed.

Lemma callEmbeddingAPI_zero_norm_witness :
  let o := {| option_model := None; option_dimensions := Some 1;
              option_cache := None; option_cacheTtlMs := None |} in
  let svc := new_service o in
  embedding (fst (embedToolDescription (fun x => x) (fun x => x) 5 5 "t" "arkedzdi" svc))
  = callEmbeddingAPI (fun x => x) (fun x => x) svc "t: arkedzdi" /\
  hashString "t: arkedzdi" = 0 /\
  length (raw_embedding (fun x => x) svc "t: arkedzdi") = 1%nat /\
  Forall (fun val => (val == 0)%Q) (raw_embedding (fun x => x) svc "t: arkedzdi") /\
  zero_norm (fun x => x) (fun x => x) svc "t: arkedzdi" = true /\
  ~ (sum_squares (callEmbeddingAPI (fun x => x) (fun x => x) svc "t: arkedzdi") == 1)%Q.
Proof.
  intros o svc.
  apply (callEmbeddingAPI_zero_norm (fun x => x) (fun x => x) o 5 5).
  - intros x Hx. exact Hx.
  - intros x Hx. exact Hx.
  - reflexivity.
  - reflexivity.
Defined.

Lemma new_service_dimensions_default :
  dimensions (new_service {| option_model := None; option_dimensions := None;
                             option_cache := None; option_cacheTtlMs := None |}) = 384.
Proof. reflexivity. Qed.

Import InMemoryEmbeddingCache.

(** A [get] that follows a [set] of the same key, by the age of the entry. *)
Lemma cache_get_after_set (c : t) (k : string) (v : list Q) (t_write t_read : Z) :
  t_write <> 0 ->
  get t_read k (set t_write k v c)
  = if t_read - t_write >? ttlMs c
    then (None, {| cache := delete k (cache c);
                   timestamps := delete k (timestamps c);
                   ttlMs := ttlMs c |})
    else (Some v, set t_write k v c).
Proof.
  intros Hw. unfold get, set. simpl. rewrite lookup_insert_eq.
  apply Z.eqb_neq in Hw. rewrite Hw.
  destruct (t_read - t_write >? ttlMs c).
  - rewrite !delete_insert_eq. reflexivity.
  - rewrite lookup_insert_eq. reflexivity.
Qed.

(** C7. After [set(k, v)] at a clock reading other than 0, a [get(k)] at an
    age of at most [ttlMs] returns [v] and leaves the cache as it is; a
    [get(k)] at an age above [ttlMs] returns a miss and removes the entry.
    [Date.now()] counts the milliseconds since 1970 and reads 0 at that
    instant only. *)
Theorem cache_read_after_write
  (c : t) (k : string) (v : list Q) (t_write t_read : Z) :
  t_write <> 0 ->
  (t_read - t_write <= ttlMs c ->
   get t_read k (set t_write k v c) = (Some v, set t_write k v c)) /\
  (ttlMs c < t_read - t_write ->
   fst (get t_read k (set t_write k v c)) = None /\
   cache (snd (get t_read k (set t_write k v c))) !! k = None /\
   timestamps (snd (get t_read k (set t_write k v c))) !! k = None).
Proof.
  intros Hw. rewrite (cache_get_after_set c k v t_write t_read Hw).
  split; intros Hage.
  - replace (t_read - t_write >? ttlMs c) with false
      by (symmetry; rewrite Z.gtb_ltb; apply Z.ltb_ge; lia).
    reflexivity.
  - replace (t_read - t_write >? ttlMs c) with true
      by (symmetry; rewrite Z.gtb_ltb; apply Z.ltb_lt; lia).
    simpl. rewrite !lookup_delete_eq. auto.
Qed.

(** The one clock reading the theorem leaves out: an entry written at the
    reading 0 has a timestamp that [!timestamp] takes for a missing one. *)
Lemma cache_write_at_zero_is_missed (c : t) (k : string) (v : list Q) (t_read : Z) :
  get t_read k (set 0 k v c) = (None, set 0 k v c).
Proof.
  unfold get, set. simpl. rewrite lookup_insert_eq. reflexivity.
Qed.

Lemma cache_read_after_write_witness :
  let c := set 1000 "tool:search" [1%Q] (create None) in
  1000 <> 0 /\
  get 2000 "tool:search" c = (Some [1%Q], c) /\
  fst (get 400000 "tool:search" c) = None /\
  cache (snd (get 400000 "tool:search" c)) !! "tool:search" = None.
Proof.
  intros c.
  destruct (cache_read_after_write (create None) "tool:search" [1%Q] 1000 2000)
    as [Hfresh _]; [discriminate|].
  destruct (cache_read_after_write (create None) "tool:search" [1%Q] 1000 400000)
    as [_ Hstale]; [discriminate|].
  split; [discriminate|]. split.
  - apply Hfresh. vm_compute. discriminate.
  - destruct Hstale as (Hmiss & Hgone & _); [reflexivity|]. split; assumption.
Defined.

(** A [get] that hits leaves the cache as it is and hits again at the same
    clock reading. *)
Lemma cache_get_hit (now : Z) (k : string) (c c' : t) (v : list Q) :
  get now k c = (Some v, c') -> c' = c /\ get now k c = (Some v, c).
Proof.
  unfold get. intros E.
  destruct (timestamps c !! k) as [ts|]; [|discriminate].
  destruct (ts =? 0); [discriminate|].
  destruct (now - ts >? ttlMs c); [discriminate|].
  inversion E; subst. rewrite H0. auto.
Qed.

Lemma cache_get_ttl (now : Z) (k : string) (c : t) :
  ttlMs (snd (get now k c)) = ttlMs c.
Proof.
  unfold get. destruct (timestamps c !! k) as [ts|]; [|reflexivity].
  destruct (ts =? 0); [reflexivity|].
  destruct (now - ts >? ttlMs c); reflexivity.
Qed.

End EmbeddingFacts.

Section SharedToolNames.

Import Embeddings.
Context `{Host}.
Variable Math_sin : Q -> Q.
Variable Math_sqrt : Q -> Q.

(** The cache key of a tool is its name: while the clock stands still, a
    second tool of the same name gets the embedding of the first, whatever
    its description. *)
Lemma embedToolDescription_same_name
    (now : Z) (name d1 d2 : string) (svc : EmbeddingService) :
  now <> 0 -> 0 <= InMemoryEmbeddingCache.ttlMs (service_cache svc) ->
  let first := embedToolDescription Math_sin Math_sqrt now now name d1 svc in
  let second := embedToolDescription Math_sin Math_sqrt now now name d2 (snd first) in
  embedding (fst second) = embedding (fst first).
Proof.
  intros Hnow Httl. unfold embedToolDescription.
  destruct (InMemoryEmbeddingCache.get now ("tool:" ++ name) (service_cache svc))
    as [[cached|] c] eqn:E1; cbn [fst snd with_cache service_cache].
  - apply cache_get_hit in E1 as [-> E1]. rewrite E1. reflexivity.
  - assert (Hc : InMemoryEmbeddingCache.ttlMs c
                 = InMemoryEmbeddingCache.ttlMs (service_cache svc)).
    { pose proof (cache_get_ttl now ("tool:" ++ name) (service_cache svc)) as Ht.
      rewrite E1 in Ht. exact Ht. }
    rewrite (cache_get_after_set c ("tool:" ++ name)
               (callEmbeddingAPI Math_sin Math_sqrt svc (name ++ ": " ++ d1)) now now Hnow).
    replace (now - now >? InMemoryEmbeddingCache.ttlMs c) with false
      by (symmetry; rewrite Z.gtb_ltb; apply Z.ltb_ge; lia).
    reflexivity.
Qed.

(** Hence two tools of one name reach the same similarity in one pass of
    [matchTools]: ties between the selected tool and a fallback are what
    the service produces for them. *)
Lemma service_answers_same_name
    (now : Z) (intentEmbedding : list Q) (t1 t2 : ToolDefinition) (svc : EmbeddingService) :
  now <> 0 -> 0 <= InMemoryEmbeddingCache.ttlMs (service_cache svc) ->
  tool_name t1 = tool_name t2 ->
  let answers :=
    Router.service_answers Math_sin Math_sqrt (fun _ => (now, now)) intentEmbedding
      [t1; t2] svc in
  answers 1%nat t2 = answers 0%nat t1.
Proof.
  intros Hnow Httl Hname answers. unfold answers, Router.service_answers.
  cbn [Router.service_at]. unfold Router.embedTool. cbn [fst snd].
  rewrite <- Hname.
  rewrite (embedToolDescription_same_name now (tool_name t1) (tool_description t1)
             (tool_description t2) svc Hnow Httl).
  reflexivity.
Qed.

End SharedToolNames.

(** ** The audit stream *)

Section StreamFacts.

Import Stream.

Lemma calls_of_app (h : nat) (l1 l2 : list Effect) :
  calls_of h (l1 ++ l2)%list = (calls_of h l1 ++ calls_of h l2)%list.
Proof. apply flat_map_app. Qed.

Lemma persisted_app (l1 l2 : list Effect) :
  persisted (l1 ++ l2)%list = (persisted l1 ++ persisted l2)%list.
Proof. apply flat_map_app. Qed.

Lemma persisted_notify (batch : list AuditEntry) (hs : list Handler) :
  persisted (notify batch hs) = [].
Proof.
  induction hs as [|h hs IH]; [reflexivity|].
  unfold notify in *. simpl. rewrite persisted_app, IH.
  destruct (handler_throws h batch); reflexivity.
Qed.

Lemma calls_of_notify_absent (batch : list AuditEntry) (hs : list Handler) (n : nat) :
  ~ In n (map handler_id hs) -> calls_of n (notify batch hs) = [].
Proof.
  induction hs as [|h hs IH]; intros Hn; [reflexivity|].
  unfold notify in *. simpl. rewrite calls_of_app, IH.
  - simpl in Hn. unfold calls_of. simpl.
    destruct (Nat.eqb (handler_id h) n) eqn:E.
    + apply Nat.eqb_eq in E. tauto.
    + destruct (handler_throws h batch); reflexivity.
  - simpl in Hn. tauto.
Qed.

(** Every subscribed handler is called once, whichever handlers throw. *)
Lemma calls_of_notify (batch : list AuditEntry) (hs : list Handler) (h : Handler) :
  List.NoDup (map handler_id hs) -> In h hs ->
  calls_of (handler_id h) (notify batch hs) = [batch].
Proof.
  induction hs as [|h0 hs IH]; intros Hnd Hin; [destruct Hin|].
  simpl in Hnd. apply List.NoDup_cons_iff in Hnd as [Hfresh Hnd].
  change (notify batch (h0 :: hs))
    with ((Called (handler_id h0) batch
           :: (if handler_throws h0 batch then [LoggedHandlerError (handler_id h0)] else []))
          ++ notify batch hs)%list.
  rewrite calls_of_app. destruct Hin as [->|Hin].
  - rewrite calls_of_notify_absent by exact Hfresh.
    unfold calls_of. simpl. rewrite Nat.eqb_refl.
    destruct (handler_throws h batch); reflexivity.
  - rewrite IH by assumption.
    assert (Hne : handler_id h0 <> handler_id h).
    { intros E. apply Hfresh. rewrite E. apply in_map. exact Hin. }
    apply Nat.eqb_neq in Hne. unfold calls_of at 1. simpl. rewrite Hne.
    destruct (handler_throws h0 batch); reflexivity.
Qed.

Lemma flush_empty (s : AuditStream) : buffer s = [] -> flush s = (s, []).
Proof. intros E. unfold flush. rewrite E. reflexivity. Qed.

Lemma flush_nonempty (s : AuditStream) :
  buffer s <> [] ->
  flush s = (with_buffer [] s,
             (notify (buffer s) (handlers s) ++ [Persisted (buffer s)])%list).
Proof.
  intros Hne. unfold flush. destruct (buffer s) as [|x l]; [congruence|]. reflexivity.
Qed.

(** [write(e)] followed by [flush()] hands out one batch, the buffer
    followed by [e], whether or not [write] already flushed. *)
Lemma write_then_flush (s : AuditStream) (e : AuditEntry) :
  let batch := (buffer s ++ [e])%list in
  (snd (write e s) ++ snd (flush (fst (write e s))))%list
    = (notify batch (handlers s) ++ [Persisted batch])%list /\
  buffer (fst (flush (fst (write e s)))) = [].
Proof.
  intros batch. unfold write, push. cbv zeta.
  change (buffer (with_buffer (buffer s ++ [e])%list s)) with batch.
  set (s' := with_buffer (buffer s ++ [e])%list s).
  assert (Hne : buffer s' <> []).
  { simpl. destruct (buffer s); discriminate. }
  destruct (Z.of_nat (length batch) >=? bufferSize (stream_config s')).
  - rewrite (flush_nonempty s' Hne). cbn [fst snd].
    rewrite flush_empty by reflexivity. cbn [fst snd].
    rewrite app_nil_r. split; reflexivity.
  - cbn [fst snd]. rewrite (flush_nonempty s' Hne). cbn [fst snd].
    split; reflexivity.
Qed.

End StreamFacts.

Section StreamClaims.

Import Stream Examples.

(** The set of handlers never holds a function twice. *)
Lemma subscribe_NoDup (h : Handler) (s : AuditStream) :
  List.NoDup (map handler_id (handlers s)) ->
  List.NoDup (map handler_id (handlers (subscribe h s))).
Proof.
  intros Hnd. unfold subscribe.
  destruct (existsb _ (handlers s)) eqn:E; [exact Hnd|].
  simpl. unfold push. rewrite map_app. simpl.
  apply List.NoDup_Add with (a := handler_id h) (l := map handler_id (handlers s)).
  - rewrite <- (app_nil_r (map handler_id (handlers s))) at 1. apply Add_app.
  - split; [exact Hnd|].
    intros Hin. apply in_map_iff in Hin as (h' & Hid & Hin).
    assert (Hex : existsb (fun h'0 => Nat.eqb (handler_id h'0) (handler_id h)) (handlers s) = true).
    { apply existsb_exists. exists h'. split; [exact Hin|]. apply Nat.eqb_eq. exact Hid. }
    congruence.
Qed.

(** C9. After [write(e)] and a [flush()], every subscribed handler has been
    called exactly once, with the batch made of the buffered entries
    followed by [e]; [e], when it was not buffered before, occurs exactly
    once in it. The calls and the hand-over to [persist] are the same
    whichever handlers throw. *)
Theorem write_flush_delivers_once (s : AuditStream) (e : AuditEntry) :
  List.NoDup (map handler_id (handlers s)) ->
  ~ In e (buffer s) ->
  let batch := (buffer s ++ [e])%list in
  let log := (snd (write e s) ++ snd (flush (fst (write e s))))%list in
  (forall h, In h (handlers s) -> calls_of (handler_id h) log = [batch]) /\
  (exists before after,
      batch = (before ++ e :: after)%list /\ ~ In e before /\ ~ In e after) /\
  persisted log = [batch] /\
  log = (notify batch (handlers s) ++ [Persisted batch])%list /\
  buffer (fst (flush (fst (write e s)))) = [].
Proof.
  intros Hnd Hfresh batch log.
  destruct (write_then_flush s e) as [Hlog Hbuf].
  fold batch in Hlog. fold log in Hlog.
  split; [|split; [|split; [|split]]].
  - intros h Hin. rewrite Hlog, calls_of_app.
    rewrite calls_of_notify by assumption. reflexivity.
  - exists (buffer s), []. split; [reflexivity|]. split; [exact Hfresh|]. intros [].
  - rewrite Hlog, persisted_app, persisted_notify. reflexivity.
  - exact Hlog.
  - exact Hbuf.
Qed.

Lemma write_flush_delivers_once_witness :
  let e := audit_entry "e1" 20 in
  let batch := [audit_entry "e0" 10; e] in
  let log := (snd (write e busy_stream) ++ snd (flush (fst (write e busy_stream))))%list in
  List.NoDup (map handler_id (handlers busy_stream)) /\
  ~ In e (buffer busy_stream) /\
  calls_of 1 log = [batch] /\ calls_of 2 log = [batch] /\ persisted log = [batch] /\
  log = [Called 1 batch; LoggedHandlerError 1; Called 2 batch; Persisted batch].
Proof.
  intros e batch log.
  assert (Hnd : List.NoDup (map handler_id (handlers busy_stream))).
  { simpl. repeat constructor; simpl; intuition discriminate. }
  assert (Hfresh : ~ In e (buffer busy_stream)).
  { simpl. intros [E|[]]. discriminate E. }
  destruct (write_flush_delivers_once busy_stream e Hnd Hfresh)
    as (Hcalls & _ & Hpersisted & Hlog & _).
  split; [exact Hnd|]. split; [exact Hfresh|].
  split; [apply (Hcalls {| handler_id := 1; handler_throws := fun _ => true |}); left; reflexivity|].
  split; [apply (Hcalls {| handler_id := 2; handler_throws := fun _ => false |});
          right; left; reflexivity|].
  split; [exact Hpersisted|]. reflexivity.
Defined.

End StreamClaims.

(** ** The protocol adapters *)

Section AdapterFacts.

Import Adapter Examples.
Context `{Host}.

Lemma stringified_length_defined (v : JsValue) :
  v <> JUndefined -> exists n, stringified_length v = Normal n.
Proof.
  intros Hv. unfold stringified_length.
  destruct v; try congruence; simpl; eauto.
Qed.

Lemma parse_failed_defined (p : Protocol) (t : Z) (v : JsValue) (c m : string)
    (s : option string) :
  v <> JUndefined -> exists r, parse_failed p t v c m s = Normal r.
Proof.
  intros Hv. unfold parse_failed.
  destruct (stringified_length_defined v Hv) as [n ->]. simpl. eauto.
Qed.

Lemma parse_succeeded_defined (p : Protocol) (t : Z) (v : JsValue) :
  v <> JUndefined -> exists r, parse_succeeded p t v = Normal r.
Proof.
  intros Hv. unfold parse_succeeded.
  destruct (stringified_length_defined v Hv) as [n ->]. simpl. eauto.
Qed.

Lemma get_defined (v : JsValue) (k : string) :
  v <> JUndefined -> v <> JNull -> exists x, get v k = Normal x.
Proof.
  intros Hu Hn. destruct v; try congruence; simpl; eauto.
Qed.

Ltac parse_cases :=
  repeat match goal with
         | |- exists r, Normal _ = Normal r => eexists; reflexivity
         | |- exists r, parse_failed _ _ _ _ _ _ = Normal r =>
           apply parse_failed_defined; assumption
         | |- exists r, parse_succeeded _ _ _ = Normal r =>
           apply parse_succeeded_defined; assumption
         | |- context [if ?b then _ else _] => destruct b
         | |- context [bind (get ?v ?k) _] =>
           let x := fresh "x" in
           let E := fresh "E" in
           destruct (get_defined v k) as [x E]; [assumption|assumption|];
           rewrite E; cbn [bind]
         | |- context [bind (Normal _) _] => cbn [bind]
         end.

(** On every payload but [undefined], [parse] returns a result: [null] is
    caught by the [catch] block of the adapter. *)
Lemma parse_returns_on_defined (a : Adapter) (t : Z) (v : JsValue) :
  In a [MCPAdapter; A2AAdapter; UCPAdapter; ACPAdapter; OpenAIAdapter; AnthropicAdapter] ->
  v <> JUndefined ->
  exists r, parse a t v = Normal r.
Proof.
  intros Ha Hv.
  destruct (JsValue_is_null v) eqn:En.
  - destruct v; try discriminate En.
    simpl in Ha. destruct Ha as [<-|[<-|[<-|[<-|[<-|[<-|[]]]]]]]; simpl; eauto.
  - assert (Hn : v <> JNull) by (intros ->; discriminate En).
    simpl in Ha.
    destruct Ha as [<-|[<-|[<-|[<-|[<-|[<-|[]]]]]]]; simpl;
      unfold MCP_parse, A2A_parse, UCP_parse, ACP_parse, OpenAI_parse, Anthropic_parse;
      match goal with
      | |- exists r, try_catch ?body _ = Normal r =>
        assert (Hb : exists r, body = Normal r) by parse_cases;
        destruct Hb as [r ->]; simpl; eauto
      end.
Qed.

End AdapterFacts.

Section AdapterClaims.

Import Adapter Examples.
Context `{Host}.

(** C6 does not hold of the code. On the payload [undefined] the [try]
    block of every [parse] throws, and so does its [catch] block, which
    evaluates [JSON.stringify(rawPayload).length] on the [undefined] that
    [JSON.stringify] returns. [normalize] has no [try] block at all: the
    ACP payload [{"header":{},"body":{}}] passes [parse] and makes
    [normalize] call [toLowerCase] on a missing message type. *)
Theorem parse_undefined_throws (startTime : Z) :
  Forall (fun a =>
            parse a startTime JUndefined
            = Throw (TypeError "Cannot read properties of undefined (reading 'length')"))
         [MCPAdapter; A2AAdapter; UCPAdapter; ACPAdapter; OpenAIAdapter; AnthropicAdapter] /\
  (exists parsed,
      parse ACPAdapter startTime acp_bare = Normal parsed /\
      parse_success parsed = true /\
      forall clock id,
        normalize ACPAdapter clock id parsed
        = Throw (TypeError "Cannot read properties of undefined (reading 'toLowerCase')")).
Proof.
  split.
  - repeat constructor.
  - eexists. split; [reflexivity|]. split; reflexivity.
Qed.

(** C10. Every request that [convert] returns has the user id "anonymous",
    an empty conversation history and empty lists of available tools,
    constraints and preferences, the priority 1, a latency limit of 30000
    ms, a budget of 1000 cents, no human approval required and the audit
    level "standard", whatever the payload and the protocol. *)
Theorem convert_defaults
  (env : ConvertEnv) (raw : JsValue) (tag : string) (trace : option string)
  (req : AgentRequest) :
  convert env raw tag trace = Normal req ->
  userId (context req) = "anonymous" /\
  conversationHistory (context req) = [] /\
  availableTools (context req) = [] /\
  constraints (context req) = [] /\
  preferences (context req) = [] /\
  priority (metadata req) = 1%Q /\
  maxLatencyMs (metadata req) = 30000%Q /\
  maxBudgetCents (metadata req) = 1000%Q /\
  requireHumanApproval (metadata req) = false /\
  auditLevel (metadata req) = "standard".
Proof.
  unfold convert. intros Hc.
  destruct (adapters_get registerAdapters tag) as [adapter|]; [|discriminate].
  destruct (parse adapter (parse_time env) raw) as [parseResult|]; [|discriminate].
  simpl in Hc. destruct (parse_success parseResult); [|discriminate].
  simpl in Hc.
  destruct (normalize adapter (normalize_clock env) (intent_fresh_id env) parseResult)
    as [normalizeResult|]; [|discriminate].
  simpl in Hc. destruct (normalize_success normalizeResult); [|discriminate].
  simpl in Hc. injection Hc as <-. simpl. repeat split.
Qed.

(** The tags [convert] supports are the six protocol names. *)
Lemma convert_unsupported
  (env : ConvertEnv) (raw : JsValue) (tag : string) (trace : option string) :
  ~ In tag ["mcp"; "a2a"; "ucp"; "acp"; "openai"; "anthropic"] ->
  convert env raw tag trace = Throw (Error ("Unsupported protocol: " ++ tag)).
Proof.
  intros Hn. unfold convert.
  replace (adapters_get registerAdapters tag) with (@None Adapter); [reflexivity|].
  simpl in *.
  repeat match goal with
         | |- context [String.eqb tag ?k] =>
           destruct (String.eqb_spec tag k); [exfalso; apply Hn; subst; tauto|]
         end.
  reflexivity.
Qed.

End AdapterClaims.

Section AdapterExamples.

Import Adapter Examples.

(** Scenario 1 of the specification, through [convert]. *)
Lemma convert_defaults_witness :
  exists req,
    @convert integer_host convert_env mcp_tool_call "mcp" None = Normal req /\
    option_map category (normalizedIntent req) = Some tool_call /\
    option_map action (normalizedIntent req) = Some (JStr "search") /\
    userId (context req) = "anonymous" /\
    conversationHistory (context req) = [] /\
    availableTools (context req) = [] /\
    constraints (context req) = [] /\
    preferences (context req) = [] /\
    priority (metadata req) = 1%Q /\
    maxLatencyMs (metadata req) = 30000%Q /\
    maxBudgetCents (metadata req) = 1000%Q /\
    requireHumanApproval (metadata req) = false /\
    auditLevel (metadata req) = "standard".
Proof.
  eexists. split; [vm_compute; reflexivity|].
  split; [reflexivity|]. split; [reflexivity|].
  apply (@convert_defaults integer_host convert_env mcp_tool_call "mcp" None).
  vm_compute. reflexivity.
Defined.

(** Scenario 2 of the specification: a request without a method. *)
Lemma mcp_missing_method :
  exists r,
    @MCP_parse integer_host 0 (JObj [("jsonrpc", JStr "2.0"); ("id", JNum 1)]) = Normal r /\
    parse_success r = false /\
    option_map parse_code (parse_error r) = Some "MISSING_METHOD".
Proof.
  eexists. split; [vm_compute; reflexivity|]. split; reflexivity.
Qed.

End AdapterExamples.

(** * Further properties of the code *)

(** ** More facts about the JavaScript primitives *)

Section SliceFacts.

Context {A : Type}.

Lemma slice_from_1_cons (x : A) (l : list A) : slice_from 1 (x :: l) = l.
Proof.
  unfold slice_from, slice, relative_index.
  replace (1 <? 0) with false by reflexivity.
  replace (Z.of_nat (length (x :: l)) <? 0) with false by (symmetry; apply Z.ltb_ge; lia).
  rewrite Z.min_id.
  replace (Z.min 1 (Z.of_nat (length (x :: l)))) with 1 by (simpl length; lia).
  change (skipn (Z.to_nat 1) (x :: l)) with l.
  apply firstn_all2. simpl length. lia.
Qed.

Lemma slice_1_succ_cons (k : Z) (x : A) (l : list A) :
  0 <= k -> slice 1 (k + 1) (x :: l) = firstn (Z.to_nat k) l.
Proof.
  intros Hk. unfold slice, relative_index.
  replace (1 <? 0) with false by reflexivity.
  replace (k + 1 <? 0) with false by (symmetry; apply Z.ltb_ge; lia).
  replace (Z.min 1 (Z.of_nat (length (x :: l)))) with 1 by (simpl length; lia).
  change (skipn (Z.to_nat 1) (x :: l)) with l.
  destruct (Z_le_gt_dec k (Z.of_nat (length l))) as [Hle|Hgt].
  - f_equal. simpl length. lia.
  - rewrite !firstn_all2; [reflexivity|lia|simpl length; lia].
Qed.

Lemma sort_insert_Permutation (c : A -> A -> Q) (x : A) (l : list A) :
  Permutation (x :: l) (sort_insert c x l).
Proof.
  induction l as [|y l IH]; simpl; [reflexivity|].
  destruct (Qltb 0 (c x y)); [|reflexivity].
  rewrite <- IH. apply perm_swap.
Qed.

Lemma sort_Permutation (c : A -> A -> Q) (l : list A) : Permutation l (sort c l).
Proof.
  induction l as [|x l IH]; simpl; [reflexivity|].
  rewrite <- sort_insert_Permutation. constructor. exact IH.
Qed.

End SliceFacts.

Section SortFacts.

Context {A : Type}.

(** The sort looks at the sign of the comparator only. *)
Lemma sort_ext (c1 c2 : A -> A -> Q) (l : list A) :
  (forall x y, Qltb 0 (c1 x y) = Qltb 0 (c2 x y)) -> sort c1 l = sort c2 l.
Proof.
  intros Hc. induction l as [|x l IH]; simpl; [reflexivity|].
  rewrite IH. generalize (sort c2 l). intros s.
  induction s as [|y s IHs]; simpl; [reflexivity|].
  rewrite Hc, IHs. reflexivity.
Qed.

End SortFacts.

(** ** The router *)

Section RouterConfidence.

Import Router.
Context `{Host}.
Variable config : RouterConfig.

(** The value of the final [clamp] lies between 0 and 1. This is a fact
    of the code where no divisor is 0; where one is, the code's value can
    be [NaN] (see [calculateConfidence]). *)
Lemma calculateConfidence_in_unit_interval (similarity : Q) (tool : ToolDefinition) :
  (0 <= calculateConfidence config similarity tool <= 1)%Q.
Proof. unfold calculateConfidence. apply clamp_unit. Qed.

(** The factor [0.9 + 0.1 * (1 / (1 + x))] of an adjustment lies between
    0.9 and 1 when the estimate is not negative. *)
Lemma adjustment_factor_bounds (x : Q) :
  (0 <= x)%Q -> ((9 # 10) <= (9 # 10) + (1 # 10) * (1 / (1 + x)) <= 1)%Q.
Proof.
  intros Hx.
  assert (Hpos : (0 < 1 + x)%Q) by lra.
  assert (H0 : (0 <= 1 / (1 + x))%Q).
  { apply Qle_shift_div_l; [exact Hpos|]. lra. }
  assert (H1 : (1 / (1 + x) <= 1)%Q).
  { apply Qle_shift_div_r; [exact Hpos|]. lra. }
  split; lra.
Qed.

Lemma adjusted_bounds (lo s c f : Q) :
  (0 <= s)%Q -> (0 <= lo)%Q -> (lo * s <= c <= s)%Q -> ((9 # 10) <= f <= 1)%Q ->
  ((9 # 10) * lo * s <= c * f <= s)%Q.
Proof.
  intros Hs Hlo [Hc1 Hc2] [Hf1 Hf2].
  assert (H0 : (0 <= lo * s)%Q) by (apply Qmult_le_0_compat; assumption).
  assert (Ha : (0 <= c * (1 - f))%Q) by (apply Qmult_le_0_compat; lra).
  assert (Hb : (0 <= c * (f - (9 # 10)))%Q) by (apply Qmult_le_0_compat; lra).
  split; lra.
Qed.

(** For a similarity between 0 and 1 and estimates that are not negative,
    the adjustments for cost and latency only lower the confidence, and by
    at most 19 percent. *)
Lemma calculateConfidence_adjusts_downwards (similarity : Q) (tool : ToolDefinition) :
  (0 <= similarity <= 1)%Q ->
  (forall cost, costEstimate tool = Some cost -> (0 <= cost_min cost)%Q) ->
  (forall latency, latencyEstimate tool = Some latency -> (0 <= latency)%Q) ->
  ((81 # 100) * similarity <= calculateConfidence config similarity tool <= similarity)%Q.
Proof.
  intros [Hs0 Hs1] Hcost Hlat. unfold calculateConfidence.
  set (c1 := match costEstimate tool with
             | Some cost =>
               if enableCostOptimization config
               then (similarity * ((9 # 10) + (1 # 10) * (1 / (1 + cost_min cost / 100))))%Q
               else similarity
             | None => similarity
             end).
  assert (H1 : ((9 # 10) * similarity <= c1 <= similarity)%Q).
  { subst c1. destruct (costEstimate tool) as [cost|]; [|split; lra].
    destruct (enableCostOptimization config); [|split; lra].
    assert (Hx : (0 <= cost_min cost / 100)%Q).
    { apply Qle_shift_div_l; [reflexivity|]. specialize (Hcost cost eq_refl). lra. }
    pose proof (adjusted_bounds 1 similarity similarity _ Hs0 ltac:(lra) ltac:(split; lra)
                  (adjustment_factor_bounds _ Hx)) as Hb.
    split; lra. }
  set (c2 := match latencyEstimate tool with
             | Some latency =>
               if enableLatencyOptimization config && truthy_num (Some latency)
               then (c1 * ((9 # 10) + (1 # 10) * (1 / (1 + latency / 1000))))%Q
               else c1
             | None => c1
             end).
  assert (H2 : ((81 # 100) * similarity <= c2 <= similarity)%Q).
  { subst c2. destruct (latencyEstimate tool) as [latency|]; [|split; lra].
    destruct (enableLatencyOptimization config && truthy_num (Some latency)); [|split; lra].
    assert (Hx : (0 <= latency / 1000)%Q).
    { apply Qle_shift_div_l; [reflexivity|]. specialize (Hlat latency eq_refl). lra. }
    pose proof (adjusted_bounds (9 # 10) similarity c1 _ Hs0 ltac:(lra) H1
                  (adjustment_factor_bounds _ Hx)) as Hb.
    split; lra. }
  unfold clamp. split.
  - apply Q.min_glb; [|lra].
    apply Qle_trans with c2; [lra|apply Q.le_max_l].
  - apply Qle_trans with (Qmax c2 0); [apply Q.le_min_l|].
    apply Q.max_lub; lra.
Qed.

(** X1. For a tool whose cost and latency estimates are not negative (the
    divisors [1 + min / 100] and [1 + latencyEstimate / 1000] are then at
    least 1), the confidence [calculateConfidence] returns lies between 0
    and 1 whatever the similarity. For a similarity between 0 and 1 the
    adjustments for cost and latency only lower it, and by at most 19
    percent: in exact arithmetic it lies between 0.81 times the similarity
    and the similarity. *)
Theorem calculateConfidence_bounds (similarity : Q) (tool : ToolDefinition) :
  (forall cost, costEstimate tool = Some cost -> (0 <= cost_min cost)%Q) ->
  (forall latency, latencyEstimate tool = Some latency -> (0 <= latency)%Q) ->
  (0 <= calculateConfidence config similarity tool <= 1)%Q /\
  ((0 <= similarity <= 1)%Q ->
   ((81 # 100) * similarity <= calculateConfidence config similarity tool <= similarity)%Q).
Proof.
  intros Hcost Hlat. split.
  - apply calculateConfidence_in_unit_interval.
  - intros Hs. apply calculateConfidence_adjusts_downwards; assumption.
Qed.

End RouterConfidence.

Lemma calculateConfidence_bounds_witness :
  (0 <= Router.calculateConfidence Router.default_config (9 # 10) (Examples.costly_tool "report")
   <= 1)%Q /\
  ((0 <= 9 # 10 <= 1)%Q ->
   ((81 # 100) * (9 # 10)
    <= Router.calculateConfidence Router.default_config (9 # 10) (Examples.costly_tool "report")
    <= 9 # 10)%Q).
Proof.
  apply (calculateConfidence_bounds Router.default_config (9 # 10)
           (Examples.costly_tool "report")).
  - intros cost E. injection E as <-. discriminate.
  - intros latency E. injection E as <-. discriminate.
Defined.

Section RouterResults.

Import Router.
Context `{Host}.
Variable config : RouterConfig.
Variable toolSimilarity : nat -> ToolDefinition -> completion (list Q * Q).

Abbreviation matchTools := (Router.matchTools config toolSimilarity).
Abbreviation route := (Router.route config toolSimilarity).

(** X2. A result of [route] is discriminated by [success]: either it
    succeeds and carries a decision and no error, or it fails and carries
    no decision and an error whose code is NO_MATCH or ROUTING_ERROR; a
    ROUTING_ERROR comes with no alternatives. *)
Theorem route_result_discriminated (clock : RouteClock) (req : RouteRequest) :
  let r := route clock req in
  (success r = true /\ (exists d, decision r = Some d) /\ error r = None) \/
  (success r = false /\ decision r = None /\
   exists e, error r = Some e /\
             (code e = "NO_MATCH" \/ (code e = "ROUTING_ERROR" /\ alternatives r = []))).
Proof.
  unfold Router.route, Router.route_result.
  destruct (Router.matchTools config toolSimilarity (route_availableTools req)) as [matches|e].
  - destruct (length _ =? 0)%nat.
    + right. simpl. repeat split. eexists. split; [reflexivity|]. left. reflexivity.
    + destruct (sort _ _) as [|best rest].
      * right. simpl. repeat split. eexists. split; [reflexivity|]. right. split; reflexivity.
      * left. simpl. repeat split. eexists. reflexivity.
  - right. simpl. repeat split. eexists. split; [reflexivity|]. right. split; reflexivity.
Qed.

(** X3. When [route] selects a tool, no qualifying match is lost: the
    selected match followed by the alternatives is a rearrangement of the
    matches whose confidence reaches the minimum, the confidence of the
    decision reaches it, and, for a non-negative limit, the fallback tools
    are the tools of the first [maxAlternatives] alternatives. *)
Theorem route_selection_partition
    (clock : RouteClock) (req : RouteRequest) (d : RoutingDecision) :
  decision (route clock req) = Some d ->
  0 <= effective_maxAlternatives config (options req) ->
  exists matches best,
    matchTools (route_availableTools req) = Normal matches /\
    selectedTool d = tool best /\
    decision_confidence d = confidence best /\
    Permutation
      (best :: alternatives (route clock req))
      (List.filter
         (fun m => Qle_bool (effective_minConfidence config (options req)) (confidence m))
         matches) /\
    (effective_minConfidence config (options req) <= decision_confidence d)%Q /\
    fallbackTools d
    = map tool (firstn (Z.to_nat (effective_maxAlternatives config (options req)))
                       (alternatives (route clock req))).
Proof.
  intros Hd Hk.
  destruct (route_success_inv config toolSimilarity clock req d Hd)
    as (matches & best & rest & Hm & Hs & Htool & Hconf & Hfall & _).
  assert (Halt : alternatives (route clock req) = rest).
  { unfold Router.route, Router.route_result in *. rewrite Hm in *.
    destruct (length _ =? 0)%nat; [discriminate Hd|].
    unfold by_key_descending in Hs. rewrite Hs. simpl. apply slice_from_1_cons. }
  assert (Hperm : Permutation (best :: rest)
                    (List.filter
                       (fun m => Qle_bool (effective_minConfidence config (options req))
                                          (confidence m)) matches)).
  { rewrite <- Hs. symmetry. apply sort_Permutation. }
  exists matches, best. rewrite Halt.
  split; [exact Hm|]. split; [exact Htool|]. split; [exact Hconf|].
  split; [exact Hperm|]. split.
  - rewrite Hconf.
    assert (Hin : In best (List.filter
                             (fun m => Qle_bool (effective_minConfidence config (options req))
                                                (confidence m)) matches)).
    { eapply Permutation_in; [exact Hperm|]. left. reflexivity. }
    apply List.filter_In in Hin as [_ Hb]. apply Qle_bool_iff. exact Hb.
  - rewrite Hfall. rewrite slice_1_succ_cons by exact Hk. reflexivity.
Qed.

End RouterResults.

Lemma route_selection_partition_witness :
  exists d best,
    Router.decision Examples.twin_call = Some d /\
    selectedTool d = Router.tool best /\
    (Router.effective_minConfidence Router.default_config Router.no_options
     <= decision_confidence d)%Q /\
    fallbackTools d
    = map Router.tool (firstn 3 (Router.alternatives Examples.twin_call)).
Proof.
  destruct (Router.decision Examples.twin_call) as [d|] eqn:Ed; [|discriminate Ed].
  destruct (@route_selection_partition Examples.integer_host Router.default_config
              (Examples.constant_similarity (9 # 10)) Examples.clock0
              (Examples.route_request Examples.twin_tools Router.no_options) d Ed)
    as (matches & best & _ & Htool & _ & _ & Hmin & Hfall).
  { vm_compute. discriminate. }
  exists d, best. split; [reflexivity|]. split; [exact Htool|].
  split; [exact Hmin|exact Hfall].
Defined.

(** ** The embedding cache and the embedding service *)

Section CacheExtras.

Import Embeddings.

(** Writing one key leaves every other key as it was: a read of another
    key gives what it gave before the write, and a read never changes the
    entry of another key. *)
Lemma cache_other_keys_untouched
    (c : InMemoryEmbeddingCache.t) (k k' : string) (v : list Q) (t_write now : Z) :
  k <> k' ->
  fst (InMemoryEmbeddingCache.get now k' (InMemoryEmbeddingCache.set t_write k v c))
  = fst (InMemoryEmbeddingCache.get now k' c) /\
  InMemoryEmbeddingCache.cache (snd (InMemoryEmbeddingCache.get now k' c)) !! k
  = InMemoryEmbeddingCache.cache c !! k /\
  InMemoryEmbeddingCache.timestamps (snd (InMemoryEmbeddingCache.get now k' c)) !! k
  = InMemoryEmbeddingCache.timestamps c !! k.
Proof.
  intros Hk. unfold InMemoryEmbeddingCache.get, InMemoryEmbeddingCache.set. simpl.
  rewrite !lookup_insert_ne by exact Hk.
  destruct (InMemoryEmbeddingCache.timestamps c !! k') as [ts|]; [|auto].
  destruct (ts =? 0); [auto|].
  destruct (now - ts >? InMemoryEmbeddingCache.ttlMs c); simpl; [|auto].
  rewrite !lookup_delete_ne by congruence. auto.
Qed.

(** A second write of a key replaces the first altogether, vector and
    timestamp: the cache is the one a single write of the second vector
    gives, and a read within the time to live of the second write returns
    the second vector, however old the first write is. *)
Lemma cache_last_write_wins
    (c : InMemoryEmbeddingCache.t) (k : string) (v1 v2 : list Q) (t1 t2 t_read : Z) :
  InMemoryEmbeddingCache.set t2 k v2 (InMemoryEmbeddingCache.set t1 k v1 c)
  = InMemoryEmbeddingCache.set t2 k v2 c /\
  (t2 <> 0 -> t_read - t2 <= InMemoryEmbeddingCache.ttlMs c ->
   fst (InMemoryEmbeddingCache.get t_read k
          (InMemoryEmbeddingCache.set t2 k v2 (InMemoryEmbeddingCache.set t1 k v1 c)))
   = Some v2).
Proof.
  assert (E : InMemoryEmbeddingCache.set t2 k v2 (InMemoryEmbeddingCache.set t1 k v1 c)
              = InMemoryEmbeddingCache.set t2 k v2 c).
  { unfold InMemoryEmbeddingCache.set. simpl. rewrite !insert_insert_eq. reflexivity. }
  split; [exact E|].
  intros Ht Hage. rewrite E, cache_get_after_set by exact Ht.
  replace (t_read - t2 >? InMemoryEmbeddingCache.ttlMs c) with false
    by (symmetry; rewrite Z.gtb_ltb; apply Z.ltb_ge; lia).
  reflexivity.
Qed.

(** X4. A write concerns its key only and replaces what was written
    before: reads of other keys are as before the write, a read leaves the
    entries of other keys alone, and after two writes of one key the cache is
    the one the second write alone gives, so that a read within the time to
    live of the second write returns the second vector. *)
Theorem cache_writes_are_per_key
    (c : InMemoryEmbeddingCache.t) (k k' : string) (v1 v2 : list Q) (t1 t2 now : Z) :
  (k <> k' ->
   fst (InMemoryEmbeddingCache.get now k' (InMemoryEmbeddingCache.set t1 k v1 c))
   = fst (InMemoryEmbeddingCache.get now k' c) /\
   InMemoryEmbeddingCache.cache (snd (InMemoryEmbeddingCache.get now k' c)) !! k
   = InMemoryEmbeddingCache.cache c !! k /\
   InMemoryEmbeddingCache.timestamps (snd (InMemoryEmbeddingCache.get now k' c)) !! k
   = InMemoryEmbeddingCache.timestamps c !! k) /\
  InMemoryEmbeddingCache.set t2 k v2 (InMemoryEmbeddingCache.set t1 k v1 c)
  = InMemoryEmbeddingCache.set t2 k v2 c /\
  (t2 <> 0 -> now - t2 <= InMemoryEmbeddingCache.ttlMs c ->
   fst (InMemoryEmbeddingCache.get now k
          (InMemoryEmbeddingCache.set t2 k v2 (InMemoryEmbeddingCache.set t1 k v1 c)))
   = Some v2).
Proof.
  split; [apply cache_other_keys_untouched|]. apply cache_last_write_wins.
Qed.

End CacheExtras.

Lemma cache_writes_are_per_key_witness :
  let c := Embeddings.InMemoryEmbeddingCache.set 5 "tool:b" [1%Q]
             (Embeddings.InMemoryEmbeddingCache.create None) in
  fst (Embeddings.InMemoryEmbeddingCache.get 10 "tool:b"
         (Embeddings.InMemoryEmbeddingCache.set 7 "tool:a" [] c))
  = fst (Embeddings.InMemoryEmbeddingCache.get 10 "tool:b" c) /\
  fst (Embeddings.InMemoryEmbeddingCache.get 400000 "tool:a"
         (Embeddings.InMemoryEmbeddingCache.set 350000 "tool:a" [2%Q]
            (Embeddings.InMemoryEmbeddingCache.set 1 "tool:a" [1%Q] c)))
  = Some [2%Q].
Proof.
  intros c. split.
  - apply (proj1 (cache_writes_are_per_key c "tool:a" "tool:b" [] [] 7 7 10)).
    discriminate.
  - apply (proj2 (proj2 (cache_writes_are_per_key c "tool:a" "tool:b" [1%Q] [2%Q]
                           1 350000 400000))).
    + discriminate.
    + simpl. lia.
Defined.

Section HashString.

Import Embeddings.

Lemma ToInt32_range (z : Z) : - 2 ^ 31 <= ToInt32 z < 2 ^ 31.
Proof.
  unfold ToInt32. pose proof (Z.mod_pos_bound (z + 2 ^ 31) (2 ^ 32) ltac:(lia)). lia.
Qed.

Lemma ToInt32_mod (z : Z) : ToInt32 z mod 2 ^ 32 = z mod 2 ^ 32.
Proof.
  unfold ToInt32.
  rewrite Zminus_mod, Zmod_mod, <- Zminus_mod.
  f_equal. lia.
Qed.

Lemma ToInt32_congruent (a b : Z) : a mod 2 ^ 32 = b mod 2 ^ 32 -> ToInt32 a = ToInt32 b.
Proof.
  intros E. unfold ToInt32.
  rewrite (Zplus_mod a), (Zplus_mod b), E. reflexivity.
Qed.

Lemma hash_loop_polynomial (l : list ascii) : forall acc p,
  acc = ToInt32 p ->
  fold_left
    (fun hash c =>
       let char := Z.of_nat (nat_of_ascii c) in
       let hash := ToInt32 (hash * 32) - hash + char in
       ToInt32 hash) l acc
  = ToInt32 (fold_left (fun h c => 31 * h + Z.of_nat (nat_of_ascii c)) l p).
Proof.
  induction l as [|c l IH]; intros acc p Hacc; simpl; [exact Hacc|].
  apply IH. apply ToInt32_congruent.
  rewrite Zplus_mod, Zminus_mod, ToInt32_mod, Hacc.
  rewrite (Zmult_mod (ToInt32 p)), ToInt32_mod, <- Zmult_mod.
  rewrite <- Zminus_mod, <- Zplus_mod. f_equal. lia.
Qed.

(** X5. [hashString] is the absolute value of the base-31 polynomial of the
    code units wrapped to 32 bits, and lies between 0 and 2^31. *)
Theorem hashString_polynomial (str : string) :
  hashString str = Z.abs (ToInt32 (polynomial31 0 str)) /\
  0 <= hashString str <= 2 ^ 31.
Proof.
  assert (E : hashString str = Z.abs (ToInt32 (polynomial31 0 str))).
  { unfold hashString, polynomial31. f_equal.
    apply hash_loop_polynomial. reflexivity. }
  split; [exact E|]. rewrite E.
  pose proof (ToInt32_range (polynomial31 0 str)). lia.
Qed.

End HashString.

Section CosineSimilarity.

Import Embeddings.
Variable Math_sqrt : Q -> Q.

Lemma Qmult_comm_eq (x y : Q) : (x * y)%Q = (y * x)%Q.
Proof. unfold Qmult. rewrite Z.mul_comm, Pos.mul_comm. reflexivity. Qed.

Lemma dot_product_comm (a : list Q) : forall (b : list Q) (acc : Q),
  fold_left (fun s p => (s + fst p * snd p)%Q) (combine a b) acc
  = fold_left (fun s p => (s + fst p * snd p)%Q) (combine b a) acc.
Proof.
  induction a as [|x a IH]; intros [|y b] acc; simpl; try reflexivity.
  rewrite (Qmult_comm_eq x y). apply IH.
Qed.

(** X6. [cosineSimilarity] throws exactly when the two vectors differ in
    length, and it is symmetric: swapping the arguments gives the same
    number, or the same exception. *)
Theorem cosineSimilarity_symmetric (a b : list Q) :
  cosineSimilarity Math_sqrt a b = cosineSimilarity Math_sqrt b a /\
  (length a = length b <-> exists x, cosineSimilarity Math_sqrt a b = Normal x) /\
  (length a <> length b <->
   cosineSimilarity Math_sqrt a b = Throw (Error "Vectors must have same dimensions")).
Proof.
  unfold cosineSimilarity.
  destruct (Nat.eqb_spec (length a) (length b)) as [E|E]; simpl.
  - rewrite <- E, Nat.eqb_refl. simpl. split.
    + rewrite dot_product_comm, (Qmult_comm_eq (Math_sqrt (sum_squares a))). reflexivity.
    + split; split; intros; try eauto; try congruence; discriminate.
  - replace (length b =? length a)%nat with false
      by (symmetry; apply Nat.eqb_neq; congruence).
    simpl. split; [reflexivity|].
    split; split; intros; try congruence; try reflexivity.
    destruct H as [x Hx]. discriminate Hx.
Qed.

End CosineSimilarity.

Section ServiceDimensions.

Import Embeddings.
Context `{Host}.
Variable Math_sin : Q -> Q.
Variable Math_sqrt : Q -> Q.

Lemma cache_get_dimensions_ok (now : Z) (k : string) (svc : EmbeddingService) :
  cache_dimensions_ok svc ->
  let r := InMemoryEmbeddingCache.get now k (service_cache svc) in
  cache_dimensions_ok (with_cache (snd r) svc) /\
  (forall cached, fst r = Some cached -> length cached = Z.to_nat (dimensions svc)).
Proof.
  unfold cache_dimensions_ok, InMemoryEmbeddingCache.get. intros Hok.
  destruct (InMemoryEmbeddingCache.timestamps (service_cache svc) !! k) as [ts|];
    [|split; [exact Hok|discriminate]].
  destruct (ts =? 0); [split; [exact Hok|discriminate]|].
  destruct (now - ts >? InMemoryEmbeddingCache.ttlMs (service_cache svc)); simpl.
  - split; [|discriminate]. apply map_Forall_delete. exact Hok.
  - split; [exact Hok|]. intros cached E. exact (Hok k cached E).
Qed.

Lemma cache_set_dimensions_ok (now : Z) (k : string) (v : list Q)
    (c : InMemoryEmbeddingCache.t) (svc : EmbeddingService) :
  cache_dimensions_ok (with_cache c svc) ->
  length v = Z.to_nat (dimensions svc) ->
  cache_dimensions_ok (with_cache (InMemoryEmbeddingCache.set now k v c) svc).
Proof.
  unfold cache_dimensions_ok. simpl. intros Hok Hv.
  apply map_Forall_insert_2; assumption.
Qed.

Lemma callEmbeddingAPI_dimensions (svc : EmbeddingService) (text : string) :
  length (callEmbeddingAPI Math_sin Math_sqrt svc text) = Z.to_nat (dimensions svc).
Proof.
  unfold callEmbeddingAPI, raw_embedding. rewrite !length_map, length_seq. reflexivity.
Qed.

(** One call keeps the cache in shape and answers with a vector of the
    configured length, from the cache or freshly generated. *)
Lemma serve_dimensions_ok (call : ServiceCall) (svc : EmbeddingService) :
  cache_dimensions_ok svc ->
  let r := serve Math_sin Math_sqrt call svc in
  length (embedding (fst r)) = Z.to_nat (dimensions svc) /\
  embedding_dimensions (fst r) = dimensions svc /\
  dimensions (snd r) = dimensions svc /\
  cache_dimensions_ok (snd r).
Proof.
  intros Hok.
  destruct call as [t_get t_set i|t_get t_set toolName description];
    unfold serve, embedIntent, embedToolDescription, generateEmbedding.
  - destruct (cache_get_dimensions_ok t_get (generateCacheKey i) svc Hok) as [Hc Hv].
    destruct (InMemoryEmbeddingCache.get t_get (generateCacheKey i) (service_cache svc))
      as [[cached|] c]; cbn [fst snd] in *.
    + split; [exact (Hv cached eq_refl)|]. split; [reflexivity|].
      split; [reflexivity|exact Hc].
    + split; [apply callEmbeddingAPI_dimensions|]. split; [reflexivity|].
      split; [reflexivity|].
      apply cache_set_dimensions_ok; [exact Hc|apply callEmbeddingAPI_dimensions].
  - destruct (cache_get_dimensions_ok t_get ("tool:" ++ toolName) svc Hok) as [Hc Hv].
    destruct (InMemoryEmbeddingCache.get t_get ("tool:" ++ toolName) (service_cache svc))
      as [[cached|] c]; cbn [fst snd] in *.
    + split; [exact (Hv cached eq_refl)|]. split; [reflexivity|].
      split; [reflexivity|exact Hc].
    + split; [apply callEmbeddingAPI_dimensions|]. split; [reflexivity|].
      split; [reflexivity|].
      apply cache_set_dimensions_ok; [exact Hc|apply callEmbeddingAPI_dimensions].
Qed.

Lemma serve_all_dimensions_ok (calls : list ServiceCall) : forall svc,
  cache_dimensions_ok svc ->
  Forall (fun answer => length (embedding answer) = Z.to_nat (dimensions svc) /\
                        embedding_dimensions answer = dimensions svc)
         (fst (serve_all Math_sin Math_sqrt calls svc)).
Proof.
  induction calls as [|call rest IH]; intros svc Hok; simpl; [constructor|].
  destruct (serve_dimensions_ok call svc Hok) as (Hlen & Hdim & Hsame & Hok').
  destruct (serve Math_sin Math_sqrt call svc) as [answer svc1]. cbn [fst snd] in *.
  specialize (IH svc1 Hok'). rewrite Hsame in IH.
  destruct (serve_all Math_sin Math_sqrt rest svc1) as [answers svc2]. cbn [fst] in *.
  constructor; [split; assumption|exact IH].
Qed.

(** A service starts with a cache in shape when it builds the cache itself,
    or is handed one that holds only vectors of the configured length. *)
Lemma new_service_dimensions_ok (o : ServiceOptions) :
  (forall c, option_cache o = Some c ->
     map_Forall (fun _ v => length v = Z.to_nat (dimensions (new_service o)))
                (InMemoryEmbeddingCache.cache c)) ->
  cache_dimensions_ok (new_service o).
Proof.
  intros Hc. unfold cache_dimensions_ok.
  destruct (option_cache o) as [c|] eqn:E.
  - replace (service_cache (new_service o)) with c
      by (unfold new_service; rewrite E; reflexivity).
    apply Hc. reflexivity.
  - replace (service_cache (new_service o))
      with (InMemoryEmbeddingCache.create (option_cacheTtlMs o))
      by (unfold new_service; rewrite E; reflexivity).
    apply map_Forall_empty.
Qed.

(** X7. Whatever calls of [embedIntent] and [embedToolDescription] a
    service has answered since it was constructed, every embedding it
    returns, generated or read from the cache, has as many components as
    the loop of [callEmbeddingAPI] makes for the configured dimensions:
    exactly that number when it is not negative, none when it is negative.
    The answer reports the configured number. A cache handed to the
    constructor is assumed to hold only vectors of that length. *)
Theorem service_embeddings_have_configured_length
    (o : ServiceOptions) (calls : list ServiceCall) :
  (forall c, option_cache o = Some c ->
     map_Forall (fun _ v => length v = Z.to_nat (dimensions (new_service o)))
                (InMemoryEmbeddingCache.cache c)) ->
  Forall (fun answer =>
            (0 <= dimensions (new_service o) ->
             Z.of_nat (length (embedding answer)) = dimensions (new_service o)) /\
            (dimensions (new_service o) < 0 -> embedding answer = []) /\
            embedding_dimensions answer = dimensions (new_service o))
         (fst (serve_all Math_sin Math_sqrt calls (new_service o))).
Proof.
  intros Hc.
  pose proof (serve_all_dimensions_ok calls _ (new_service_dimensions_ok o Hc)) as Hall.
  eapply List.Forall_impl; [|exact Hall].
  intros answer [Hlen Hdim]. cbv beta in *. split; [|split; [|exact Hdim]].
  - intros Hd. rewrite Hlen. apply Z2Nat.id. exact Hd.
  - intros Hd. apply length_zero_iff_nil. rewrite Hlen. lia.
Qed.

End ServiceDimensions.

Lemma service_embeddings_have_configured_length_witness :
  let warm := Embeddings.InMemoryEmbeddingCache.set 5 "tool:search" [1%Q; 0%Q]
                (Embeddings.InMemoryEmbeddingCache.create None) in
  let o := {| Embeddings.option_model := None; Embeddings.option_dimensions := Some 2;
              Embeddings.option_cache := Some warm; Embeddings.option_cacheTtlMs := None |} in
  let calls := [Embeddings.EmbedTool 6 6 "search" ""; Embeddings.EmbedTool 7 7 "fetch" ""] in
  let answers := fst (@Embeddings.serve_all Examples.integer_host (fun x => x) (fun x => x)
                        calls (Embeddings.new_service o)) in
  map (fun answer => length (Embeddings.embedding answer)) answers = [2; 2]%nat /\
  option_map Embeddings.embedding (head answers) = Some [1%Q; 0%Q] /\
  Forall (fun answer =>
            (0 <= Embeddings.dimensions (Embeddings.new_service o) ->
             Z.of_nat (length (Embeddings.embedding answer))
             = Embeddings.dimensions (Embeddings.new_service o)) /\
            (Embeddings.dimensions (Embeddings.new_service o) < 0 ->
             Embeddings.embedding answer = []) /\
            Embeddings.embedding_dimensions answer
            = Embeddings.dimensions (Embeddings.new_service o))
         answers.
Proof.
  intros warm o calls answers.
  split; [vm_compute; reflexivity|]. split; [vm_compute; reflexivity|].
  apply (@service_embeddings_have_configured_length Examples.integer_host
           (fun x => x) (fun x => x) o calls).
  intros c E. injection E as <-.
  apply map_Forall_insert_2; [reflexivity|apply map_Forall_empty].
Defined.

Section RouteServiceErrors.

Import Router.
Context `{Host}.
Variable config : RouterConfig.
Variable Math_sin : Q -> Q.
Variable Math_sqrt : Q -> Q.
Variable cacheClock : nat -> Z * Z.

(** With a cache in shape and an intent embedding of the configured
    length, [matchTools] returns: no pair of vectors it compares differs in
    length. *)
Lemma matchTools_service_returns (tools : list ToolDefinition) :
  forall (i : nat) (intentEmbedding : list Q) (svc : Embeddings.EmbeddingService),
    Embeddings.cache_dimensions_ok svc ->
    length intentEmbedding = Z.to_nat (Embeddings.dimensions svc) ->
    let r := matchTools_service config Math_sin Math_sqrt cacheClock i intentEmbedding tools svc in
    (exists matches, fst r = Normal matches) /\
    Embeddings.cache_dimensions_ok (snd r) /\
    Embeddings.dimensions (snd r) = Embeddings.dimensions svc.
Proof.
  induction tools as [|t rest IH]; intros i intentEmbedding svc Hok Hlen.
  - simpl. split; [eexists; reflexivity|]. split; [exact Hok|reflexivity].
  - cbn [matchTools_service]. unfold embedTool.
    pose proof (serve_dimensions_ok Math_sin Math_sqrt
                  (Embeddings.EmbedTool (fst (cacheClock i)) (snd (cacheClock i))
                     (tool_name t) (tool_description t)) svc Hok) as Hserve.
    cbn [Embeddings.serve] in Hserve.
    destruct (Embeddings.embedToolDescription Math_sin Math_sqrt (fst (cacheClock i))
                (snd (cacheClock i)) (tool_name t) (tool_description t) svc)
      as [toolEmbedding svc1].
    cbn [fst snd] in Hserve. destruct Hserve as (Hl & _ & Hd & Hok1).
    unfold Embeddings.calculateSimilarity, Embeddings.cosineSimilarity.
    replace (length intentEmbedding =? length (Embeddings.embedding toolEmbedding))%nat
      with true by (symmetry; apply Nat.eqb_eq; congruence).
    cbn [negb].
    specialize (IH (S i) intentEmbedding svc1 Hok1 ltac:(congruence)).
    destruct (matchTools_service config Math_sin Math_sqrt cacheClock (S i) intentEmbedding
                rest svc1) as [later svc2].
    cbn [fst snd] in *. destruct IH as ([matches ->] & Hok2 & Hd2).
    split; [simpl; eexists; reflexivity|]. split; [exact Hok2|congruence].
Qed.

(** X8. On a service whose cache is in shape, as it is from its
    construction on, [route] answers ROUTING_ERROR only for a request that
    carries no intent: the embeddings it compares always agree in length.
    The cache is in shape afterwards. *)
Theorem route_service_error_only_without_intent
    (intentClock : Z * Z) (clock : RouteClock) (req : RouteRequest)
    (svc : Embeddings.EmbeddingService) :
  Embeddings.cache_dimensions_ok svc ->
  let r := route_service config Math_sin Math_sqrt cacheClock intentClock clock req svc in
  Embeddings.cache_dimensions_ok (snd r) /\
  (forall e, error (fst r) = Some e -> code e = "ROUTING_ERROR" ->
             normalizedIntent (request req) = None).
Proof.
  intros Hok. unfold route_service.
  destruct (normalizedIntent (request req)) as [i|]; [|split; [exact Hok|reflexivity]].
  pose proof (serve_dimensions_ok Math_sin Math_sqrt
                (Embeddings.EmbedIntent (fst intentClock) (snd intentClock) i) svc Hok)
    as Hserve.
  cbn [Embeddings.serve] in Hserve.
  destruct (Embeddings.embedIntent Math_sin Math_sqrt (fst intentClock) (snd intentClock) i svc)
    as [intentEmbedding svc1].
  cbn [fst snd] in Hserve. destruct Hserve as (Hl & _ & Hd & Hok1).
  destruct (matchTools_service_returns (route_availableTools req) 0
              (Embeddings.embedding intentEmbedding) svc1 Hok1 ltac:(congruence))
    as ([matches Hm] & Hok2 & _).
  destruct (matchTools_service config Math_sin Math_sqrt cacheClock 0
              (Embeddings.embedding intentEmbedding) (route_availableTools req) svc1)
    as [matched svc2].
  cbn [fst snd] in *. subst matched. split; [exact Hok2|].
  intros e He Hcode. exfalso. unfold route_result in He.
  destruct (List.filter _ matches) as [|v vs] eqn:Ef.
  - simpl in He. injection He as <-. discriminate Hcode.
  - cbn [length Nat.eqb] in He.
    destruct (sort _ (v :: vs)) as [|best rest] eqn:Es.
    + apply (f_equal (@length _)) in Es. rewrite length_sort in Es. discriminate Es.
    + discriminate He.
Qed.

End RouteServiceErrors.

Lemma route_service_error_only_without_intent_witness :
  let svc := Embeddings.new_service
               {| Embeddings.option_model := None; Embeddings.option_dimensions := Some 2;
                  Embeddings.option_cache := None; Embeddings.option_cacheTtlMs := None |} in
  let req := {| Router.request :=
                  {| request_id := "r0"; request_timestamp := 0; sourceProtocol := mcp;
                     rawPayload := JNull; normalizedIntent := None;
                     context := context Examples.some_request;
                     metadata := metadata Examples.some_request |};
                Router.route_availableTools := [Examples.plain_tool "search"];
                Router.options := Router.no_options |} in
  let r := @Router.route_service Examples.integer_host Router.default_config
             (fun x => x) (fun x => x) (fun _ => (1, 1)) (1, 1) Examples.clock0 req svc in
  Embeddings.cache_dimensions_ok svc /\
  option_map Router.code (Router.error (fst r)) = Some "ROUTING_ERROR" /\
  normalizedIntent (Router.request req) = None.
Proof.
  intros svc req r.
  assert (Hok : Embeddings.cache_dimensions_ok svc).
  { apply new_service_dimensions_ok. intros c E. discriminate E. }
  split; [exact Hok|]. split; [reflexivity|].
  destruct (@route_service_error_only_without_intent Examples.integer_host
              Router.default_config (fun x => x) (fun x => x) (fun _ => (1, 1)) (1, 1)
              Examples.clock0 req svc Hok) as [_ Hn].
  apply (Hn {| Router.code := "ROUTING_ERROR";
               Router.message := "Cannot read properties of undefined (reading 'category')";
               Router.suggestion := None |}); reflexivity.
Defined.

Section IntentCacheKey.

Import Embeddings.
Context `{Host}.
Variable Math_sin : Q -> Q.
Variable Math_sqrt : Q -> Q.

(** X9. The cache key of an intent is made of its category, action and
    parameters only. While the clock stands still, [embedIntent] answers
    an intent that agrees on these three with the vector it returned for
    the first one, whatever the target and the other fields are, and
    leaves the service as it is. In particular a repeated call is a hit. *)
Theorem embedIntent_reuses_by_key
    (now : Z) (i1 i2 : NormalizedIntent) (svc : EmbeddingService) :
  now <> 0 -> 0 <= InMemoryEmbeddingCache.ttlMs (service_cache svc) ->
  category i1 = category i2 -> action i1 = action i2 -> parameters i1 = parameters i2 ->
  let first := embedIntent Math_sin Math_sqrt now now i1 svc in
  let second := embedIntent Math_sin Math_sqrt now now i2 (snd first) in
  embedding (fst second) = embedding (fst first) /\ snd second = snd first.
Proof.
  intros Hnow Httl Hc Ha Hp. unfold embedIntent.
  assert (Hkey : generateCacheKey i2 = generateCacheKey i1).
  { unfold generateCacheKey. rewrite Hc, Ha, Hp. reflexivity. }
  rewrite Hkey.
  destruct (InMemoryEmbeddingCache.get now (generateCacheKey i1) (service_cache svc))
    as [[cached|] c] eqn:E1; cbn [fst snd with_cache service_cache model dimensions].
  - apply cache_get_hit in E1 as [-> E1]. rewrite E1.
    cbn [fst snd with_cache service_cache model dimensions embedding]. split; reflexivity.
  - assert (Httl' : InMemoryEmbeddingCache.ttlMs c
                    = InMemoryEmbeddingCache.ttlMs (service_cache svc)).
    { pose proof (cache_get_ttl now (generateCacheKey i1) (service_cache svc)) as Ht.
      rewrite E1 in Ht. exact Ht. }
    rewrite (cache_get_after_set c (generateCacheKey i1)
               (generateEmbedding Math_sin Math_sqrt svc i1) now now Hnow).
    replace (now - now >? InMemoryEmbeddingCache.ttlMs c) with false
      by (symmetry; rewrite Z.gtb_ltb; apply Z.ltb_ge; lia).
    cbn [fst snd with_cache service_cache model dimensions embedding]. split; reflexivity.
Qed.

End IntentCacheKey.

Lemma embedIntent_reuses_by_key_witness :
  let other :=
    {| intent_id := "i2"; category := conversation; action := JStr "find documentation";
       target := JStr "billing"; parameters := JObj []; intent_confidence := 1 # 2;
       intent_alternatives := [] |} in
  let svc := Embeddings.new_service
               {| Embeddings.option_model := None; Embeddings.option_dimensions := Some 2;
                  Embeddings.option_cache := None; Embeddings.option_cacheTtlMs := None |} in
  let first := @Embeddings.embedIntent Examples.integer_host (fun x => x) (fun x => x)
                 5 5 Examples.some_intent svc in
  let second := @Embeddings.embedIntent Examples.integer_host (fun x => x) (fun x => x)
                  5 5 other (snd first) in
  Embeddings.embedding (fst second) = Embeddings.embedding (fst first) /\
  snd second = snd first.
Proof.
  intros other svc.
  apply (@embedIntent_reuses_by_key Examples.integer_host (fun x => x) (fun x => x) 5
           Examples.some_intent other svc).
  - discriminate.
  - simpl. lia.
  - reflexivity.
  - reflexivity.
  - reflexivity.
Defined.

(** ** The sandbox pool *)

Section PoolShape.

Import Sandbox.

Lemma filter_all (l : list Sandbox) : List.filter (fun _ => true) l = l.
Proof. induction l as [|x l IH]; simpl; [reflexivity|]. rewrite IH. reflexivity. Qed.

Lemma returnToPool_poolConfig (sandbox : Sandbox) (rt : SandboxRuntime) :
  poolConfig (returnToPool sandbox rt) = poolConfig rt.
Proof.
  unfold returnToPool, pool_shift.
  destruct (_ >=? _); [|reflexivity]. destruct (pool rt); reflexivity.
Qed.

(** What a step does to the pool: it filters it, or it returns a sandbox
    to it. The configuration stays. *)
Lemma step_pool (rt : SandboxRuntime) (ev : Event) :
  poolConfig (step rt ev) = poolConfig rt /\
  ((exists f, pool (step rt ev) = List.filter f (pool rt)) \/
   (exists sandbox rt0,
       pool rt0 = pool rt /\ poolConfig rt0 = poolConfig rt /\
       pool (step rt ev) = pool (returnToPool sandbox rt0))).
Proof.
  destruct ev as [tool args timeout t0 t1 t2 fresh_id|nowTime fresh starts|i t1 t2 t3 t4].
  - simpl. unfold execute_begin, getFromPool.
    destruct (sort _ _) as [|first rest].
    + simpl. split; [reflexivity|]. left. exists (fun _ => true). symmetry. apply filter_all.
    + simpl. split; [reflexivity|]. left. eexists. reflexivity.
  - simpl. unfold maintainPool.
    pose proof (reap_kept nowTime (pool rt) rt) as Hk.
    destruct (reap nowTime (pool rt) rt) as [kept rt'] eqn:Er.
    apply reap_counters in Er as (_ & _ & _ & _ & _ & Hc).
    simpl in Hk. subst kept.
    destruct (_ >? 0); simpl; (split; [exact Hc|]); left; eexists; reflexivity.
  - cbn [step]. destruct (nth_error (pending rt) i) as [task|].
    + destruct task as [tool args timeout st cb cfg cs|sandbox tool args st cold es|cfg cs].
      * simpl. split; [reflexivity|]. left. exists (fun _ => true). symmetry. apply filter_all.
      * unfold execute_finish. cbv zeta. cbn [snd]. rewrite returnToPool_poolConfig.
        split; [reflexivity|]. right.
        exists (with_usage t3 sandbox), (with_pending (remove_nth i (pending rt)) rt).
        split; [|split]; reflexivity.
      * unfold warm_created.
        destruct (createSandbox_resume cfg cs (with_pending (remove_nth i (pending rt)) rt))
          as [sandbox rt1] eqn:Ec.
        rewrite returnToPool_poolConfig.
        unfold createSandbox_resume in Ec. injection Ec as <- <-.
        split; [reflexivity|]. right. eexists _, _.
        split; [|split; [|reflexivity]]; reflexivity.
    + split; [reflexivity|]. left. exists (fun _ => true). symmetry. apply filter_all.
Qed.

Lemma run_poolConfig (evs : list Event) : forall rt, poolConfig (run rt evs) = poolConfig rt.
Proof.
  unfold run. induction evs as [|ev evs IH]; intros rt; simpl; [reflexivity|].
  rewrite IH. apply step_pool.
Qed.

(** A property of the pool that filtering and returning a sandbox keep is
    kept by every run. *)
Lemma pool_invariant_run (P : SandboxPoolConfig -> list Sandbox -> Prop) :
  (forall cfg f p, P cfg p -> P cfg (List.filter f p)) ->
  (forall sandbox rt, P (poolConfig rt) (pool rt) ->
                      P (poolConfig rt) (pool (returnToPool sandbox rt))) ->
  forall evs rt, P (poolConfig rt) (pool rt) ->
                 P (poolConfig (run rt evs)) (pool (run rt evs)).
Proof.
  intros Hfilter Hreturn. unfold run.
  induction evs as [|ev evs IH]; intros rt Hrt; simpl; [exact Hrt|].
  apply IH. destruct (step_pool rt ev) as [Hc [[f Hf]|(sandbox & rt0 & Hp & Hc0 & Hs)]].
  - rewrite Hc, Hf. apply Hfilter, Hrt.
  - rewrite Hc, Hs, <- Hc0. apply Hreturn. rewrite Hp, Hc0. exact Hrt.
Qed.

(** X10. The pool never grows beyond [maxInstances], or beyond one sandbox
    when [maxInstances] is zero or negative: [returnToPool] pushes even
    when there is nothing to evict. *)
Theorem pool_size_bounded (cfg : SandboxPoolConfig) (evs : list Event) :
  Z.of_nat (length (pool (run (new_runtime cfg) evs))) <= Z.max 1 (maxInstances cfg).
Proof.
  pose proof (pool_invariant_run
                (fun c p => Z.of_nat (length p) <= Z.max 1 (maxInstances c))) as Hinv.
  cbv beta in Hinv.
  specialize (fun Hf Hr => Hinv Hf Hr evs (new_runtime cfg)).
  rewrite run_poolConfig in Hinv. apply Hinv.
  - intros c f p Hp. pose proof (List.filter_length_le f p). lia.
  - intros sandbox rt Hp. unfold returnToPool, pool_shift, push.
    destruct (Z.of_nat (length (pool rt)) >=? maxInstances (poolConfig rt)) eqn:E.
    + destruct (pool rt) as [|oldest rest] eqn:Ep.
      * cbn [pool with_pool poolConfig fst snd]. rewrite Ep. cbn [app length]. lia.
      * cbn [pool destroySandbox with_pool poolConfig fst snd]. rewrite length_app.
        cbn [length] in *. lia.
    + rewrite Z.geb_leb in E. apply Z.leb_gt in E.
      cbn [pool with_pool poolConfig]. rewrite length_app. cbn [length]. lia.
  - cbn [pool new_runtime poolConfig length]. lia.
Qed.

(** X11. Every sandbox in the pool has the status ready, so the filter of
    [getFromPool] drops nothing: a call of [execute] misses the pool only
    when the pool is empty. *)
Theorem pool_holds_ready_sandboxes (cfg : SandboxPoolConfig) (evs : list Event) :
  let rt := run (new_runtime cfg) evs in
  Forall (fun s => status s = ready) (pool rt) /\
  (fst (getFromPool rt) = None <-> pool rt = []).
Proof.
  intros rt.
  assert (Hready : Forall (fun s => status s = ready) (pool rt)).
  { apply (pool_invariant_run (fun _ p => Forall (fun s => status s = ready) p)).
    - intros c f p Hp. apply List.Forall_forall. intros x Hx.
      apply List.filter_In in Hx as [Hx _]. rewrite List.Forall_forall in Hp. auto.
    - intros sandbox rt0 Hp. unfold returnToPool, pool_shift, push.
      assert (Hnew : Forall (fun s => status s = ready) [set_status ready sandbox])
        by (constructor; [reflexivity|constructor]).
      destruct (_ >=? _).
      + destruct (pool rt0) as [|oldest rest] eqn:Ep; simpl; rewrite ?Ep.
        * exact Hnew.
        * apply Forall_app. split; [|exact Hnew]. inversion Hp; assumption.
      + simpl. apply Forall_app. split; assumption.
    - constructor. }
  split; [exact Hready|].
  assert (Hf : List.filter (fun s => Status_eqb (status s) ready) (pool rt) = pool rt).
  { clear -Hready. induction Hready as [|x l Hx _ IH]; simpl; [reflexivity|].
    rewrite Hx, IH. reflexivity. }
  unfold getFromPool. rewrite Hf.
  destruct (sort _ (pool rt)) as [|first rest] eqn:Es.
  - apply (f_equal (@length _)) in Es. rewrite length_sort in Es.
    destruct (pool rt); [|discriminate Es]. simpl. tauto.
  - simpl. split; [discriminate|]. intros Hp. rewrite Hp in Es. discriminate Es.
Qed.

End PoolShape.

Section PoolUse.

Import Sandbox.

Lemma by_last_use_sign (a b : Sandbox) :
  Qltb 0 (inject_Z (lastUsedAt a - lastUsedAt b))
  = Qltb 0 (by_key_descending (fun s => inject_Z (- lastUsedAt s)) a b).
Proof.
  unfold by_key_descending.
  destruct (Qltb 0 (inject_Z (- lastUsedAt b) - inject_Z (- lastUsedAt a))) eqn:E.
  - apply Qltb_lt. apply Qltb_lt in E.
    unfold Qlt, Qminus, Qplus, Qopp, inject_Z in *. simpl in *. lia.
  - apply Qltb_false_le. apply Qltb_false_le in E.
    unfold Qle, Qminus, Qplus, Qopp, inject_Z in *. simpl in *. lia.
Qed.

(** X12. A pool hit hands out the ready sandbox that was used least
    recently, marked running, and takes every sandbox of that id out of the
    pool; nothing else in the runtime changes. *)
Theorem getFromPool_least_recently_used
    (rt : SandboxRuntime) (sandbox : Sandbox) (rt' : SandboxRuntime) :
  getFromPool rt = (Some sandbox, rt') ->
  exists chosen,
    In chosen (pool rt) /\ status chosen = ready /\
    sandbox = set_status running chosen /\
    (forall s, In s (pool rt) -> status s = ready -> lastUsedAt chosen <= lastUsedAt s) /\
    rt' = with_pool (List.filter (fun s => negb (String.eqb (id s) (id chosen))) (pool rt)) rt /\
    ~ In (id sandbox) (map id (pool rt')).
Proof.
  unfold getFromPool. intros E.
  rewrite (sort_ext _ (by_key_descending (fun s => inject_Z (- lastUsedAt s))))
    in E by apply by_last_use_sign.
  destruct (sort _ _) as [|chosen rest] eqn:Es; [discriminate E|].
  injection E as <- <-.
  assert (Hin : forall s, In s (chosen :: rest) <-> In s (pool rt) /\ status s = ready).
  { intros s. rewrite <- Es. split.
    - intros Hs. apply sort_In in Hs. apply List.filter_In in Hs as [Hs Hr].
      split; [exact Hs|]. destruct (status s); try discriminate Hr. reflexivity.
    - intros [Hs Hr].
      eapply Permutation_in; [apply sort_Permutation|].
      apply List.filter_In. split; [exact Hs|]. rewrite Hr. reflexivity. }
  exists chosen.
  destruct (proj1 (Hin chosen) (or_introl eq_refl)) as [Hc Hr].
  split; [exact Hc|]. split; [exact Hr|]. split; [reflexivity|].
  split; [|split; [reflexivity|]].
  - intros s Hs Hsr.
    destruct (proj2 (Hin s) (conj Hs Hsr)) as [<-|Hrest]; [lia|].
    apply sort_head_max in Es. rewrite List.Forall_forall in Es.
    specialize (Es s Hrest). cbv beta in Es.
    unfold Qle, inject_Z in Es. simpl in Es. lia.
  - cbn [pool with_pool id set_status]. intros Hid.
    apply in_map_iff in Hid as (s & Hid & Hs).
    apply List.filter_In in Hs as [_ Hs]. rewrite Hid, String.eqb_refl in Hs.
    discriminate Hs.
Qed.

Lemma getFromPool_least_recently_used_witness :
  exists a1 w0,
    pool Examples.racing = [a1; w0] /\
    (id a1, status a1, lastUsedAt a1) = ("a1", ready, 210) /\
    (id w0, status w0, lastUsedAt w0) = ("w0", ready, 170) /\
    fst (getFromPool Examples.racing) = Some (set_status running w0) /\
    pool (snd (getFromPool Examples.racing)) = [a1] /\
    exists chosen,
      In chosen (pool Examples.racing) /\ status chosen = ready /\
      set_status running w0 = set_status running chosen /\
      (forall s, In s (pool Examples.racing) -> status s = ready ->
                 lastUsedAt chosen <= lastUsedAt s) /\
      snd (getFromPool Examples.racing)
      = with_pool (List.filter (fun s => negb (String.eqb (id s) (id chosen)))
                     (pool Examples.racing)) Examples.racing /\
      ~ In (id (set_status running w0)) (map id (pool (snd (getFromPool Examples.racing)))).
Proof.
  eexists. eexists.
  split; [vm_compute; reflexivity|].
  split; [vm_compute; reflexivity|].
  split; [vm_compute; reflexivity|].
  split; [vm_compute; reflexivity|].
  split; [vm_compute; reflexivity|].
  apply (getFromPool_least_recently_used Examples.racing).
  vm_compute. reflexivity.
Defined.

(** X13. A tick of the maintenance timer keeps exactly the pooled
    sandboxes that were used within [idleTimeoutMs] of the tick, destroys
    the others, and starts one warm-up creation for each sandbox the pool
    then lacks to [minInstances], whatever creations are already under
    way. *)
Theorem maintainPool_reaps_idle
    (nowTime : Z) (fresh : nat -> string) (starts : nat -> Z) (rt : SandboxRuntime) :
  let rt' := maintainPool nowTime fresh starts rt in
  pool rt'
  = List.filter (fun s => negb (nowTime - lastUsedAt s >? idleTimeoutMs (poolConfig rt)))
      (pool rt) /\
  Forall (fun s => nowTime - lastUsedAt s <= idleTimeoutMs (poolConfig rt)) (pool rt') /\
  destroyedCount rt' = destroyedCount rt + Z.of_nat (length (pool rt) - length (pool rt')) /\
  activeSandboxes (metrics rt')
  = activeSandboxes (metrics rt) - Z.of_nat (length (pool rt) - length (pool rt')) /\
  pending rt'
  = (pending rt
     ++ warm_tasks 0 (Z.to_nat (minInstances (poolConfig rt) - Z.of_nat (length (pool rt'))))
          fresh starts)%list.
Proof.
  intros rt'. unfold rt', maintainPool.
  pose proof (reap_kept nowTime (pool rt) rt) as Hk.
  destruct (reap nowTime (pool rt) rt) as [kept rt1] eqn:Er.
  apply reap_counters in Er as (_ & Hact & Hd & _ & Hq & Hc).
  cbn [fst] in Hk.
  pose proof (List.filter_length_le
                (fun s => negb (nowTime - lastUsedAt s >? idleTimeoutMs (poolConfig rt)))
                (pool rt)) as Hlen.
  rewrite <- Hk in Hlen.
  cbv zeta. unfold destroyedCount in *.
  set (needed := minInstances (poolConfig (with_pool kept rt1))
                 - Z.of_nat (length (pool (with_pool kept rt1)))).
  assert (Hneeded : needed = minInstances (poolConfig rt) - Z.of_nat (length kept)).
  { unfold needed. cbn [poolConfig pool with_pool]. rewrite Hc. reflexivity. }
  destruct (needed >? 0) eqn:En.
  - cbn [pool with_pending with_pool pending metrics destroyedCount destroyedLog].
    split; [exact Hk|]. split.
    + rewrite Hk. apply List.Forall_forall. intros s Hs.
      apply List.filter_In in Hs as [_ Hs]. apply negb_true_iff in Hs.
      rewrite Z.gtb_ltb in Hs. apply Z.ltb_ge in Hs. exact Hs.
    + split; [lia|]. split; [lia|].
      rewrite Hq, <- Hneeded. reflexivity.
  - cbn [pool with_pending with_pool pending metrics destroyedCount destroyedLog].
    split; [exact Hk|]. split.
    + rewrite Hk. apply List.Forall_forall. intros s Hs.
      apply List.filter_In in Hs as [_ Hs]. apply negb_true_iff in Hs.
      rewrite Z.gtb_ltb in Hs. apply Z.ltb_ge in Hs. exact Hs.
    + split; [lia|]. split; [lia|].
      rewrite Hq, <- Hneeded.
      rewrite Z.gtb_ltb in En. apply Z.ltb_ge in En.
      replace (Z.to_nat needed) with 0%nat by lia.
      cbn [warm_tasks]. rewrite app_nil_r. reflexivity.
Qed.

End PoolUse.

Section PoolHitRate.

Import Sandbox.

Lemma reap_poolHitRate (nowTime : Z) (p : list Sandbox) : forall rt,
  poolHitRate (metrics (snd (reap nowTime p rt))) = poolHitRate (metrics rt).
Proof.
  induction p as [|sandbox rest IH]; intros rt; simpl; [reflexivity|].
  destruct (_ >? _).
  - rewrite IH. reflexivity.
  - specialize (IH rt). destruct (reap nowTime rest rt). exact IH.
Qed.

Lemma returnToPool_poolHitRate (sandbox : Sandbox) (rt : SandboxRuntime) :
  poolHitRate (metrics (returnToPool sandbox rt)) = poolHitRate (metrics rt).
Proof.
  unfold returnToPool, pool_shift.
  destruct (_ >=? _); [|reflexivity]. destruct (pool rt); reflexivity.
Qed.

(** Only a call of [execute] that hits the pool moves the hit rate. *)
Lemma step_poolHitRate (rt : SandboxRuntime) (ev : Event) :
  poolHitRate (metrics (step rt ev))
  = match ev with
    | Execute _ _ _ _ _ _ _ =>
      match fst (getFromPool rt) with
      | Some _ => (poolHitRate (metrics rt) * (9 # 10) + 1 * (1 # 10))%Q
      | None => poolHitRate (metrics rt)
      end
    | _ => poolHitRate (metrics rt)
    end.
Proof.
  destruct ev as [tool args timeout t0 t1 t2 fresh_id|nowTime fresh starts|i t1 t2 t3 t4].
  - cbn [step]. unfold execute_begin.
    destruct (getFromPool rt) as [[sandbox|] rt'] eqn:Eg; cbn [fst].
    + apply getFromPool_hit in Eg as (_ & Hm & _).
      cbn [with_pending with_poolHitRate metrics poolHitRate]. unfold calculatePoolHitRate.
      rewrite Hm. reflexivity.
    + apply getFromPool_miss in Eg as ->. reflexivity.
  - cbn [step]. unfold maintainPool.
    pose proof (reap_poolHitRate nowTime (pool rt) rt) as Hr.
    destruct (reap nowTime (pool rt) rt) as [kept rt']. cbn [snd] in Hr.
    destruct (_ >? 0); exact Hr.
  - cbn [step]. destruct (nth_error (pending rt) i) as [task|]; [|reflexivity].
    destruct task as [tool args timeout st cb cfg cs|sandbox tool args st cold es|cfg cs].
    + reflexivity.
    + unfold execute_finish. cbv zeta. cbn [snd]. rewrite returnToPool_poolHitRate. reflexivity.
    + unfold warm_created, createSandbox_resume. rewrite returnToPool_poolHitRate. reflexivity.
Qed.

Lemma poolHitRate_in_unit_interval (evs : list Event) : forall rt,
  (0 <= poolHitRate (metrics rt) <= 1)%Q ->
  (0 <= poolHitRate (metrics (run rt evs)) <= 1)%Q.
Proof.
  unfold run. induction evs as [|ev evs IH]; intros rt Hrt; simpl; [exact Hrt|].
  apply IH. rewrite step_poolHitRate.
  destruct ev; try exact Hrt. destruct (fst (getFromPool rt)); [|exact Hrt].
  split; lra.
Qed.

(** X14. The pool hit rate is a number between 0 and 1 that never goes
    down: a call of [execute] that hits the pool moves it to nine tenths
    of its value plus one tenth, and a call that misses the pool, like
    every other step of the runtime, leaves it as it is. *)
Theorem poolHitRate_only_rises (cfg : SandboxPoolConfig) (evs : list Event) (ev : Event) :
  let rt := run (new_runtime cfg) evs in
  (0 <= poolHitRate (metrics rt) <= 1)%Q /\
  (poolHitRate (metrics rt) <= poolHitRate (metrics (step rt ev)))%Q /\
  poolHitRate (metrics (step rt ev))
  = match ev with
    | Execute _ _ _ _ _ _ _ =>
      match fst (getFromPool rt) with
      | Some _ => (poolHitRate (metrics rt) * (9 # 10) + 1 * (1 # 10))%Q
      | None => poolHitRate (metrics rt)
      end
    | _ => poolHitRate (metrics rt)
    end.
Proof.
  intros rt.
  assert (Hr : (0 <= poolHitRate (metrics rt) <= 1)%Q).
  { apply poolHitRate_in_unit_interval. simpl. split; discriminate. }
  split; [exact Hr|]. split; [|apply step_poolHitRate].
  rewrite step_poolHitRate.
  destruct ev; try apply Qle_refl. destruct (fst (getFromPool rt)); [lra|apply Qle_refl].
Qed.

End PoolHitRate.

Section EvictionOrder.

Import Sandbox.

(** X15. In a runtime that is not kept warm ([minInstances] at most 0)
    and whose clock does not run backwards, the pool is always sorted by
    last-used time, so the sandbox that a full pool evicts, the one at its
    front, is the least recently used of the pooled sandboxes. *)
Theorem eviction_is_least_recently_used_without_warmup
    (cfg : SandboxPoolConfig) (start : Z) (evs : list Event)
    (sandbox oldest : Sandbox) (rest : list Sandbox) :
  minInstances cfg <= 0 -> stamps_ascend start evs ->
  let rt := run (new_runtime cfg) evs in
  pool rt = oldest :: rest ->
  maxInstances cfg <= Z.of_nat (length (pool rt)) ->
  ascending_by_last_use (pool rt) /\
  destroyedLog (returnToPool sandbox rt) = set_status destroyed oldest :: destroyedLog rt /\
  Forall (fun s => lastUsedAt oldest <= lastUsedAt s) (pool rt).
Proof.
  intros Hmin Hst rt Hp Hfull.
  pose proof (pool_ordered_without_warmup cfg start evs Hmin Hst) as Hasc. fold rt in Hasc.
  split; [exact Hasc|]. split.
  - unfold returnToPool, pool_shift.
    replace (Z.of_nat (length (pool rt)) >=? maxInstances (poolConfig rt)) with true.
    + rewrite Hp. reflexivity.
    + symmetry. apply Z.geb_le. unfold rt. rewrite run_poolConfig. exact Hfull.
  - rewrite Hp in *. inversion Hasc as [|x l Hall Hrest]; subst.
    constructor; [lia|exact Hall].
Qed.

End EvictionOrder.

Lemma eviction_is_least_recently_used_without_warmup_witness :
  exists held_sandbox a1 b1,
    Sandbox.pending Examples.overlapping
    = [Sandbox.RunningTool held_sandbox (Examples.plain_tool "search") (JObj []) 2 100 102] /\
    Sandbox.pool Examples.overlapping = [a1; b1] /\
    (Sandbox.id a1, Sandbox.lastUsedAt a1) = ("a1", 150) /\
    (Sandbox.id b1, Sandbox.lastUsedAt b1) = ("b1", 160) /\
    Sandbox.id held_sandbox = "c1" /\
    Sandbox.ascending_by_last_use (Sandbox.pool Examples.overlapping) /\
    Sandbox.destroyedLog (Sandbox.returnToPool held_sandbox Examples.overlapping)
    = Sandbox.set_status Sandbox.destroyed a1 :: Sandbox.destroyedLog Examples.overlapping /\
    Forall (fun s => Sandbox.lastUsedAt a1 <= Sandbox.lastUsedAt s)
           (Sandbox.pool Examples.overlapping).
Proof.
  eexists. eexists. eexists.
  split; [vm_compute; reflexivity|].
  split; [vm_compute; reflexivity|].
  split; [vm_compute; reflexivity|].
  split; [vm_compute; reflexivity|].
  split; [vm_compute; reflexivity|].
  eapply (eviction_is_least_recently_used_without_warmup Examples.lean_pool_config 0
            Examples.three_executions).
  - vm_compute. discriminate.
  - simpl. lia.
  - vm_compute. reflexivity.
  - vm_compute. discriminate.
Defined.

(** ** The audit stream under sequences of operations *)

Section StreamRuns.

Import Stream.

Lemma flush_buffer_empty (s : AuditStream) : buffer (fst (flush s)) = [].
Proof.
  unfold flush. destruct (buffer s) as [|x l] eqn:E; simpl; [exact E|reflexivity].
Qed.

Lemma flush_handlers (s : AuditStream) : handlers (fst (flush s)) = handlers s.
Proof. unfold flush. destruct (length (buffer s) =? 0)%nat; reflexivity. Qed.

Lemma flush_config (s : AuditStream) : stream_config (fst (flush s)) = stream_config s.
Proof. unfold flush. destruct (length (buffer s) =? 0)%nat; reflexivity. Qed.

Lemma flush_persisted (s : AuditStream) :
  (concat (persisted (snd (flush s))) ++ buffer (fst (flush s)))%list = buffer s.
Proof.
  unfold flush. destruct (buffer s) as [|x l] eqn:E; simpl.
  - exact E.
  - rewrite persisted_app, persisted_notify. simpl. rewrite !app_nil_r. reflexivity.
Qed.

(** After [write] or [writeBatch] of the entries [es] the buffer is what
    a flush of the extended buffer leaves, or the extended buffer. *)
Lemma write_cases (s : AuditStream) (es : list AuditEntry) (r : AuditStream * list Effect) :
  r = (let s := with_buffer (buffer s ++ es)%list s in
       if Z.of_nat (length (buffer s)) >=? bufferSize (stream_config s) then flush s
       else (s, [])) ->
  (r = flush (with_buffer (buffer s ++ es)%list s) /\
   bufferSize (stream_config s) <= Z.of_nat (length (buffer s ++ es)%list)) \/
  (r = (with_buffer (buffer s ++ es)%list s, []) /\
   Z.of_nat (length (buffer s ++ es)%list) < bufferSize (stream_config s)).
Proof.
  cbv zeta. cbn [buffer with_buffer stream_config]. intros ->.
  destruct (Z.of_nat (length (buffer s ++ es)%list) >=? bufferSize (stream_config s)) eqn:E.
  - left. split; [reflexivity|]. apply Z.geb_le. exact E.
  - right. split; [reflexivity|]. rewrite Z.geb_leb in E. apply Z.leb_gt. exact E.
Qed.

Lemma apply_op_write_cases (op : Op) (s : AuditStream) :
  match op with
  | Write _ | WriteBatch _ =>
    (apply_op op s = flush (with_buffer (buffer s ++ written [op])%list s) /\
     bufferSize (stream_config s) <= Z.of_nat (length (buffer s ++ written [op])%list)) \/
    (apply_op op s = (with_buffer (buffer s ++ written [op])%list s, []) /\
     Z.of_nat (length (buffer s ++ written [op])%list) < bufferSize (stream_config s))
  | Subscribe h => apply_op op s = (subscribe h s, [])
  | Unsubscribe h => apply_op op s = (unsubscribe h s, [])
  | Tick | Stop => apply_op op s = flush s
  end.
Proof.
  destruct op as [e|es| | | |]; try reflexivity.
  - apply write_cases. reflexivity.
  - unfold written. cbn [flat_map]. rewrite app_nil_r. apply write_cases. reflexivity.
Qed.

Lemma apply_op_loses_nothing (op : Op) (s : AuditStream) :
  (concat (persisted (snd (apply_op op s))) ++ buffer (fst (apply_op op s)))%list
  = (buffer s ++ written [op])%list.
Proof.
  pose proof (apply_op_write_cases op s) as Hc.
  destruct op as [e|es|h|h| |].
  - destruct Hc as [[-> _]|[-> _]]; [rewrite flush_persisted|]; reflexivity.
  - destruct Hc as [[-> _]|[-> _]]; [rewrite flush_persisted|]; reflexivity.
  - rewrite Hc. simpl. unfold subscribe. destruct (existsb _ _); simpl; rewrite app_nil_r; reflexivity.
  - rewrite Hc. simpl. rewrite app_nil_r. reflexivity.
  - rewrite Hc, flush_persisted. simpl. rewrite app_nil_r. reflexivity.
  - rewrite Hc, flush_persisted. simpl. rewrite app_nil_r. reflexivity.
Qed.

Lemma written_cons (op : Op) (ops : list Op) :
  written (op :: ops) = (written [op] ++ written ops)%list.
Proof. unfold written. simpl. rewrite app_nil_r. reflexivity. Qed.

(** X16. The stream loses and repeats nothing, whatever is done to it: the
    batches handed to the sink, in order, followed by what is still
    buffered, are the entries that were buffered at the start followed by
    the entries written since, each exactly as often and in the order it
    was written. *)
Theorem stream_loses_nothing (ops : list Op) (s : AuditStream) :
  (concat (persisted (snd (run_ops ops s))) ++ buffer (fst (run_ops ops s)))%list
  = (buffer s ++ written ops)%list.
Proof.
  revert s. induction ops as [|op ops IH]; intros s.
  - simpl. rewrite app_nil_r. reflexivity.
  - cbn [run_ops]. pose proof (apply_op_loses_nothing op s) as Hop.
    destruct (apply_op op s) as [s1 log1]. specialize (IH s1).
    destruct (run_ops ops s1) as [s2 log2]. cbn [fst snd] in *.
    rewrite (written_cons op ops), app_assoc, <- Hop.
    rewrite persisted_app, concat_app, <- !app_assoc, IH. reflexivity.
Qed.

(** X17. The buffer never reaches [bufferSize]: after any operations on a
    new stream it is empty or holds fewer than [bufferSize] entries, since
    a write that fills it flushes at once. *)
Theorem stream_buffer_below_capacity (cfg : AuditStreamConfig) (ops : list Op) :
  let s := fst (run_ops ops (new_stream cfg)) in
  stream_config s = cfg /\
  (buffer s = [] \/ Z.of_nat (length (buffer s)) < bufferSize cfg).
Proof.
  assert (Hinv : forall ops s,
             buffer s = [] \/ Z.of_nat (length (buffer s)) < bufferSize (stream_config s) ->
             stream_config (fst (run_ops ops s)) = stream_config s /\
             (buffer (fst (run_ops ops s)) = [] \/
              Z.of_nat (length (buffer (fst (run_ops ops s)))) < bufferSize (stream_config s))).
  { clear ops. induction ops as [|op ops IH]; intros s Hs; [split; [reflexivity|exact Hs]|].
    cbn [run_ops].
    assert (Hop : stream_config (fst (apply_op op s)) = stream_config s /\
                  (buffer (fst (apply_op op s)) = [] \/
                   Z.of_nat (length (buffer (fst (apply_op op s))))
                   < bufferSize (stream_config s))).
    { pose proof (apply_op_write_cases op s) as Hc.
      destruct op as [e|es|h|h| |].
      - destruct Hc as [[-> _]|[-> Hlt]].
        + split; [rewrite flush_config; reflexivity|]. left. apply flush_buffer_empty.
        + split; [reflexivity|]. right. exact Hlt.
      - destruct Hc as [[-> _]|[-> Hlt]].
        + split; [rewrite flush_config; reflexivity|]. left. apply flush_buffer_empty.
        + split; [reflexivity|]. right. exact Hlt.
      - rewrite Hc. unfold subscribe. destruct (existsb _ _); split; try reflexivity; exact Hs.
      - rewrite Hc. split; [reflexivity|exact Hs].
      - rewrite Hc. split; [rewrite flush_config; reflexivity|]. left. apply flush_buffer_empty.
      - rewrite Hc. split; [rewrite flush_config; reflexivity|]. left. apply flush_buffer_empty. }
    destruct (apply_op op s) as [s1 log1]. cbn [fst] in Hop. destruct Hop as [Hcfg Hbuf].
    rewrite <- Hcfg in Hbuf. specialize (IH s1 Hbuf).
    destruct (run_ops ops s1) as [s2 log2]. cbn [fst] in *.
    rewrite <- Hcfg. exact IH. }
  intros s. apply (Hinv ops (new_stream cfg)). left. reflexivity.
Qed.

End StreamRuns.

Section StreamSubscribers.

Import Stream.

Lemma apply_op_handlers (op : Op) (s : AuditStream) :
  handlers (fst (apply_op op s))
  = match op with
    | Subscribe h => handlers (subscribe h s)
    | Unsubscribe h => handlers (unsubscribe h s)
    | _ => handlers s
    end.
Proof.
  pose proof (apply_op_write_cases op s) as Hc.
  destruct op as [e|es|h|h| |].
  - destruct Hc as [[-> _]|[-> _]]; [rewrite flush_handlers|]; reflexivity.
  - destruct Hc as [[-> _]|[-> _]]; [rewrite flush_handlers|]; reflexivity.
  - reflexivity.
  - reflexivity.
  - rewrite Hc. apply flush_handlers.
  - rewrite Hc. apply flush_handlers.
Qed.

(** An operation hands out nothing, or one batch to the handlers
    subscribed at that moment and then to the sink. *)
Lemma apply_op_log (op : Op) (s : AuditStream) :
  snd (apply_op op s) = [] \/
  exists batch, snd (apply_op op s) = (notify batch (handlers s) ++ [Persisted batch])%list.
Proof.
  assert (Hf : forall s0, handlers s0 = handlers s ->
                 snd (flush s0) = [] \/
                 exists batch,
                   snd (flush s0) = (notify batch (handlers s) ++ [Persisted batch])%list).
  { intros s0 Hh. unfold flush. destruct (length (buffer s0) =? 0)%nat; [left; reflexivity|].
    right. exists (buffer s0). simpl. rewrite Hh. reflexivity. }
  pose proof (apply_op_write_cases op s) as Hc.
  destruct op as [e|es|h|h| |].
  - destruct Hc as [[-> _]|[-> _]]; [apply Hf; reflexivity|left; reflexivity].
  - destruct Hc as [[-> _]|[-> _]]; [apply Hf; reflexivity|left; reflexivity].
  - left. reflexivity.
  - left. reflexivity.
  - rewrite Hc. apply Hf. reflexivity.
  - rewrite Hc. apply Hf. reflexivity.
Qed.

Lemma unsubscribe_NoDup (h : Handler) (s : AuditStream) :
  List.NoDup (map handler_id (handlers s)) ->
  List.NoDup (map handler_id (handlers (unsubscribe h s))).
Proof.
  unfold unsubscribe. cbn [handlers]. generalize (handlers s). intros l.
  induction l as [|x l IH]; intros Hnd; [exact Hnd|].
  simpl in Hnd. apply List.NoDup_cons_iff in Hnd as [Hx Hnd]. simpl.
  destruct (negb _); [|exact (IH Hnd)].
  simpl. apply List.NoDup_cons_iff. split; [|exact (IH Hnd)].
  intros Hin. apply Hx. apply in_map_iff in Hin as (y & Hy & Hin).
  apply List.filter_In in Hin as [Hin _]. apply in_map_iff. exists y. auto.
Qed.

(** X18. A handler that stays subscribed is called with exactly the
    batches that are handed to the sink, each once and in the same order,
    whatever the other handlers are and whichever of them throw. *)
Theorem subscriber_receives_every_batch (ops : list Op) (s : AuditStream) (h : Handler) :
  List.NoDup (map handler_id (handlers s)) ->
  In h (handlers s) ->
  (forall h', In (Unsubscribe h') ops -> handler_id h' <> handler_id h) ->
  calls_of (handler_id h) (snd (run_ops ops s)) = persisted (snd (run_ops ops s)).
Proof.
  revert s. induction ops as [|op ops IH]; intros s Hnd Hin Hkeep; [reflexivity|].
  cbn [run_ops].
  pose proof (apply_op_handlers op s) as Hh.
  pose proof (apply_op_log op s) as Hlog.
  destruct (apply_op op s) as [s1 log1]. cbn [fst snd] in *.
  assert (Hnd1 : List.NoDup (map handler_id (handlers s1))).
  { rewrite Hh. destruct op; try exact Hnd.
    - apply subscribe_NoDup, Hnd.
    - apply unsubscribe_NoDup, Hnd. }
  assert (Hin1 : In h (handlers s1)).
  { rewrite Hh. destruct op as [e|es|h'|h'| |]; try exact Hin.
    - unfold subscribe. destruct (existsb _ _); [exact Hin|].
      cbn [handlers]. unfold push. apply in_or_app. left. exact Hin.
    - unfold unsubscribe. cbn [handlers]. apply List.filter_In. split; [exact Hin|].
      apply negb_true_iff, Nat.eqb_neq. intros E.
      apply (Hkeep h' (or_introl eq_refl)). symmetry. exact E. }
  specialize (IH s1 Hnd1 Hin1 (fun h' Hh' => Hkeep h' (or_intror Hh'))).
  destruct (run_ops ops s1) as [s2 log2]. cbn [fst snd] in *.
  rewrite calls_of_app, persisted_app, IH. f_equal.
  destruct Hlog as [->|[batch ->]]; [reflexivity|].
  rewrite calls_of_app, persisted_app, persisted_notify, calls_of_notify by assumption.
  reflexivity.
Qed.

Lemma subscriber_receives_every_batch_witness :
  let ops := [Write (Examples.audit_entry "e1" 20); Tick;
              Subscribe {| handler_id := 3; handler_throws := fun _ => false |};
              Unsubscribe {| handler_id := 1; handler_throws := fun _ => true |};
              Write (Examples.audit_entry "e2" 30); Stop] in
  calls_of 2 (snd (run_ops ops Examples.busy_stream))
  = persisted (snd (run_ops ops Examples.busy_stream)).
Proof.
  intros ops.
  apply (subscriber_receives_every_batch ops Examples.busy_stream
           {| handler_id := 2; handler_throws := fun _ => false |}).
  - simpl. repeat constructor; simpl; intuition discriminate.
  - right. left. reflexivity.
  - intros h' Hin. simpl in Hin.
    repeat (destruct Hin as [Hin|Hin]; [try discriminate Hin|]); [|destruct Hin].
    injection Hin as <-. discriminate.
Defined.

(** X19. Once the function [subscribe] returned has been called, the
    handler is not called again, as long as it is not subscribed anew. *)
Theorem unsubscribed_handler_is_not_called (ops : list Op) (s : AuditStream) (h : Handler) :
  (forall h', In (Subscribe h') ops -> handler_id h' <> handler_id h) ->
  calls_of (handler_id h) (snd (run_ops ops (unsubscribe h s))) = [].
Proof.
  assert (Hinv : forall ops s0,
             ~ In (handler_id h) (map handler_id (handlers s0)) ->
             (forall h', In (Subscribe h') ops -> handler_id h' <> handler_id h) ->
             calls_of (handler_id h) (snd (run_ops ops s0)) = []).
  { clear ops s. induction ops as [|op ops IH]; intros s Habs Hnew; [reflexivity|].
    cbn [run_ops].
    pose proof (apply_op_handlers op s) as Hh.
    pose proof (apply_op_log op s) as Hlog.
    destruct (apply_op op s) as [s1 log1]. cbn [fst snd] in *.
    assert (Habs1 : ~ In (handler_id h) (map handler_id (handlers s1))).
    { rewrite Hh. destruct op as [e|es|h'|h'| |]; try exact Habs.
      - unfold subscribe. destruct (existsb _ _); [exact Habs|].
        cbn [handlers]. unfold push. rewrite map_app, in_app_iff. simpl.
        intros [Hin|[E|[]]]; [exact (Habs Hin)|].
        exact (Hnew h' (or_introl eq_refl) E).
      - unfold unsubscribe. cbn [handlers]. intros Hin. apply Habs.
        apply in_map_iff in Hin as (y & Hy & Hin).
        apply List.filter_In in Hin as [Hin _]. apply in_map_iff. exists y. auto. }
    specialize (IH s1 Habs1 (fun h' Hh' => Hnew h' (or_intror Hh'))).
    destruct (run_ops ops s1) as [s2 log2]. cbn [fst snd] in *.
    rewrite calls_of_app, IH, app_nil_r.
    destruct Hlog as [->|[batch ->]]; [reflexivity|].
    rewrite calls_of_app, calls_of_notify_absent by exact Habs. reflexivity. }
  intros Hnew. apply Hinv; [|exact Hnew].
  unfold unsubscribe. cbn [handlers]. intros Hin.
  apply in_map_iff in Hin as (y & Hy & Hin).
  apply List.filter_In in Hin as [_ Hin].
  rewrite Hy, Nat.eqb_refl in Hin. discriminate Hin.
Qed.

Lemma unsubscribed_handler_is_not_called_witness :
  calls_of 1
    (snd (run_ops [Write (Examples.audit_entry "e1" 20); Stop]
            (unsubscribe {| handler_id := 1; handler_throws := fun _ => true |}
               Examples.busy_stream)))
  = [].
Proof.
  apply (unsubscribed_handler_is_not_called
           [Write (Examples.audit_entry "e1" 20); Stop] Examples.busy_stream
           {| handler_id := 1; handler_throws := fun _ => true |}).
  intros h' Hin. simpl in Hin. destruct Hin as [Hin|[Hin|[]]]; discriminate Hin.
Defined.

(** X20. [query] looks at the buffer only: it returns the buffered entries
    that match the filter, in their order, so nothing that has been flushed
    is found; with non-zero time bounds every entry returned lies between
    them, and the filter without conditions returns the whole buffer. *)
Theorem query_sees_only_the_buffer (f : AuditFilter) (s : AuditStream) :
  (forall e, In e (query f s) <-> In e (buffer s) /\ matchesFilter e f = true) /\
  query f (fst (flush s)) = [] /\
  query f (fst (stop s)) = [] /\
  (forall e t, In e (query f s) -> filter_startTime f = Some t -> t <> 0 ->
               t <= entry_timestamp e) /\
  (forall e t, In e (query f s) -> filter_endTime f = Some t -> t <> 0 ->
               entry_timestamp e <= t) /\
  query {| filter_startTime := None; filter_endTime := None; filter_eventTypes := None;
           filter_severity := None; filter_actor := None; filter_traceId := None |} s
  = buffer s.
Proof.
  split; [intros e; unfold query; apply List.filter_In|].
  split; [unfold query; rewrite flush_buffer_empty; reflexivity|].
  split; [unfold query, stop; rewrite flush_buffer_empty; reflexivity|].
  split; [|split].
  - intros e t Hin Hf Ht. unfold query in Hin. apply List.filter_In in Hin as [_ Hm].
    unfold matchesFilter in Hm. rewrite Hf in Hm.
    destruct (t =? 0) eqn:E0; [apply Z.eqb_eq in E0; contradiction|].
    destruct (entry_timestamp e <? t) eqn:E; [discriminate Hm|].
    apply Z.ltb_ge in E. exact E.
  - intros e t Hin Hf Ht. unfold query in Hin. apply List.filter_In in Hin as [_ Hm].
    unfold matchesFilter in Hm. rewrite Hf in Hm.
    destruct (match filter_startTime f with Some _ => _ | None => _ end); [discriminate Hm|].
    destruct (t =? 0) eqn:E0; [apply Z.eqb_eq in E0; contradiction|].
    destruct (entry_timestamp e >? t) eqn:E; [discriminate Hm|].
    rewrite Z.gtb_ltb in E. apply Z.ltb_ge in E. exact E.
  - unfold query, matchesFilter. simpl.
    induction (buffer s) as [|x l IH]; simpl; [reflexivity|]. rewrite IH. reflexivity.
Qed.

End StreamSubscribers.

(** ** The protocol adapters and their dispatcher *)

Section ParseResults.

Import Adapter.
Context `{Host}.

Lemma try_catch_outcome (p : Protocol) (t : Z) (raw : JsValue)
    (body : completion ParseResult) (r : ParseResult) :
  (forall r0, body = Normal r0 -> parse_outcome p t raw r0) ->
  try_catch body (parse_caught p t raw) = Normal r -> parse_outcome p t raw r.
Proof.
  intros Hb. destruct body as [r0|e]; simpl.
  - intros E. injection E as <-. apply Hb. reflexivity.
  - unfold parse_caught. intros E. left. eauto.
Qed.

Ltac parse_tree :=
  repeat match goal with
         | |- forall r0, Throw _ = Normal r0 -> _ => intros ? ?; discriminate
         | |- forall r0, parse_failed _ _ _ _ _ _ = Normal r0 -> _ =>
           intros ? ?; left; eauto
         | |- forall r0, parse_succeeded _ _ _ = Normal r0 -> _ =>
           intros ? ?; right; assumption
         | |- context [if ?b then _ else _] => destruct b
         | |- context [bind ?c _] => destruct c; cbn [bind]
         end.

Lemma parse_outcomes (a : Adapter) (t : Z) (raw : JsValue) (r : ParseResult) :
  In a [MCPAdapter; A2AAdapter; UCPAdapter; ACPAdapter; OpenAIAdapter; AnthropicAdapter] ->
  parse a t raw = Normal r -> parse_outcome (protocol a) t raw r.
Proof.
  intros Ha. simpl in Ha.
  destruct Ha as [<-|[<-|[<-|[<-|[<-|[<-|[]]]]]]]; cbn [parse protocol];
    unfold MCP_parse, A2A_parse, UCP_parse, ACP_parse, OpenAI_parse, Anthropic_parse;
    apply try_catch_outcome; parse_tree.
Qed.

(** X21. Whatever [parse] returns is discriminated by [success]: a success
    carries the payload itself as data and no error, a failure carries an
    error and no data; either way the metadata name the protocol of the
    adapter, the clock reading of the call and the length of the JSON text
    of the payload. *)
Theorem parse_result_is_discriminated
    (a : Adapter) (t : Z) (raw : JsValue) (r : ParseResult) :
  In a [MCPAdapter; A2AAdapter; UCPAdapter; ACPAdapter; OpenAIAdapter; AnthropicAdapter] ->
  parse a t raw = Normal r ->
  metadata_protocol (parse_metadata r) = protocol a /\
  metadata_timestamp (parse_metadata r) = t /\
  stringified_length raw = Normal (rawSize (parse_metadata r)) /\
  (if parse_success r
   then data r = raw /\ parse_error r = None
   else data r = JUndefined /\ exists e, parse_error r = Some e).
Proof.
  intros Ha Hp. destruct (parse_outcomes a t raw r Ha Hp) as [(c & m & s & E)|E].
  - unfold parse_failed in E. destruct (stringified_length raw) as [n|e]; [|discriminate E].
    simpl in E. injection E as <-. simpl. repeat split. eauto.
  - unfold parse_succeeded in E. destruct (stringified_length raw) as [n|e]; [|discriminate E].
    simpl in E. injection E as <-. simpl. repeat split.
Qed.

End ParseResults.

Lemma parse_result_is_discriminated_witness :
  exists r,
    Adapter.parse (@Adapter.MCPAdapter Examples.integer_host) 7
      Examples.mcp_tool_call = Normal r /\
    Adapter.parse_success r = true /\
    Adapter.data r = Examples.mcp_tool_call /\
    Adapter.parse_error r = None /\
    Adapter.metadata_timestamp (Adapter.parse_metadata r) = 7.
Proof.
  destruct (Adapter.parse (@Adapter.MCPAdapter Examples.integer_host) 7
              Examples.mcp_tool_call) as [r|e] eqn:E; [|vm_compute in E; discriminate E].
  exists r. split; [reflexivity|].
  assert (Hs : Adapter.parse_success r = true).
  { vm_compute in E. injection E as <-. reflexivity. }
  split; [exact Hs|].
  destruct (@parse_result_is_discriminated Examples.integer_host
              (@Adapter.MCPAdapter Examples.integer_host) 7 Examples.mcp_tool_call r)
    as (_ & Ht & _ & Hd).
  - left. reflexivity.
  - exact E.
  - rewrite Hs in Hd. destruct Hd as [Hd He]. auto.
Defined.

Section DetectProtocol.

Import Adapter.
Context `{Host}.

(** [detectProtocol] answers with the first adapter, in the order of
    registration, whose [parse] succeeds; the adapters before it have
    returned failures. *)
Lemma detect_from_first (adapters : list (string * Adapter)) :
  forall (i : nat) (clock : nat -> Z) (raw : JsValue) (p : Protocol),
    detect_from adapters i clock raw = Normal (Some p) ->
    exists k name a r,
      nth_error adapters k = Some (name, a) /\ protocol a = p /\
      parse a (clock (i + k)%nat) raw = Normal r /\ parse_success r = true /\
      forall j, (j < k)%nat ->
                exists name' a' r',
                  nth_error adapters j = Some (name', a') /\
                  parse a' (clock (i + j)%nat) raw = Normal r' /\ parse_success r' = false.
Proof.
  induction adapters as [|[name a] rest IH]; intros i clock raw p Hd; [discriminate Hd|].
  cbn [detect_from] in Hd.
  destruct (parse a (clock i) raw) as [r|e] eqn:Ep; [|discriminate Hd].
  cbn [bind] in Hd. destruct (parse_success r) eqn:Es.
  - injection Hd as <-. exists 0%nat, name, a, r. rewrite Nat.add_0_r.
    repeat split; try assumption. intros j Hj. lia.
  - destruct (IH (S i) clock raw p Hd) as (k & name1 & a1 & r1 & Hn & Hp & Hparse & Hs & Hbefore).
    exists (S k), name1, a1, r1. rewrite <- Nat.add_succ_comm.
    repeat split; try assumption.
    intros [|j] Hj.
    + exists name, a, r. rewrite Nat.add_0_r. auto.
    + destruct (Hbefore j ltac:(lia)) as (n' & a' & r' & H1 & H2 & H3).
      exists n', a', r'. rewrite <- Nat.add_succ_comm. auto.
Qed.

(** A payload that the Anthropic adapter accepts is accepted by the OpenAI
    adapter: the second checks a model and a non-empty array of messages,
    the first checks the same and [max_tokens]. *)
Lemma anthropic_payload_is_openai_payload (t1 t2 : Z) (raw : JsValue) (r1 r2 : ParseResult) :
  Anthropic_parse t1 raw = Normal r1 -> parse_success r1 = true ->
  OpenAI_parse t2 raw = Normal r2 -> parse_success r2 = true.
Proof.
  unfold Anthropic_parse, OpenAI_parse, parse_caught, parse_failed, parse_succeeded.
  destruct (stringified_length raw) as [n|e]; [|destruct (get raw "model"); simpl;
    repeat match goal with
           | |- context [if ?b then _ else _] => destruct b; simpl
           | |- context [bind ?c _] => destruct c; simpl
           end; discriminate].
  destruct (get raw "model") as [model|e]; simpl;
    [|intros E1 Hs; injection E1 as <-; discriminate Hs].
  destruct (negb (truthy model)); simpl;
    [intros E1 Hs; injection E1 as <-; discriminate Hs|].
  destruct (get raw "messages") as [messages|e]; simpl;
    [|intros E1 Hs; injection E1 as <-; discriminate Hs].
  destruct (negb (isArray messages) || is_empty_array messages); simpl;
    [intros E1 Hs; injection E1 as <-; discriminate Hs|].
  intros _ _ E2. injection E2 as <-. reflexivity.
Qed.

(** X22. When [detectProtocol] names a protocol, the [parse] of that
    protocol's adapter succeeds on the payload, and the adapters
    registered before it have been tried and have returned failures. *)
Theorem detectProtocol_first_match (clock : nat -> Z) (raw : JsValue) (p : Protocol) :
  detectProtocol clock raw = Normal (Some p) ->
  exists k a r,
    nth_error [MCPAdapter; A2AAdapter; UCPAdapter; ACPAdapter; OpenAIAdapter; AnthropicAdapter] k
    = Some a /\
    protocol a = p /\ parse a (clock k) raw = Normal r /\ parse_success r = true /\
    forall j a', (j < k)%nat ->
      nth_error [MCPAdapter; A2AAdapter; UCPAdapter; ACPAdapter; OpenAIAdapter; AnthropicAdapter] j
      = Some a' ->
      exists r', parse a' (clock j) raw = Normal r' /\ parse_success r' = false.
Proof.
  intros Hd. apply detect_from_first in Hd
    as (k & name & a & r & Hn & Hp & Hparse & Hs & Hbefore).
  assert (Hnth : forall j x, nth_error registerAdapters j = Some x ->
                   nth_error [MCPAdapter; A2AAdapter; UCPAdapter; ACPAdapter; OpenAIAdapter;
                              AnthropicAdapter] j = Some (snd x)).
  { intros j x. unfold registerAdapters. rewrite nth_error_map.
    destruct (nth_error _ j); simpl; [|discriminate]. intros E. injection E as <-. reflexivity. }
  exists k, a, r. split; [exact (Hnth k _ Hn)|]. repeat split; try assumption.
  intros j a' Hj Ha'. destruct (Hbefore j Hj) as (n' & a'' & r' & H1 & H2 & H3).
  apply Hnth in H1. cbn [snd] in H1. rewrite H1 in Ha'. injection Ha' as <-. eauto.
Qed.

(** X23. [detectProtocol] never answers [anthropic]: the OpenAI adapter is
    registered before the Anthropic one and accepts every payload the
    Anthropic adapter accepts. *)
Theorem detectProtocol_never_anthropic (clock : nat -> Z) (raw : JsValue) :
  detectProtocol clock raw <> Normal (Some anthropic).
Proof.
  intros Hd. apply detect_from_first in Hd
    as (k & name & a & r & Hn & Hp & Hparse & Hs & Hbefore).
  unfold registerAdapters in Hn.
  destruct k as [|[|[|[|[|[|k]]]]]]; simpl in Hn;
    try (destruct k; discriminate Hn);
    injection Hn as <- <-; try discriminate Hp.
  destruct (Hbefore 4%nat ltac:(lia)) as (n' & a' & r' & H1 & H2 & H3).
  simpl in H1. injection H1 as <- <-.
  cbn [parse AnthropicAdapter OpenAIAdapter] in *.
  rewrite (anthropic_payload_is_openai_payload _ _ raw r r' Hparse Hs H2) in H3.
  discriminate H3.
Qed.

End DetectProtocol.

Lemma detectProtocol_first_match_witness :
  exists r,
    @Adapter.detectProtocol Examples.integer_host (fun _ => 0) Examples.mcp_tool_call
    = Normal (Some mcp) /\
    Adapter.parse (@Adapter.MCPAdapter Examples.integer_host) 0 Examples.mcp_tool_call
    = Normal r /\
    Adapter.parse_success r = true.
Proof.
  assert (Hd : @Adapter.detectProtocol Examples.integer_host (fun _ => 0) Examples.mcp_tool_call
               = Normal (Some mcp)) by (vm_compute; reflexivity).
  destruct (@detectProtocol_first_match Examples.integer_host (fun _ => 0)
              Examples.mcp_tool_call mcp Hd) as (k & a & r & Hn & Hp & Hparse & Hs & _).
  destruct k as [|[|[|[|[|[|k]]]]]]; simpl in Hn;
    try (destruct k; discriminate Hn);
    injection Hn as <-; try discriminate Hp.
  exists r. split; [exact Hd|]. split; [exact Hparse|exact Hs].
Defined.

Section ConvertResults.

Import Adapter.
Context `{Host}.

Lemma bind_assoc {A B C : Type} (c : completion A) (f : A -> completion B)
    (g : B -> completion C) :
  bind (bind c f) g = bind c (fun x => bind (f x) g).
Proof. destruct c; reflexivity. Qed.

Ltac normalize_tree :=
  repeat match goal with
         | |- Throw _ = Normal _ -> _ => intros ?; discriminate
         | |- context [bind (bind _ _) _] => rewrite bind_assoc
         | |- context [bind (if ?b then _ else _) _] => destruct b
         | |- context [bind (match ?v with _ => _ end) _] => destruct v
         | |- context [bind (Normal _) _] => cbn [bind]
         | |- context [bind (Throw _) _] => cbn [bind]
         | |- context [bind ?c _] => destruct c
         end.

(** What a [normalize] returns when it returns: the refusal of a failed
    parse, or a success whose intent carries the id drawn for it and a
    confidence between 0.7 and 1. *)
Lemma normalize_outcomes
    (a : Adapter) (clock : NormalizeClock) (id : string) (parsed : ParseResult)
    (nr : NormalizeResult) :
  In a [MCPAdapter; A2AAdapter; UCPAdapter; ACPAdapter; OpenAIAdapter; AnthropicAdapter] ->
  normalize a clock id parsed = Normal nr ->
  (unusable parsed = true /\ nr = cannot_normalize clock parsed) \/
  (unusable parsed = false /\
   exists i, nr = normalized clock parsed i /\ intent_id i = id /\
             ((7 # 10) <= intent_confidence i <= 1)%Q).
Proof.
  intros Ha. simpl in Ha.
  assert (Hleaf : forall i,
             intent_id i = id -> ((7 # 10) <= intent_confidence i <= 1)%Q ->
             unusable parsed = false ->
             Normal (normalized clock parsed i) = Normal nr ->
             (unusable parsed = true /\ nr = cannot_normalize clock parsed) \/
             (unusable parsed = false /\
              exists i, nr = normalized clock parsed i /\ intent_id i = id /\
                        ((7 # 10) <= intent_confidence i <= 1)%Q)).
  { intros i Hid Hc Hu E. injection E as <-. right. split; [exact Hu|]. eauto. }
  destruct Ha as [<-|[<-|[<-|[<-|[<-|[<-|[]]]]]]];
    unfold MCPAdapter, A2AAdapter, UCPAdapter, ACPAdapter, OpenAIAdapter, AnthropicAdapter;
    cbn [normalize];
    unfold MCP_normalize, A2A_normalize, UCP_normalize, ACP_normalize, OpenAI_normalize,
      Anthropic_normalize;
    (destruct (unusable parsed) eqn:Eu; cbv beta iota;
     [intros E; injection E as <-; left; split; reflexivity|]);
    unfold MCP_normalizeToolCall, MCP_normalizeResourceRead, MCP_normalizePromptGet,
      MCP_normalizeGeneric, A2A_normalizeTask, A2A_normalizeMessage, A2A_normalizeGeneric,
      recipient_id;
    normalize_tree;
    (apply Hleaf; [reflexivity|split; discriminate|reflexivity]).
Qed.

Lemma adapters_get_registered (tag : string) (a : Adapter) :
  adapters_get registerAdapters tag = Some a ->
  In a [MCPAdapter; A2AAdapter; UCPAdapter; ACPAdapter; OpenAIAdapter; AnthropicAdapter] /\
  Protocol_name (protocol a) = tag.
Proof.
  unfold registerAdapters. simpl.
  repeat match goal with
         | |- context [String.eqb tag ?k] => destruct (String.eqb_spec tag k)
         end;
    intros E; try discriminate E; injection E as <-; subst; simpl; tauto.
Qed.

(** X24. A request that [convert] returns is made of the payload, the tag
    and the values drawn for it: the protocol is the one of the tag, the
    raw payload is the payload as given, the trace id is the one passed in
    unless it is absent or empty, and the request always carries an intent,
    whose id is the one drawn for it and whose confidence lies between 0.7
    and 1. *)
Theorem convert_request_is_complete
    (env : ConvertEnv) (raw : JsValue) (tag : string) (trace : option string)
    (req : AgentRequest) :
  convert env raw tag trace = Normal req ->
  Protocol_name (sourceProtocol req) = tag /\
  rawPayload req = raw /\
  request_id req = request_fresh_id env /\
  request_timestamp req = timestamp_time env /\
  sessionId (context req) = session_fresh_id env /\
  traceId (metadata req)
  = match trace with
    | Some t => if String.eqb t "" then trace_fresh_id env else t
    | None => trace_fresh_id env
    end /\
  exists i, normalizedIntent req = Some i /\ intent_id i = intent_fresh_id env /\
            ((7 # 10) <= intent_confidence i <= 1)%Q.
Proof.
  unfold convert. intros Hc.
  destruct (adapters_get registerAdapters tag) as [adapter|] eqn:Ea; [|discriminate Hc].
  apply adapters_get_registered in Ea as [Hin Hname].
  destruct (parse adapter (parse_time env) raw) as [parseResult|] eqn:Ep; [|discriminate Hc].
  cbn [bind] in Hc. destruct (parse_success parseResult) eqn:Es; [|discriminate Hc].
  cbn [negb] in Hc.
  destruct (normalize adapter (normalize_clock env) (intent_fresh_id env) parseResult)
    as [normalizeResult|] eqn:En; [|discriminate Hc].
  cbn [bind] in Hc.
  destruct (normalize_success normalizeResult) eqn:Ens; [|discriminate Hc].
  cbn [negb] in Hc. injection Hc as <-. cbn.
  repeat (split; [first [exact Hname|reflexivity]|]).
  destruct (normalize_outcomes adapter _ _ _ _ Hin En) as [[_ ->]|[_ (i & -> & Hid & Hconf)]].
  - discriminate Ens.
  - exists i. cbn. auto.
Qed.

End ConvertResults.

Lemma convert_request_is_complete_witness :
  exists req i,
    @Adapter.convert Examples.integer_host Examples.convert_env Examples.mcp_tool_call
      "mcp" (Some "trace-7") = Normal req /\
    Adapter.Protocol_name (sourceProtocol req) = "mcp" /\
    rawPayload req = Examples.mcp_tool_call /\
    traceId (metadata req) = "trace-7" /\
    normalizedIntent req = Some i /\ intent_id i = "id-intent".
Proof.
  destruct (@Adapter.convert Examples.integer_host Examples.convert_env Examples.mcp_tool_call
              "mcp" (Some "trace-7")) as [req|e] eqn:E; [|vm_compute in E; discriminate E].
  destruct (@convert_request_is_complete Examples.integer_host Examples.convert_env
              Examples.mcp_tool_call "mcp" (Some "trace-7") req E)
    as (Hp & Hraw & _ & _ & _ & Ht & i & Hi & Hid & _).
  exists req, i. split; [reflexivity|]. split; [exact Hp|]. split; [exact Hraw|].
  split; [exact Ht|]. split; [exact Hi|exact Hid].
Defined.

Section AdapterRegistry.

Import Adapter.
Context `{Host}.

(** X25. An MCP request of the method tools/call comes out of [convert]
    as a tool call on the named tool with the given arguments: the action
    is the name, or unknown_tool for the empty name, the parameters are the
    arguments, or an empty object for arguments that are not truthy, and the
    confidence is 1 with no alternatives. *)
Theorem convert_mcp_tool_call
    (env : ConvertEnv) (requestId : JsValue) (name : string) (arguments : JsValue)
    (trace : option string) :
  let raw := JObj [("jsonrpc", JStr "2.0"); ("id", requestId); ("method", JStr "tools/call");
                   ("params", JObj [("name", JStr name); ("arguments", arguments)])] in
  exists req,
    convert env raw "mcp" trace = Normal req /\
    sourceProtocol req = mcp /\
    normalizedIntent req
    = Some {| intent_id := intent_fresh_id env;
              category := tool_call;
              action := if String.eqb name "" then JStr "unknown_tool" else JStr name;
              target := JStr "tool";
              parameters := if truthy arguments then arguments else JObj [];
              intent_confidence := 1;
              intent_alternatives := [] |}.
Proof.
  intros raw. unfold convert.
  change (adapters_get registerAdapters "mcp") with (Some MCPAdapter).
  cbn [parse MCPAdapter]. unfold MCP_parse.
  change (get raw "jsonrpc") with (Normal (JStr "2.0")). cbn [bind is_string].
  change (String.eqb "2.0" "2.0") with true. cbn [negb].
  change (get raw "method") with (Normal (JStr "tools/call")). cbn [bind].
  change (truthy (JStr "tools/call")) with true. cbn [negb].
  unfold parse_succeeded, stringified_length.
  change (JSON_stringify raw) with
    (Some ("{" ++ String.concat ","
             (flat_map (fun p => match JSON_stringify (snd p) with
                                 | Some s => [quote (fst p) ++ ":" ++ s]
                                 | None => []
                                 end)
                [("jsonrpc", JStr "2.0"); ("id", requestId); ("method", JStr "tools/call");
                 ("params", JObj [("name", JStr name); ("arguments", arguments)])]) ++ "}")).
  cbn [bind try_catch parse_success negb normalize MCPAdapter].
  unfold MCP_normalize, unusable. cbn [parse_success data negb orb truthy].
  change (get raw "method") with (Normal (JStr "tools/call")). cbn [bind is_string].
  change (String.eqb "tools/call" "tools/call") with true. cbv iota.
  unfold MCP_normalizeToolCall.
  change (get raw "params")
    with (Normal (JObj [("name", JStr name); ("arguments", arguments)])).
  cbn [bind or_else truthy].
  change (get (JObj [("name", JStr name); ("arguments", arguments)]) "name")
    with (Normal (JStr name)).
  change (get (JObj [("name", JStr name); ("arguments", arguments)]) "arguments")
    with (Normal arguments).
  cbn [bind normalize_success normalized negb].
  eexists. split; [reflexivity|]. split; [reflexivity|].
  cbn [normalizedIntent intent]. unfold or_else. cbn [truthy].
  destruct (String.eqb name ""); reflexivity.
Qed.

Lemma six_tags (tag : string) :
  tag = "mcp" \/ tag = "a2a" \/ tag = "ucp" \/ tag = "acp" \/ tag = "openai" \/
  tag = "anthropic" \/ ~ In tag ["mcp"; "a2a"; "ucp"; "acp"; "openai"; "anthropic"].
Proof.
  destruct (String.eqb_spec tag "mcp"); [tauto|].
  destruct (String.eqb_spec tag "a2a"); [tauto|].
  destruct (String.eqb_spec tag "ucp"); [tauto|].
  destruct (String.eqb_spec tag "acp"); [tauto|].
  destruct (String.eqb_spec tag "openai"); [tauto|].
  destruct (String.eqb_spec tag "anthropic"); [tauto|].
  do 6 right. intros [E|[E|[E|[E|[E|[E|[]]]]]]]; symmetry in E; contradiction.
Qed.

(** X26. The protocols the dispatcher supports are the six that
    [isValidProtocol] accepts, in the order of registration; a tag has an
    adapter exactly when it is valid, the adapter found under a tag is the
    one of that protocol, and [convert] refuses every other tag as an
    unsupported protocol. *)
Theorem supported_protocols_are_the_valid_ones (tag : string) :
  getSupportedProtocols = ["mcp"; "a2a"; "ucp"; "acp"; "openai"; "anthropic"] /\
  (Utils.isValidProtocol tag = true <-> exists a, getAdapter tag = Some a) /\
  (Utils.isValidProtocol tag = true <-> exists p, Protocol_name p = tag) /\
  (forall a, getAdapter tag = Some a -> Protocol_name (protocol a) = tag) /\
  (Utils.isValidProtocol tag = false ->
   forall env raw trace,
     convert env raw tag trace = Throw (Error ("Unsupported protocol: " ++ tag))).
Proof.
  split; [reflexivity|].
  assert (Hnone : ~ In tag ["mcp"; "a2a"; "ucp"; "acp"; "openai"; "anthropic"] ->
                  Utils.isValidProtocol tag = false /\ getAdapter tag = None /\
                  forall p, Protocol_name p <> tag).
  { intros Hn. split; [|split].
    - unfold Utils.isValidProtocol. apply not_true_is_false. intros Hx.
      apply existsb_exists in Hx as (k & Hk & E). apply String.eqb_eq in E. subst k.
      exact (Hn Hk).
    - unfold getAdapter. destruct (adapters_get registerAdapters tag) as [a|] eqn:E;
        [|reflexivity].
      apply adapters_get_registered in E as [Hin Hname]. exfalso. apply Hn.
      rewrite <- Hname. simpl in Hin.
      destruct Hin as [<-|[<-|[<-|[<-|[<-|[<-|[]]]]]]]; simpl; tauto.
    - intros p Hp. apply Hn. rewrite <- Hp. destruct p; simpl; tauto. }
  destruct (six_tags tag) as [->|[->|[->|[->|[->|[->|Hn]]]]]].
  1-6: (split; [split; [intros _; eexists; reflexivity|reflexivity]|];
        split; [split; [intros _|reflexivity]|];
        [first [exists mcp; reflexivity | exists a2a; reflexivity | exists ucp; reflexivity
               | exists acp; reflexivity | exists openai; reflexivity
               | exists anthropic; reflexivity]|];
        split; [intros a E; apply adapters_get_registered in E as [_ E]; exact E|];
        intros E; discriminate E).
  destruct (Hnone Hn) as (Hv & Hg & Hp).
  split; [rewrite Hv, Hg; split; [discriminate|intros [a E]; discriminate E]|].
  split; [rewrite Hv; split; [discriminate|intros [p E]; destruct (Hp p E)]|].
  split; [rewrite Hg; discriminate|].
  intros _ env raw trace. unfold convert. fold (getAdapter tag). rewrite Hg. reflexivity.
Qed.

Lemma lower_char_idempotent (c : ascii) : lower_char (lower_char c) = lower_char c.
Proof.
  unfold lower_char.
  destruct ((65 <=? nat_of_ascii c)%nat && (nat_of_ascii c <=? 90)%nat) eqn:E.
  - apply andb_true_iff in E as [E1 E2].
    apply Nat.leb_le in E1. apply Nat.leb_le in E2.
    rewrite nat_ascii_embedding by lia.
    replace ((65 <=? nat_of_ascii c + 32)%nat && (nat_of_ascii c + 32 <=? 90)%nat) with false.
    + reflexivity.
    + symmetry. apply andb_false_iff. right. apply Nat.leb_gt. lia.
  - rewrite E. reflexivity.
Qed.

Lemma lower_idempotent (s : string) : lower (lower s) = lower s.
Proof.
  induction s as [|c s IH]; simpl; [reflexivity|].
  rewrite lower_char_idempotent, IH. reflexivity.
Qed.

(** X27. The UCP operation and the ACP message type are mapped to a
    category without regard to the case of their ASCII letters, and a name
    that is in neither table, other than the two names every object
    inherits, is mapped to conversation. *)
Theorem category_mapping_ignores_case (s : string) :
  mapOperationToCategory (JStr s) = mapOperationToCategory (JStr (lower s)) /\
  mapMessageTypeToCategory (JStr s) = mapMessageTypeToCategory (JStr (lower s)) /\
  (~ In (lower s) (map fst operationMap) -> lower s <> "constructor" ->
   lower s <> "__proto__" -> mapOperationToCategory (JStr s) = Normal conversation) /\
  (~ In (lower s) (map fst typeMap) -> lower s <> "constructor" ->
   lower s <> "__proto__" -> mapMessageTypeToCategory (JStr s) = Normal conversation).
Proof.
  unfold mapOperationToCategory, mapMessageTypeToCategory. cbn [toLowerCase bind].
  rewrite lower_idempotent.
  assert (Hmiss : forall table key,
             ~ In key (map fst table) -> key <> "constructor" -> key <> "__proto__" ->
             table_lookup table key = None).
  { induction table as [|[k c] table IH]; intros key Hn H1 H2; simpl.
    - apply String.eqb_neq in H1. apply String.eqb_neq in H2. rewrite H1, H2. reflexivity.
    - simpl in Hn. destruct (String.eqb_spec key k) as [->|Hk]; [tauto|].
      apply IH; tauto. }
  split; [reflexivity|]. split; [reflexivity|].
  split; intros Hn H1 H2; rewrite Hmiss by assumption; reflexivity.
Qed.

End AdapterRegistry.

Lemma category_mapping_ignores_case_witness :
  @Adapter.mapOperationToCategory (JStr "Ping") = Normal conversation /\
  @Adapter.mapOperationToCategory (JStr "READ") = @Adapter.mapOperationToCategory (JStr "read").
Proof.
  destruct (category_mapping_ignores_case "Ping") as (_ & _ & Hmiss & _).
  destruct (category_mapping_ignores_case "READ") as (Hcase & _).
  split; [|exact Hcase].
  apply Hmiss; [|discriminate|discriminate].
  simpl. intros [E|[E|[E|[E|[E|[E|[E|[E|[]]]]]]]]]; discriminate E.
Defined.

(** ** The helpers of packages/shared *)

Section PerformanceTargets.

Import Utils.

(** X28. For every metric, [checkPerformanceTarget] reports the target as
    met exactly when the delta it reports is not positive: for the
    accuracy, where higher is better, the delta is the shortfall, and for
    the time metrics it is the excess. *)
Theorem checkPerformanceTarget_met_iff_delta (metric : Metric) (value : Q) :
  let r := checkPerformanceTarget metric value in
  check_target r = PERFORMANCE_TARGETS metric /\
  (check_met r = true <-> (check_delta r <= 0)%Q) /\
  (check_met r = true <->
   match metric with
   | semanticRoutingAccuracy => (PERFORMANCE_TARGETS metric <= value)%Q
   | _ => (value <= PERFORMANCE_TARGETS metric)%Q
   end).
Proof.
  destruct metric; cbn [checkPerformanceTarget check_met check_target check_delta];
    (split; [reflexivity|]); rewrite Qle_bool_iff; split; split; intros Hle; lra.
Qed.

End PerformanceTargets.

Section Masking.

Import Utils.

(** The host's limit on the length of a string. *)
Variable maxLength : Z.

Lemma length_list_ascii_of_string (s : string) :
  length (list_ascii_of_string s) = String.length s.
Proof. induction s as [|c s IH]; simpl; [reflexivity|]. rewrite IH. reflexivity. Qed.

Lemma length_string_of_list_ascii (l : list ascii) :
  String.length (string_of_list_ascii l) = length l.
Proof. induction l as [|c l IH]; simpl; [reflexivity|]. rewrite IH. reflexivity. Qed.

Lemma list_ascii_of_string_app (a b : string) :
  list_ascii_of_string (a ++ b) = (list_ascii_of_string a ++ list_ascii_of_string b)%list.
Proof.
  induction a as [|c a IH]; [reflexivity|].
  change (list_ascii_of_string (String c (a ++ b))
          = (c :: list_ascii_of_string a ++ list_ascii_of_string b)%list).
  simpl. rewrite IH. reflexivity.
Qed.

Lemma list_ascii_of_copies (n : nat) :
  list_ascii_of_string (copies "*" n) = List.repeat "*"%char n.
Proof.
  induction n as [|n IH]; [reflexivity|].
  change (copies "*" (S n)) with (String "*"%char (copies "*" n)).
  simpl. rewrite IH. reflexivity.
Qed.

Lemma length_copies (n : nat) : String.length (copies "*" n) = n.
Proof.
  rewrite <- length_list_ascii_of_string, list_ascii_of_copies. apply repeat_length.
Qed.

Lemma repeat_stars (count : Z) :
  0 <= count ->
  repeat maxLength "*" count
  = if maxLength <? count then Throw (Error "Invalid string length")
    else Normal (copies "*" (Z.to_nat count)).
Proof.
  intros Hc. unfold repeat.
  replace (count <? 0) with false by (symmetry; apply Z.ltb_ge; exact Hc).
  change (Z.of_nat (String.length "*")) with 1. rewrite Z.mul_1_l. reflexivity.
Qed.

Lemma concat_fits (a b : string) :
  Z.of_nat (String.length a) + Z.of_nat (String.length b) <= maxLength ->
  concat maxLength a b = Normal (a ++ b).
Proof.
  intros Hl. unfold concat.
  replace (maxLength <? _) with false by (symmetry; apply Z.ltb_ge; exact Hl).
  reflexivity.
Qed.

(** The two slices of [maskSensitiveData] when the data has more than
    twice [visibleChars] characters. *)
Lemma mask_slices (chars : list ascii) (visibleChars : Z) :
  0 <= visibleChars -> visibleChars * 2 < Z.of_nat (length chars) ->
  slice 0 visibleChars chars = firstn (Z.to_nat visibleChars) chars /\
  slice_from (- visibleChars) chars
  = if visibleChars =? 0 then chars
    else skipn (length chars - Z.to_nat visibleChars) chars.
Proof.
  intros H0 Hlen. unfold slice_from, slice, relative_index.
  replace (0 <? 0) with false by reflexivity.
  replace (visibleChars <? 0) with false by (symmetry; apply Z.ltb_ge; lia).
  replace (Z.of_nat (length chars) <? 0) with false by (symmetry; apply Z.ltb_ge; lia).
  rewrite Z.min_id.
  replace (Z.min 0 (Z.of_nat (length chars))) with 0 by lia.
  replace (Z.min visibleChars (Z.of_nat (length chars))) with visibleChars by lia.
  change (skipn (Z.to_nat 0) chars) with chars.
  replace (visibleChars - 0) with visibleChars by lia. split; [reflexivity|].
  destruct (visibleChars =? 0) eqn:E.
  - apply Z.eqb_eq in E. subst visibleChars. change (- 0) with 0.
    change (0 <? 0) with false. cbv iota.
    replace (Z.min 0 (Z.of_nat (length chars))) with 0 by lia.
    change (skipn (Z.to_nat 0) chars) with chars.
    replace (Z.to_nat (Z.of_nat (length chars) - 0)) with (length chars) by lia.
    apply firstn_all.
  - apply Z.eqb_neq in E.
    replace (- visibleChars <? 0) with true by (symmetry; apply Z.ltb_lt; lia).
    replace (Z.max (Z.of_nat (length chars) + - visibleChars) 0)
      with (Z.of_nat (length chars) - visibleChars) by lia.
    replace (Z.to_nat (Z.of_nat (length chars) - visibleChars))
      with (length chars - Z.to_nat visibleChars)%nat by lia.
    apply firstn_all2. rewrite length_skipn. lia.
Qed.

(** X29. For data the host can hold, [maskSensitiveData] with at least one
    visible character on each side does not throw and its result is as
    long as the data: all stars when the data has at most twice that many
    characters, and otherwise the first and the last [visibleChars]
    characters around stars. With [visibleChars = 0] the result of a
    non-empty string is the stars followed by the whole data, since
    [slice(-0)] is [slice(0)], twice as long as the data, and the call
    throws when the host cannot hold that. With a negative [visibleChars]
    the call throws when the data and twice that many stars are more than
    the host can hold. *)
Theorem maskSensitiveData_shape (data : string) (visibleChars : Z) :
  let chars := list_ascii_of_string data in
  let n := Z.to_nat visibleChars in
  Z.of_nat (length chars) <= maxLength ->
  (1 <= visibleChars ->
   exists masked,
     maskSensitiveData maxLength data (Some visibleChars) = Normal masked /\
     length (list_ascii_of_string masked) = length chars /\
     list_ascii_of_string masked
     = if (length chars <=? 2 * n)%nat then List.repeat "*"%char (length chars)
       else (firstn n chars ++ List.repeat "*"%char (length chars - 2 * n)
             ++ skipn (length chars - n) chars)%list) /\
  (visibleChars = 0 -> data <> "" ->
   if 2 * Z.of_nat (length chars) <=? maxLength
   then exists masked,
          maskSensitiveData maxLength data (Some visibleChars) = Normal masked /\
          list_ascii_of_string masked = (List.repeat "*"%char (length chars) ++ chars)%list
   else maskSensitiveData maxLength data (Some visibleChars)
        = Throw (Error "Invalid string length")) /\
  (visibleChars < 0 -> maxLength < Z.of_nat (length chars) - visibleChars * 2 ->
   maskSensitiveData maxLength data (Some visibleChars)
   = Throw (Error "Invalid string length")).
Proof.
  intros chars n Hfit. unfold maskSensitiveData. cbv zeta.
  change (default 4 (Some visibleChars)) with visibleChars.
  assert (Hlen : String.length data = length chars)
    by (symmetry; apply length_list_ascii_of_string).
  rewrite Hlen. unfold string_slice, string_slice_from. fold chars.
  split; [|split].
  - intros Hv. destruct (Z.of_nat (length chars) <=? visibleChars * 2) eqn:E.
    + apply Z.leb_le in E. rewrite repeat_stars by lia.
      replace (maxLength <? Z.of_nat (length chars)) with false
        by (symmetry; apply Z.ltb_ge; exact Hfit).
      rewrite Nat2Z.id. eexists. split; [reflexivity|].
      rewrite list_ascii_of_copies, repeat_length. split; [reflexivity|].
      replace (length chars <=? 2 * n)%nat with true
        by (symmetry; apply Nat.leb_le; unfold n; lia).
      reflexivity.
    + apply Z.leb_gt in E.
      destruct (mask_slices chars visibleChars ltac:(lia) E) as [Hhead Htail].
      replace (visibleChars =? 0) with false in Htail by (symmetry; apply Z.eqb_neq; lia).
      rewrite Hhead, Htail. fold n.
      rewrite repeat_stars by lia.
      replace (maxLength <? Z.of_nat (length chars) - visibleChars * 2) with false
        by (symmetry; apply Z.ltb_ge; lia).
      replace (Z.to_nat (Z.of_nat (length chars) - visibleChars * 2))
        with (length chars - 2 * n)%nat by (unfold n; lia).
      cbn [bind].
      rewrite concat_fits.
      2:{ rewrite length_string_of_list_ascii, length_copies, length_firstn. unfold n. lia. }
      cbn [bind].
      rewrite concat_fits.
      2:{ rewrite length_append, !length_string_of_list_ascii, length_copies,
            length_firstn, length_skipn. unfold n. lia. }
      eexists. split; [reflexivity|].
      rewrite !list_ascii_of_string_app, list_ascii_of_copies,
        !list_ascii_of_string_of_list_ascii, <- app_assoc.
      replace (length chars <=? 2 * n)%nat with false
        by (symmetry; apply Nat.leb_gt; unfold n; lia).
      split; [|reflexivity].
      rewrite !length_app, repeat_length, length_firstn, length_skipn. unfold n. lia.
  - intros -> Hne.
    assert (Hpos : 0 < Z.of_nat (length chars)).
    { destruct data; [congruence|]. subst chars. simpl. lia. }
    replace (Z.of_nat (length chars) <=? 0 * 2) with false
      by (symmetry; apply Z.leb_gt; lia).
    destruct (mask_slices chars 0 ltac:(lia) ltac:(lia)) as [Hhead Htail].
    change (0 =? 0) with true in Htail. cbv iota in Htail.
    change (- 0) with 0 in *. rewrite Hhead, Htail.
    rewrite repeat_stars by lia.
    replace (maxLength <? Z.of_nat (length chars) - 0 * 2) with false
      by (symmetry; apply Z.ltb_ge; lia).
    replace (Z.to_nat (Z.of_nat (length chars) - 0 * 2)) with (length chars) by lia.
    cbn [bind]. change (firstn (Z.to_nat 0) chars) with (@nil ascii).
    rewrite concat_fits.
    2:{ rewrite length_copies. simpl. lia. }
    cbn [bind]. change (string_of_list_ascii [] ++ copies "*" (length chars))
      with (copies "*" (length chars)).
    unfold concat. rewrite length_copies, length_string_of_list_ascii.
    replace (Z.of_nat (length chars) + Z.of_nat (length chars))
      with (2 * Z.of_nat (length chars)) by lia.
    rewrite Z.ltb_antisym.
    destruct (2 * Z.of_nat (length chars) <=? maxLength); cbn [negb]; [|reflexivity].
    eexists. split; [reflexivity|].
    rewrite list_ascii_of_string_app, list_ascii_of_copies,
      list_ascii_of_string_of_list_ascii. reflexivity.
  - intros Hv Hbig.
    replace (Z.of_nat (length chars) <=? visibleChars * 2) with false
      by (symmetry; apply Z.leb_gt; lia).
    rewrite repeat_stars by lia.
    replace (maxLength <? Z.of_nat (length chars) - visibleChars * 2) with true
      by (symmetry; apply Z.ltb_lt; exact Hbig).
    reflexivity.
Qed.

End Masking.

Lemma maskSensitiveData_shape_witness :
  Utils.maskSensitiveData (2 ^ 29 - 24) "sk-1234567890abcd" None = Normal "sk-1*********abcd" /\
  Utils.maskSensitiveData (2 ^ 29 - 24) "sk-1234567890abcd" (Some (- 2 ^ 30))
  = Throw (Error "Invalid string length") /\
  exists masked,
    Utils.maskSensitiveData (2 ^ 29 - 24) "sk-1234567890abcd" (Some 4) = Normal masked /\
    length (list_ascii_of_string masked) = 17%nat.
Proof.
  split; [reflexivity|]. split; [reflexivity|].
  destruct (maskSensitiveData_shape (2 ^ 29 - 24) "sk-1234567890abcd" 4) as (Hshape & _ & _).
  { simpl. lia. }
  destruct Hshape as (masked & E & Hl & _); [lia|].
  exists masked. split; [exact E|exact Hl].
Defined.

Section Percentiles.

Import Utils.

Lemma ascending_sign (a b : Q) : Qltb 0 (a - b) = Qltb 0 (by_key_descending Qopp a b).
Proof.
  unfold by_key_descending.
  destruct (Qltb 0 (- b - - a)) eqn:E.
  - apply Qltb_lt. apply Qltb_lt in E. lra.
  - apply Qltb_false_le. apply Qltb_false_le in E. lra.
Qed.

Lemma sort_ascending (values : list Q) :
  sort (fun a b => (a - b)%Q) values = sort (by_key_descending Qopp) values.
Proof. apply sort_ext. intros x y. apply ascending_sign. Qed.

Lemma descending_nth {A : Type} (key : A -> Q) (l : list A) :
  descending key l ->
  forall i j x y, (i <= j)%nat -> nth_error l i = Some x -> nth_error l j = Some y ->
                  (key y <= key x)%Q.
Proof.
  induction 1 as [|z l Hz Hl IH]; intros i j x y Hij Hi Hj.
  - destruct i; discriminate Hi.
  - destruct i as [|i], j as [|j]; simpl in Hi, Hj.
    + injection Hi as <-. injection Hj as <-. apply Qle_refl.
    + injection Hi as <-. rewrite List.Forall_forall in Hz.
      apply Hz. eapply nth_error_In. exact Hj.
    + lia.
    + apply (IH i j); [lia|assumption|assumption].
Qed.

Lemma sort_members (values : list Q) (x : Q) :
  In x (sort (fun a b => (a - b)%Q) values) <-> In x values.
Proof.
  split.
  - apply sort_In.
  - intros Hx. eapply Permutation_in; [apply sort_Permutation|exact Hx].
Qed.

(** The length of an array as a double, and its product with a double
    between a quarter and 1 as [Number_times] rounds it. *)
Lemma length_as_double (n : nat) :
  (0 < n)%nat ->
  let N := inject_Z (Z.of_nat n) in
  (N - (N * pow2 (-53) + pow2 (-1075)) <= to_double N
   <= N + (N * pow2 (-53) + pow2 (-1075)))%Q.
Proof.
  intros Hn N. apply to_double_error.
  unfold N. change 0%Q with (inject_Z 0). rewrite <- Zlt_Qlt. lia.
Qed.

Lemma scaled_length (c : Q) (n : nat) :
  to_double c = c -> (0 < c)%Q -> (0 < n)%nat ->
  let y := (c * to_double (inject_Z (Z.of_nat n)))%Q in
  (y - (y * pow2 (-53) + pow2 (-1075)) <= Number_times c (inject_Z (Z.of_nat n))
   <= y + (y * pow2 (-53) + pow2 (-1075)))%Q.
Proof.
  intros Hc Hc0 Hn y. unfold Number_times. rewrite Hc. fold y.
  apply to_double_error. unfold y.
  apply Qmult_lt_0_compat; [exact Hc0|].
  pose proof (length_as_double n Hn) as HfN. cbv zeta in HfN.
  assert (HN : (1 <= inject_Z (Z.of_nat n))%Q).
  { change 1%Q with (inject_Z 1). rewrite <- Zle_Qle. lia. }
  assert (Hu : (pow2 (-53) == 1 # 9007199254740992)%Q) by reflexivity.
  assert (Ht : (pow2 (-1075) <= 1 # 4)%Q) by (apply Qle_bool_iff; vm_compute; reflexivity).
  rewrite Hu in HfN. lra.
Qed.

(** The indexes of the three percentiles of [calculateStats] are in the
    array and in the order of the percentiles. *)
Lemma percentile_indexes (n : nat) :
  (0 < n)%nat ->
  (percentile_index 50 n <= percentile_index 95 n)%nat /\
  (percentile_index 95 n <= percentile_index 99 n)%nat /\
  (percentile_index 99 n < n)%nat.
Proof.
  intros Hn. unfold percentile_index.
  set (N := inject_Z (Z.of_nat n)).
  assert (HN : (1 <= N)%Q).
  { unfold N. change 1%Q with (inject_Z 1). rewrite <- Zle_Qle. lia. }
  pose proof (length_as_double n Hn) as HfN.
  pose proof (scaled_length (Number_divide 50 100) n
                ltac:(vm_compute; reflexivity) ltac:(vm_compute; reflexivity) Hn) as H50.
  pose proof (scaled_length (Number_divide 95 100) n
                ltac:(vm_compute; reflexivity) ltac:(vm_compute; reflexivity) Hn) as H95.
  pose proof (scaled_length (Number_divide 99 100) n
                ltac:(vm_compute; reflexivity) ltac:(vm_compute; reflexivity) Hn) as H99.
  cbv zeta in HfN, H50, H95, H99. fold N in HfN, H50, H95, H99 |- *.
  set (F50 := Number_times (Number_divide 50 100) N) in *.
  set (F95 := Number_times (Number_divide 95 100) N) in *.
  set (F99 := Number_times (Number_divide 99 100) N) in *.
  set (fN := to_double N) in *.
  assert (E50 : (Number_divide 50 100 == 1 # 2)%Q) by reflexivity.
  assert (E95 : (Number_divide 95 100 == 4278419646001971 # 4503599627370496)%Q)
    by reflexivity.
  assert (E99 : (Number_divide 99 100 == 4458563631096791 # 4503599627370496)%Q)
    by reflexivity.
  assert (Hu : (pow2 (-53) == 1 # 9007199254740992)%Q) by reflexivity.
  assert (Ht0 : (0 < pow2 (-1075))%Q) by apply pow2_pos.
  assert (Ht : (pow2 (-1075) <= 1 # 1000000)%Q)
    by (apply Qle_bool_iff; vm_compute; reflexivity).
  set (t := pow2 (-1075)) in *.
  rewrite E50 in H50. rewrite E95 in H95. rewrite E99 in H99.
  rewrite Hu in HfN, H50, H95, H99.
  assert (L1 : (F50 <= F95)%Q) by lra.
  assert (L2 : (F95 <= F99)%Q) by lra.
  assert (L3 : (F99 <= N)%Q) by lra.
  apply Qceiling_resp_le in L1, L2, L3.
  unfold N in L3. rewrite Qceiling_Z in L3.
  lia.
Qed.

(** [calculatePercentile] at the three percentiles of [calculateStats]: for
    some values it returns three of them, in the order of the percentiles. *)
Lemma calculatePercentile_order_statistics (values : list Q) :
  values <> [] ->
  exists a b c,
    calculatePercentile values 50 = Some a /\
    calculatePercentile values 95 = Some b /\
    calculatePercentile values 99 = Some c /\
    In a values /\ In b values /\ In c values /\ (a <= b)%Q /\ (b <= c)%Q.
Proof.
  intros Hne. unfold calculatePercentile.
  destruct values as [|v0 vs] eqn:Ev; [congruence|]. rewrite <- Ev in *. clear Hne.
  replace (length values =? 0)%nat with false by (subst values; reflexivity).
  set (sorted := sort (fun a b => (a - b)%Q) values).
  assert (Hlen : length sorted = length values) by apply length_sort.
  assert (Hn : (0 < length sorted)%nat) by (rewrite Hlen; subst values; simpl; lia).
  assert (Hdesc : descending Qopp sorted).
  { unfold sorted. rewrite sort_ascending. apply sort_descending. }
  destruct (percentile_indexes (length sorted) Hn) as (H1 & H2 & H3).
  cbv zeta. fold (percentile_index 50 (length sorted)).
  fold (percentile_index 95 (length sorted)). fold (percentile_index 99 (length sorted)).
  destruct (nth_error sorted (percentile_index 50 (length sorted))) as [a|] eqn:Ea;
    [|apply nth_error_None in Ea; lia].
  destruct (nth_error sorted (percentile_index 95 (length sorted))) as [b|] eqn:Eb;
    [|apply nth_error_None in Eb; lia].
  destruct (nth_error sorted (percentile_index 99 (length sorted))) as [c|] eqn:Ec;
    [|apply nth_error_None in Ec; lia].
  exists a, b, c. do 3 (split; [reflexivity|]).
  split; [apply sort_members; eapply nth_error_In; exact Ea|].
  split; [apply sort_members; eapply nth_error_In; exact Eb|].
  split; [apply sort_members; eapply nth_error_In; exact Ec|].
  pose proof (descending_nth Qopp sorted Hdesc _ _ a b H1 Ea Eb) as Hab.
  pose proof (descending_nth Qopp sorted Hdesc _ _ b c H2 Eb Ec) as Hbc.
  split; lra.
Qed.

(** X30. For no values [calculateStats] is all zeros. For some values it
    returns the smallest as the minimum, the greatest as the maximum and
    three of the values as the percentiles, in the order
    min <= p50 <= p95 <= p99 <= max. *)
Theorem calculateStats_orders_its_percentiles (values : list Q) :
  (values = [] ->
   calculateStats values
   = {| stats_min := Some 0%Q; stats_max := Some 0%Q; stats_avg := 0;
        stats_p50 := Some 0%Q; stats_p95 := Some 0%Q; stats_p99 := Some 0%Q |}) /\
  (values <> [] ->
   exists lo a b c hi,
     stats_min (calculateStats values) = Some lo /\
     stats_p50 (calculateStats values) = Some a /\
     stats_p95 (calculateStats values) = Some b /\
     stats_p99 (calculateStats values) = Some c /\
     stats_max (calculateStats values) = Some hi /\
     Forall (fun x => In x values) [lo; a; b; c; hi] /\
     Forall (fun v => (lo <= v <= hi)%Q) values /\
     (lo <= a)%Q /\ (a <= b)%Q /\ (b <= c)%Q /\ (c <= hi)%Q).
Proof.
  split; [intros ->; reflexivity|].
  intros Hne. unfold calculateStats.
  destruct values as [|v0 vs] eqn:Ev; [congruence|]. rewrite <- Ev in *.
  replace (length values =? 0)%nat with false by (subst values; reflexivity).
  set (sorted := sort (fun a b => (a - b)%Q) values).
  cbn [stats_min stats_max stats_p50 stats_p95 stats_p99].
  assert (Hlen : length sorted = length values) by apply length_sort.
  assert (Hn : (0 < length sorted)%nat) by (rewrite Hlen; subst values; simpl; lia).
  assert (Hsne : sorted <> []) by (intros E; rewrite E in Hn; simpl in Hn; lia).
  assert (Hdesc : descending Qopp sorted).
  { unfold sorted. rewrite sort_ascending. apply sort_descending. }
  assert (Hmem : forall x, In x sorted <-> In x values) by apply sort_members.
  destruct (nth_error sorted 0) as [lo|] eqn:Elo; [|apply nth_error_None in Elo; lia].
  destruct (nth_error sorted (length sorted - 1)) as [hi|] eqn:Ehi;
    [|apply nth_error_None in Ehi; lia].
  assert (Hbounds : Forall (fun v => (lo <= v <= hi)%Q) values).
  { apply List.Forall_forall. intros v Hv. apply Hmem in Hv.
    apply In_nth_error in Hv as [j Hj].
    assert (Hj' : (j < length sorted)%nat) by (apply nth_error_Some; congruence).
    pose proof (descending_nth Qopp sorted Hdesc 0%nat j lo v ltac:(lia) Elo Hj).
    pose proof (descending_nth Qopp sorted Hdesc j (length sorted - 1)%nat v hi
                  ltac:(lia) Hj Ehi).
    split; lra. }
  destruct (calculatePercentile_order_statistics sorted Hsne)
    as (a & b & c & Ea & Eb & Ec & Ha & Hb & Hc & Hab & Hbc).
  exists lo, a, b, c, hi. rewrite Ea, Eb, Ec.
  do 5 (split; [reflexivity|]).
  apply Hmem in Ha, Hb, Hc.
  rewrite List.Forall_forall in Hbounds.
  split.
  { repeat constructor; try assumption; apply Hmem; eapply nth_error_In; eassumption. }
  split; [apply List.Forall_forall; exact Hbounds|].
  split; [apply (Hbounds a Ha)|].
  split; [exact Hab|].
  split; [exact Hbc|].
  apply (Hbounds c Hc).
Qed.

End Percentiles.

Lemma calculateStats_orders_its_percentiles_witness :
  exists lo a b c hi,
    Utils.stats_min (Utils.calculateStats [3; 1; 2]%Q) = Some lo /\
    Utils.stats_p50 (Utils.calculateStats [3; 1; 2]%Q) = Some a /\
    Utils.stats_p95 (Utils.calculateStats [3; 1; 2]%Q) = Some b /\
    Utils.stats_p99 (Utils.calculateStats [3; 1; 2]%Q) = Some c /\
    Utils.stats_max (Utils.calculateStats [3; 1; 2]%Q) = Some hi /\
    (lo <= a)%Q /\ (a <= b)%Q /\ (b <= c)%Q /\ (c <= hi)%Q.
Proof.
  destruct (proj2 (calculateStats_orders_its_percentiles [3; 1; 2]%Q))
    as (lo & a & b & c & hi & H1 & H2 & H3 & H4 & H5 & _ & _ & H6 & H7 & H8 & H9).
  - discriminate.
  - exists lo, a, b, c, hi. repeat (split; [assumption|]). assumption.
Defined.

(** The index is that of the doubles: 28 percent of 25 values is the
    double above 7, so the eighth value is read, where the exact product 7
    would give the seventh. *)
Lemma calculatePercentile_rounds_the_product :
  Utils.percentile_index 28 25 = 7%nat /\
  Z.to_nat (Z.max 0 (Qceiling ((28 # 100) * 25) - 1)) = 6%nat /\
  Utils.calculatePercentile (map inject_Z (map Z.of_nat (seq 1 25))) 28 = Some 8%Q.
Proof. vm_compute. repeat split. Qed.
